(** * The bus face of a unit

    A shallow embedding of [src/core/dbus-unit.c]: the property getters,
    the job dispatcher, the cgroup process walker, the process attach call,
    the change signal emitter and the two-pass property writer.

    C [int] results are kept as the code has them: a call either fails
    (a negative return, possibly with a bus error filled in) or yields a
    value.  Stateful C code is written in a small state-and-failure monad
    in which the state survives a failure, exactly as a C function that
    returns early leaves behind whatever it already wrote. *)

From Stdlib Require Import ZArith Lia.
From stdpp Require Import base gmap sets list strings pretty.

Local Open Scope Z_scope.

(** ** errno values used by the file (Linux [errno.h]) *)

Definition ENOENT : Z := 2.
Definition ESRCH : Z := 3.
Definition ENXIO : Z := 6.
Definition ENOMEM : Z := 12.
Definition EEXIST : Z := 17.

(** ** Failures

    [Errno r] is a plain [return r] with [r < 0]; [BusError] is
    [sd_bus_error_setf (error, name, format, args...)]; [BusErrnoError] is
    [sd_bus_error_set_errnof (error, r, format)]; [AssertionFailed] is an
    [assert] that does not hold (the process aborts). The format string is
    kept verbatim and its arguments are kept as data. *)

Inductive fmt_arg : Type :=
| ArgString (s : string)
| ArgPid (pid : Z).

Inductive bus_error_name : Type :=
| SD_BUS_ERROR_INVALID_ARGS
| SD_BUS_ERROR_ACCESS_DENIED
| SD_BUS_ERROR_PROPERTY_READ_ONLY
| BUS_ERROR_NO_SUCH_UNIT
| BUS_ERROR_ONLY_BY_DEPENDENCY
| BUS_ERROR_UNIT_MASKED.

Inductive failure : Type :=
| Errno (r : Z)
| BusError (name : bus_error_name) (format : string) (args : list fmt_arg)
| BusErrnoError (r : Z) (format : string)
| AssertionFailed (expr : string).

Definition result (A : Type) : Type := failure + A.

Definition is_ok {A} (r : result A) : bool :=
  match r with inr _ => true | inl _ => false end.

(** ** The state-and-failure monad *)

Definition M (S A : Type) : Type := S -> result A * S.

Definition ret {S A} (a : A) : M S A := fun s => (inr a, s).
Definition fail {S A} (e : failure) : M S A := fun s => (inl e, s).
Definition bind {S A B} (c : M S A) (k : A -> M S B) : M S B :=
  fun s =>
    match c s with
    | (inr a, s') => k a s'
    | (inl e, s') => (inl e, s')
    end.
Definition get {S} : M S S := fun s => (inr s, s).
Definition modify {S} (f : S -> S) : M S unit := fun s => (inr tt, f s).
Definition lift {S A} (r : result A) : M S A := fun s => (r, s).

(** A call that returns an [int]: [r = f (); if (r < 0) return r;]. *)
Definition checked {S} (r : Z) : M S unit :=
  if r <? 0 then fail (Errno r) else ret tt.

(** A call whose failure is only logged: [r = f (); if (r < 0) log (...)]. *)
Definition logged {S A} (c : M S A) : M S unit := fun s => (inr tt, snd (c s)).

Notation "'let*' x ':=' c 'in' k" := (bind c (fun x => k))
  (at level 10, x pattern, c at level 100, k at level 200).
Notation "c1 ';;' c2" := (bind c1 (fun _ => c2))
  (at level 100, c2 at level 200, right associativity).

(** ** Bus messages

    A value of the bus type system, as far as this file reads or writes
    it.  An array carries the signature of its elements, which is what
    [sd_bus_message_enter_container] checks. *)

#[warnings="-register-all"]
Inductive bus_value : Type :=
| BusString (s : string)
| BusObjectPath (p : string)
| BusBool (b : bool)
| BusUInt32 (n : Z)
| BusUInt64 (n : Z)
| BusInt32 (n : Z)
| BusStruct (fields : list bus_value)
| BusArray (signature : string) (elems : list bus_value).

(** A reply under construction: the values appended so far. *)
Definition sd_bus_message : Type := list bus_value.

(** Modelled from the spec: [strempty] and the string case of
    [sd_bus_message_append] (libsystemd, not part of the excerpt): a NULL
    string is serialised as the empty string ("nil reports empty string"). *)
Definition strempty (s : option string) : string :=
  match s with Some s => s | None => "" end.

Definition sd_bus_message_append (m : sd_bus_message) (vs : list bus_value)
  : result sd_bus_message :=
  inr (m ++ vs).

(** Modelled from the spec: [isempty] (string-util.h, not part of the
    excerpt): NULL or the empty string. *)
Definition isempty (s : option string) : bool :=
  match s with
  | None => true
  | Some s => bool_decide (s = "")
  end.

(** Modelled from the spec: [empty_to_root] (path-util.h, not part of the
    excerpt): the empty string stands for the root cgroup and "reports /". *)
Definition empty_to_root (p : string) : string :=
  if isempty (Some p) then "/" else p.

(** Modelled from the spec: [empty_to_null] (string-util.h, not part of the
    excerpt): the empty string becomes NULL. *)
Definition empty_to_null (p : string) : option string :=
  if isempty (Some p) then None else Some p.

(** ** Enumerations the code branches on *)

Inductive UnitType : Type :=
| UNIT_SERVICE | UNIT_SOCKET | UNIT_TARGET | UNIT_DEVICE | UNIT_MOUNT
| UNIT_AUTOMOUNT | UNIT_SWAP | UNIT_TIMER | UNIT_PATH | UNIT_SLICE
| UNIT_SCOPE.

Inductive UnitLoadState : Type :=
| UNIT_STUB | UNIT_LOADED | UNIT_NOT_FOUND | UNIT_BAD_SETTING | UNIT_ERROR
| UNIT_MERGED | UNIT_MASKED.

Inductive UnitActiveState : Type :=
| UNIT_ACTIVE | UNIT_RELOADING | UNIT_INACTIVE | UNIT_FAILED
| UNIT_ACTIVATING | UNIT_DEACTIVATING.

Inductive JobType : Type :=
| JOB_START | JOB_VERIFY_ACTIVE | JOB_STOP | JOB_RELOAD | JOB_RESTART
| JOB_NOP | JOB_TRY_RESTART | JOB_TRY_RELOAD | JOB_RELOAD_OR_START.

Inductive ConditionResult : Type :=
| CONDITION_UNTESTED | CONDITION_SUCCEEDED | CONDITION_FAILED
| CONDITION_ERROR.

#[global] Instance UnitType_eq_dec : EqDecision UnitType.
Proof. solve_decision. Defined.
#[global] Instance UnitLoadState_eq_dec : EqDecision UnitLoadState.
Proof. solve_decision. Defined.
#[global] Instance UnitActiveState_eq_dec : EqDecision UnitActiveState.
Proof. solve_decision. Defined.
#[global] Instance JobType_eq_dec : EqDecision JobType.
Proof. solve_decision. Defined.

(** Modelled from the spec: [UNIT_IS_INACTIVE_OR_FAILED] (unit.h, not part
    of the excerpt): "inactive or failed". *)
Definition UNIT_IS_INACTIVE_OR_FAILED (s : UnitActiveState) : bool :=
  bool_decide (s = UNIT_INACTIVE) || bool_decide (s = UNIT_FAILED).

(** ** Structures *)

(** [ConditionType] and the other enumerations that only flow through this
    file are C enums whose declarations live elsewhere; they are kept as
    the [int] they are, a negative value meaning "invalid". *)
Record Condition : Type := mkCondition {
  cond_type : Z;
  cond_trigger : bool;
  cond_negate : bool;
  cond_parameter : option string;
  cond_result : ConditionResult
}.

Record Job : Type := mkJob {
  job_id : Z;
  job_type : JobType;
  job_mode : Z
}.

Record RateLimit : Type := mkRateLimit {
  interval : Z;
  burst : Z
}.

(** One line handed to [unit_write_settingf]: flags, name, format and the
    format's arguments. *)
Inductive setting_arg : Type :=
| SetS (s : string)
| SetU (n : Z)
| SetB (b : bool).

Record Setting : Type := mkSetting {
  setting_flags : Z;
  setting_name : string;
  setting_format : string;
  setting_args : list setting_arg
}.

Record Unit : Type := mkUnit {
  id : option string;
  type : UnitType;
  load_state : UnitLoadState;
  transient : bool;
  description : option string;
  documentation : list string;
  source_path : option string;
  stop_when_unneeded : bool;
  refuse_manual_start : bool;
  refuse_manual_stop : bool;
  allow_isolate : bool;
  default_dependencies : bool;
  ignore_on_isolate : bool;
  on_failure_job_mode : Z;
  job_timeout : Z;
  job_running_timeout : Z;
  job_running_timeout_set : bool;
  job_timeout_action : Z;
  job_timeout_reboot_arg : option string;
  start_limit : RateLimit;
  start_limit_action : Z;
  failure_action : Z;
  success_action : Z;
  reboot_arg : option string;
  collect_mode : Z;
  conditions : list Condition;
  asserts : list Condition;
  slice : option string;
  dependencies : list (Z * string);
  requires_mounts_for : list string;
  settings : list Setting;
  job : option Job;
  cgroup_path : option string;
  ref_uid : Z;
  bus_track_add : bool;
  in_dbus_queue : bool;
  sent_dbus_new_signal : bool
}.

Definition set_id (v : option string) (u : Unit) : Unit :=
  mkUnit v (type u) (load_state u) (transient u) (description u)
    (documentation u) (source_path u) (stop_when_unneeded u)
    (refuse_manual_start u) (refuse_manual_stop u) (allow_isolate u)
    (default_dependencies u) (ignore_on_isolate u) (on_failure_job_mode u)
    (job_timeout u) (job_running_timeout u) (job_running_timeout_set u)
    (job_timeout_action u) (job_timeout_reboot_arg u) (start_limit u)
    (start_limit_action u) (failure_action u) (success_action u)
    (reboot_arg u) (collect_mode u) (conditions u) (asserts u) (slice u)
    (dependencies u) (requires_mounts_for u) (settings u) (job u)
    (cgroup_path u) (ref_uid u) (bus_track_add u) (in_dbus_queue u)
    (sent_dbus_new_signal u).

Definition set_description (v : option string) (u : Unit) : Unit :=
  mkUnit (id u) (type u) (load_state u) (transient u) v (documentation u)
    (source_path u) (stop_when_unneeded u) (refuse_manual_start u)
    (refuse_manual_stop u) (allow_isolate u) (default_dependencies u)
    (ignore_on_isolate u) (on_failure_job_mode u) (job_timeout u)
    (job_running_timeout u) (job_running_timeout_set u)
    (job_timeout_action u) (job_timeout_reboot_arg u) (start_limit u)
    (start_limit_action u) (failure_action u) (success_action u)
    (reboot_arg u) (collect_mode u) (conditions u) (asserts u) (slice u)
    (dependencies u) (requires_mounts_for u) (settings u) (job u)
    (cgroup_path u) (ref_uid u) (bus_track_add u) (in_dbus_queue u)
    (sent_dbus_new_signal u).

Definition set_documentation (v : list string) (u : Unit) : Unit :=
  mkUnit (id u) (type u) (load_state u) (transient u) (description u) v
    (source_path u) (stop_when_unneeded u) (refuse_manual_start u)
    (refuse_manual_stop u) (allow_isolate u) (default_dependencies u)
    (ignore_on_isolate u) (on_failure_job_mode u) (job_timeout u)
    (job_running_timeout u) (job_running_timeout_set u)
    (job_timeout_action u) (job_timeout_reboot_arg u) (start_limit u)
    (start_limit_action u) (failure_action u) (success_action u)
    (reboot_arg u) (collect_mode u) (conditions u) (asserts u) (slice u)
    (dependencies u) (requires_mounts_for u) (settings u) (job u)
    (cgroup_path u) (ref_uid u) (bus_track_add u) (in_dbus_queue u)
    (sent_dbus_new_signal u).

Definition set_source_path (v : option string) (u : Unit) : Unit :=
  mkUnit (id u) (type u) (load_state u) (transient u) (description u)
    (documentation u) v (stop_when_unneeded u) (refuse_manual_start u)
    (refuse_manual_stop u) (allow_isolate u) (default_dependencies u)
    (ignore_on_isolate u) (on_failure_job_mode u) (job_timeout u)
    (job_running_timeout u) (job_running_timeout_set u)
    (job_timeout_action u) (job_timeout_reboot_arg u) (start_limit u)
    (start_limit_action u) (failure_action u) (success_action u)
    (reboot_arg u) (collect_mode u) (conditions u) (asserts u) (slice u)
    (dependencies u) (requires_mounts_for u) (settings u) (job u)
    (cgroup_path u) (ref_uid u) (bus_track_add u) (in_dbus_queue u)
    (sent_dbus_new_signal u).

Definition set_stop_when_unneeded (v : bool) (u : Unit) : Unit :=
  mkUnit (id u) (type u) (load_state u) (transient u) (description u)
    (documentation u) (source_path u) v (refuse_manual_start u)
    (refuse_manual_stop u) (allow_isolate u) (default_dependencies u)
    (ignore_on_isolate u) (on_failure_job_mode u) (job_timeout u)
    (job_running_timeout u) (job_running_timeout_set u)
    (job_timeout_action u) (job_timeout_reboot_arg u) (start_limit u)
    (start_limit_action u) (failure_action u) (success_action u)
    (reboot_arg u) (collect_mode u) (conditions u) (asserts u) (slice u)
    (dependencies u) (requires_mounts_for u) (settings u) (job u)
    (cgroup_path u) (ref_uid u) (bus_track_add u) (in_dbus_queue u)
    (sent_dbus_new_signal u).

Definition set_refuse_manual_start (v : bool) (u : Unit) : Unit :=
  mkUnit (id u) (type u) (load_state u) (transient u) (description u)
    (documentation u) (source_path u) (stop_when_unneeded u) v
    (refuse_manual_stop u) (allow_isolate u) (default_dependencies u)
    (ignore_on_isolate u) (on_failure_job_mode u) (job_timeout u)
    (job_running_timeout u) (job_running_timeout_set u)
    (job_timeout_action u) (job_timeout_reboot_arg u) (start_limit u)
    (start_limit_action u) (failure_action u) (success_action u)
    (reboot_arg u) (collect_mode u) (conditions u) (asserts u) (slice u)
    (dependencies u) (requires_mounts_for u) (settings u) (job u)
    (cgroup_path u) (ref_uid u) (bus_track_add u) (in_dbus_queue u)
    (sent_dbus_new_signal u).

Definition set_refuse_manual_stop (v : bool) (u : Unit) : Unit :=
  mkUnit (id u) (type u) (load_state u) (transient u) (description u)
    (documentation u) (source_path u) (stop_when_unneeded u)
    (refuse_manual_start u) v (allow_isolate u) (default_dependencies u)
    (ignore_on_isolate u) (on_failure_job_mode u) (job_timeout u)
    (job_running_timeout u) (job_running_timeout_set u)
    (job_timeout_action u) (job_timeout_reboot_arg u) (start_limit u)
    (start_limit_action u) (failure_action u) (success_action u)
    (reboot_arg u) (collect_mode u) (conditions u) (asserts u) (slice u)
    (dependencies u) (requires_mounts_for u) (settings u) (job u)
    (cgroup_path u) (ref_uid u) (bus_track_add u) (in_dbus_queue u)
    (sent_dbus_new_signal u).

Definition set_allow_isolate (v : bool) (u : Unit) : Unit :=
  mkUnit (id u) (type u) (load_state u) (transient u) (description u)
    (documentation u) (source_path u) (stop_when_unneeded u)
    (refuse_manual_start u) (refuse_manual_stop u) v
    (default_dependencies u) (ignore_on_isolate u) (on_failure_job_mode u)
    (job_timeout u) (job_running_timeout u) (job_running_timeout_set u)
    (job_timeout_action u) (job_timeout_reboot_arg u) (start_limit u)
    (start_limit_action u) (failure_action u) (success_action u)
    (reboot_arg u) (collect_mode u) (conditions u) (asserts u) (slice u)
    (dependencies u) (requires_mounts_for u) (settings u) (job u)
    (cgroup_path u) (ref_uid u) (bus_track_add u) (in_dbus_queue u)
    (sent_dbus_new_signal u).

Definition set_default_dependencies (v : bool) (u : Unit) : Unit :=
  mkUnit (id u) (type u) (load_state u) (transient u) (description u)
    (documentation u) (source_path u) (stop_when_unneeded u)
    (refuse_manual_start u) (refuse_manual_stop u) (allow_isolate u) v
    (ignore_on_isolate u) (on_failure_job_mode u) (job_timeout u)
    (job_running_timeout u) (job_running_timeout_set u)
    (job_timeout_action u) (job_timeout_reboot_arg u) (start_limit u)
    (start_limit_action u) (failure_action u) (success_action u)
    (reboot_arg u) (collect_mode u) (conditions u) (asserts u) (slice u)
    (dependencies u) (requires_mounts_for u) (settings u) (job u)
    (cgroup_path u) (ref_uid u) (bus_track_add u) (in_dbus_queue u)
    (sent_dbus_new_signal u).

Definition set_ignore_on_isolate (v : bool) (u : Unit) : Unit :=
  mkUnit (id u) (type u) (load_state u) (transient u) (description u)
    (documentation u) (source_path u) (stop_when_unneeded u)
    (refuse_manual_start u) (refuse_manual_stop u) (allow_isolate u)
    (default_dependencies u) v (on_failure_job_mode u) (job_timeout u)
    (job_running_timeout u) (job_running_timeout_set u)
    (job_timeout_action u) (job_timeout_reboot_arg u) (start_limit u)
    (start_limit_action u) (failure_action u) (success_action u)
    (reboot_arg u) (collect_mode u) (conditions u) (asserts u) (slice u)
    (dependencies u) (requires_mounts_for u) (settings u) (job u)
    (cgroup_path u) (ref_uid u) (bus_track_add u) (in_dbus_queue u)
    (sent_dbus_new_signal u).

Definition set_on_failure_job_mode (v : Z) (u : Unit) : Unit :=
  mkUnit (id u) (type u) (load_state u) (transient u) (description u)
    (documentation u) (source_path u) (stop_when_unneeded u)
    (refuse_manual_start u) (refuse_manual_stop u) (allow_isolate u)
    (default_dependencies u) (ignore_on_isolate u) v (job_timeout u)
    (job_running_timeout u) (job_running_timeout_set u)
    (job_timeout_action u) (job_timeout_reboot_arg u) (start_limit u)
    (start_limit_action u) (failure_action u) (success_action u)
    (reboot_arg u) (collect_mode u) (conditions u) (asserts u) (slice u)
    (dependencies u) (requires_mounts_for u) (settings u) (job u)
    (cgroup_path u) (ref_uid u) (bus_track_add u) (in_dbus_queue u)
    (sent_dbus_new_signal u).

Definition set_job_timeout (v : Z) (u : Unit) : Unit :=
  mkUnit (id u) (type u) (load_state u) (transient u) (description u)
    (documentation u) (source_path u) (stop_when_unneeded u)
    (refuse_manual_start u) (refuse_manual_stop u) (allow_isolate u)
    (default_dependencies u) (ignore_on_isolate u) (on_failure_job_mode u) v
    (job_running_timeout u) (job_running_timeout_set u)
    (job_timeout_action u) (job_timeout_reboot_arg u) (start_limit u)
    (start_limit_action u) (failure_action u) (success_action u)
    (reboot_arg u) (collect_mode u) (conditions u) (asserts u) (slice u)
    (dependencies u) (requires_mounts_for u) (settings u) (job u)
    (cgroup_path u) (ref_uid u) (bus_track_add u) (in_dbus_queue u)
    (sent_dbus_new_signal u).

Definition set_job_running_timeout (v : Z) (u : Unit) : Unit :=
  mkUnit (id u) (type u) (load_state u) (transient u) (description u)
    (documentation u) (source_path u) (stop_when_unneeded u)
    (refuse_manual_start u) (refuse_manual_stop u) (allow_isolate u)
    (default_dependencies u) (ignore_on_isolate u) (on_failure_job_mode u)
    (job_timeout u) v (job_running_timeout_set u) (job_timeout_action u)
    (job_timeout_reboot_arg u) (start_limit u) (start_limit_action u)
    (failure_action u) (success_action u) (reboot_arg u) (collect_mode u)
    (conditions u) (asserts u) (slice u) (dependencies u)
    (requires_mounts_for u) (settings u) (job u) (cgroup_path u) (ref_uid u)
    (bus_track_add u) (in_dbus_queue u) (sent_dbus_new_signal u).

Definition set_job_running_timeout_set (v : bool) (u : Unit) : Unit :=
  mkUnit (id u) (type u) (load_state u) (transient u) (description u)
    (documentation u) (source_path u) (stop_when_unneeded u)
    (refuse_manual_start u) (refuse_manual_stop u) (allow_isolate u)
    (default_dependencies u) (ignore_on_isolate u) (on_failure_job_mode u)
    (job_timeout u) (job_running_timeout u) v (job_timeout_action u)
    (job_timeout_reboot_arg u) (start_limit u) (start_limit_action u)
    (failure_action u) (success_action u) (reboot_arg u) (collect_mode u)
    (conditions u) (asserts u) (slice u) (dependencies u)
    (requires_mounts_for u) (settings u) (job u) (cgroup_path u) (ref_uid u)
    (bus_track_add u) (in_dbus_queue u) (sent_dbus_new_signal u).

Definition set_job_timeout_action (v : Z) (u : Unit) : Unit :=
  mkUnit (id u) (type u) (load_state u) (transient u) (description u)
    (documentation u) (source_path u) (stop_when_unneeded u)
    (refuse_manual_start u) (refuse_manual_stop u) (allow_isolate u)
    (default_dependencies u) (ignore_on_isolate u) (on_failure_job_mode u)
    (job_timeout u) (job_running_timeout u) (job_running_timeout_set u) v
    (job_timeout_reboot_arg u) (start_limit u) (start_limit_action u)
    (failure_action u) (success_action u) (reboot_arg u) (collect_mode u)
    (conditions u) (asserts u) (slice u) (dependencies u)
    (requires_mounts_for u) (settings u) (job u) (cgroup_path u) (ref_uid u)
    (bus_track_add u) (in_dbus_queue u) (sent_dbus_new_signal u).

Definition set_job_timeout_reboot_arg (v : option string) (u : Unit) : Unit :=
  mkUnit (id u) (type u) (load_state u) (transient u) (description u)
    (documentation u) (source_path u) (stop_when_unneeded u)
    (refuse_manual_start u) (refuse_manual_stop u) (allow_isolate u)
    (default_dependencies u) (ignore_on_isolate u) (on_failure_job_mode u)
    (job_timeout u) (job_running_timeout u) (job_running_timeout_set u)
    (job_timeout_action u) v (start_limit u) (start_limit_action u)
    (failure_action u) (success_action u) (reboot_arg u) (collect_mode u)
    (conditions u) (asserts u) (slice u) (dependencies u)
    (requires_mounts_for u) (settings u) (job u) (cgroup_path u) (ref_uid u)
    (bus_track_add u) (in_dbus_queue u) (sent_dbus_new_signal u).

Definition set_start_limit (v : RateLimit) (u : Unit) : Unit :=
  mkUnit (id u) (type u) (load_state u) (transient u) (description u)
    (documentation u) (source_path u) (stop_when_unneeded u)
    (refuse_manual_start u) (refuse_manual_stop u) (allow_isolate u)
    (default_dependencies u) (ignore_on_isolate u) (on_failure_job_mode u)
    (job_timeout u) (job_running_timeout u) (job_running_timeout_set u)
    (job_timeout_action u) (job_timeout_reboot_arg u) v
    (start_limit_action u) (failure_action u) (success_action u)
    (reboot_arg u) (collect_mode u) (conditions u) (asserts u) (slice u)
    (dependencies u) (requires_mounts_for u) (settings u) (job u)
    (cgroup_path u) (ref_uid u) (bus_track_add u) (in_dbus_queue u)
    (sent_dbus_new_signal u).

Definition set_start_limit_action (v : Z) (u : Unit) : Unit :=
  mkUnit (id u) (type u) (load_state u) (transient u) (description u)
    (documentation u) (source_path u) (stop_when_unneeded u)
    (refuse_manual_start u) (refuse_manual_stop u) (allow_isolate u)
    (default_dependencies u) (ignore_on_isolate u) (on_failure_job_mode u)
    (job_timeout u) (job_running_timeout u) (job_running_timeout_set u)
    (job_timeout_action u) (job_timeout_reboot_arg u) (start_limit u) v
    (failure_action u) (success_action u) (reboot_arg u) (collect_mode u)
    (conditions u) (asserts u) (slice u) (dependencies u)
    (requires_mounts_for u) (settings u) (job u) (cgroup_path u) (ref_uid u)
    (bus_track_add u) (in_dbus_queue u) (sent_dbus_new_signal u).

Definition set_failure_action (v : Z) (u : Unit) : Unit :=
  mkUnit (id u) (type u) (load_state u) (transient u) (description u)
    (documentation u) (source_path u) (stop_when_unneeded u)
    (refuse_manual_start u) (refuse_manual_stop u) (allow_isolate u)
    (default_dependencies u) (ignore_on_isolate u) (on_failure_job_mode u)
    (job_timeout u) (job_running_timeout u) (job_running_timeout_set u)
    (job_timeout_action u) (job_timeout_reboot_arg u) (start_limit u)
    (start_limit_action u) v (success_action u) (reboot_arg u)
    (collect_mode u) (conditions u) (asserts u) (slice u) (dependencies u)
    (requires_mounts_for u) (settings u) (job u) (cgroup_path u) (ref_uid u)
    (bus_track_add u) (in_dbus_queue u) (sent_dbus_new_signal u).

Definition set_success_action (v : Z) (u : Unit) : Unit :=
  mkUnit (id u) (type u) (load_state u) (transient u) (description u)
    (documentation u) (source_path u) (stop_when_unneeded u)
    (refuse_manual_start u) (refuse_manual_stop u) (allow_isolate u)
    (default_dependencies u) (ignore_on_isolate u) (on_failure_job_mode u)
    (job_timeout u) (job_running_timeout u) (job_running_timeout_set u)
    (job_timeout_action u) (job_timeout_reboot_arg u) (start_limit u)
    (start_limit_action u) (failure_action u) v (reboot_arg u)
    (collect_mode u) (conditions u) (asserts u) (slice u) (dependencies u)
    (requires_mounts_for u) (settings u) (job u) (cgroup_path u) (ref_uid u)
    (bus_track_add u) (in_dbus_queue u) (sent_dbus_new_signal u).

Definition set_reboot_arg (v : option string) (u : Unit) : Unit :=
  mkUnit (id u) (type u) (load_state u) (transient u) (description u)
    (documentation u) (source_path u) (stop_when_unneeded u)
    (refuse_manual_start u) (refuse_manual_stop u) (allow_isolate u)
    (default_dependencies u) (ignore_on_isolate u) (on_failure_job_mode u)
    (job_timeout u) (job_running_timeout u) (job_running_timeout_set u)
    (job_timeout_action u) (job_timeout_reboot_arg u) (start_limit u)
    (start_limit_action u) (failure_action u) (success_action u) v
    (collect_mode u) (conditions u) (asserts u) (slice u) (dependencies u)
    (requires_mounts_for u) (settings u) (job u) (cgroup_path u) (ref_uid u)
    (bus_track_add u) (in_dbus_queue u) (sent_dbus_new_signal u).

Definition set_collect_mode (v : Z) (u : Unit) : Unit :=
  mkUnit (id u) (type u) (load_state u) (transient u) (description u)
    (documentation u) (source_path u) (stop_when_unneeded u)
    (refuse_manual_start u) (refuse_manual_stop u) (allow_isolate u)
    (default_dependencies u) (ignore_on_isolate u) (on_failure_job_mode u)
    (job_timeout u) (job_running_timeout u) (job_running_timeout_set u)
    (job_timeout_action u) (job_timeout_reboot_arg u) (start_limit u)
    (start_limit_action u) (failure_action u) (success_action u)
    (reboot_arg u) v (conditions u) (asserts u) (slice u) (dependencies u)
    (requires_mounts_for u) (settings u) (job u) (cgroup_path u) (ref_uid u)
    (bus_track_add u) (in_dbus_queue u) (sent_dbus_new_signal u).

Definition set_conditions (v : list Condition) (u : Unit) : Unit :=
  mkUnit (id u) (type u) (load_state u) (transient u) (description u)
    (documentation u) (source_path u) (stop_when_unneeded u)
    (refuse_manual_start u) (refuse_manual_stop u) (allow_isolate u)
    (default_dependencies u) (ignore_on_isolate u) (on_failure_job_mode u)
    (job_timeout u) (job_running_timeout u) (job_running_timeout_set u)
    (job_timeout_action u) (job_timeout_reboot_arg u) (start_limit u)
    (start_limit_action u) (failure_action u) (success_action u)
    (reboot_arg u) (collect_mode u) v (asserts u) (slice u) (dependencies u)
    (requires_mounts_for u) (settings u) (job u) (cgroup_path u) (ref_uid u)
    (bus_track_add u) (in_dbus_queue u) (sent_dbus_new_signal u).

Definition set_asserts (v : list Condition) (u : Unit) : Unit :=
  mkUnit (id u) (type u) (load_state u) (transient u) (description u)
    (documentation u) (source_path u) (stop_when_unneeded u)
    (refuse_manual_start u) (refuse_manual_stop u) (allow_isolate u)
    (default_dependencies u) (ignore_on_isolate u) (on_failure_job_mode u)
    (job_timeout u) (job_running_timeout u) (job_running_timeout_set u)
    (job_timeout_action u) (job_timeout_reboot_arg u) (start_limit u)
    (start_limit_action u) (failure_action u) (success_action u)
    (reboot_arg u) (collect_mode u) (conditions u) v (slice u)
    (dependencies u) (requires_mounts_for u) (settings u) (job u)
    (cgroup_path u) (ref_uid u) (bus_track_add u) (in_dbus_queue u)
    (sent_dbus_new_signal u).

Definition set_slice (v : option string) (u : Unit) : Unit :=
  mkUnit (id u) (type u) (load_state u) (transient u) (description u)
    (documentation u) (source_path u) (stop_when_unneeded u)
    (refuse_manual_start u) (refuse_manual_stop u) (allow_isolate u)
    (default_dependencies u) (ignore_on_isolate u) (on_failure_job_mode u)
    (job_timeout u) (job_running_timeout u) (job_running_timeout_set u)
    (job_timeout_action u) (job_timeout_reboot_arg u) (start_limit u)
    (start_limit_action u) (failure_action u) (success_action u)
    (reboot_arg u) (collect_mode u) (conditions u) (asserts u) v
    (dependencies u) (requires_mounts_for u) (settings u) (job u)
    (cgroup_path u) (ref_uid u) (bus_track_add u) (in_dbus_queue u)
    (sent_dbus_new_signal u).

Definition set_dependencies (v : list (Z * string)) (u : Unit) : Unit :=
  mkUnit (id u) (type u) (load_state u) (transient u) (description u)
    (documentation u) (source_path u) (stop_when_unneeded u)
    (refuse_manual_start u) (refuse_manual_stop u) (allow_isolate u)
    (default_dependencies u) (ignore_on_isolate u) (on_failure_job_mode u)
    (job_timeout u) (job_running_timeout u) (job_running_timeout_set u)
    (job_timeout_action u) (job_timeout_reboot_arg u) (start_limit u)
    (start_limit_action u) (failure_action u) (success_action u)
    (reboot_arg u) (collect_mode u) (conditions u) (asserts u) (slice u) v
    (requires_mounts_for u) (settings u) (job u) (cgroup_path u) (ref_uid u)
    (bus_track_add u) (in_dbus_queue u) (sent_dbus_new_signal u).

Definition set_requires_mounts_for (v : list string) (u : Unit) : Unit :=
  mkUnit (id u) (type u) (load_state u) (transient u) (description u)
    (documentation u) (source_path u) (stop_when_unneeded u)
    (refuse_manual_start u) (refuse_manual_stop u) (allow_isolate u)
    (default_dependencies u) (ignore_on_isolate u) (on_failure_job_mode u)
    (job_timeout u) (job_running_timeout u) (job_running_timeout_set u)
    (job_timeout_action u) (job_timeout_reboot_arg u) (start_limit u)
    (start_limit_action u) (failure_action u) (success_action u)
    (reboot_arg u) (collect_mode u) (conditions u) (asserts u) (slice u)
    (dependencies u) v (settings u) (job u) (cgroup_path u) (ref_uid u)
    (bus_track_add u) (in_dbus_queue u) (sent_dbus_new_signal u).

Definition set_settings (v : list Setting) (u : Unit) : Unit :=
  mkUnit (id u) (type u) (load_state u) (transient u) (description u)
    (documentation u) (source_path u) (stop_when_unneeded u)
    (refuse_manual_start u) (refuse_manual_stop u) (allow_isolate u)
    (default_dependencies u) (ignore_on_isolate u) (on_failure_job_mode u)
    (job_timeout u) (job_running_timeout u) (job_running_timeout_set u)
    (job_timeout_action u) (job_timeout_reboot_arg u) (start_limit u)
    (start_limit_action u) (failure_action u) (success_action u)
    (reboot_arg u) (collect_mode u) (conditions u) (asserts u) (slice u)
    (dependencies u) (requires_mounts_for u) v (job u) (cgroup_path u)
    (ref_uid u) (bus_track_add u) (in_dbus_queue u)
    (sent_dbus_new_signal u).

Definition set_job (v : option Job) (u : Unit) : Unit :=
  mkUnit (id u) (type u) (load_state u) (transient u) (description u)
    (documentation u) (source_path u) (stop_when_unneeded u)
    (refuse_manual_start u) (refuse_manual_stop u) (allow_isolate u)
    (default_dependencies u) (ignore_on_isolate u) (on_failure_job_mode u)
    (job_timeout u) (job_running_timeout u) (job_running_timeout_set u)
    (job_timeout_action u) (job_timeout_reboot_arg u) (start_limit u)
    (start_limit_action u) (failure_action u) (success_action u)
    (reboot_arg u) (collect_mode u) (conditions u) (asserts u) (slice u)
    (dependencies u) (requires_mounts_for u) (settings u) v (cgroup_path u)
    (ref_uid u) (bus_track_add u) (in_dbus_queue u)
    (sent_dbus_new_signal u).

Definition set_cgroup_path (v : option string) (u : Unit) : Unit :=
  mkUnit (id u) (type u) (load_state u) (transient u) (description u)
    (documentation u) (source_path u) (stop_when_unneeded u)
    (refuse_manual_start u) (refuse_manual_stop u) (allow_isolate u)
    (default_dependencies u) (ignore_on_isolate u) (on_failure_job_mode u)
    (job_timeout u) (job_running_timeout u) (job_running_timeout_set u)
    (job_timeout_action u) (job_timeout_reboot_arg u) (start_limit u)
    (start_limit_action u) (failure_action u) (success_action u)
    (reboot_arg u) (collect_mode u) (conditions u) (asserts u) (slice u)
    (dependencies u) (requires_mounts_for u) (settings u) (job u) v
    (ref_uid u) (bus_track_add u) (in_dbus_queue u)
    (sent_dbus_new_signal u).

Definition set_bus_track_add (v : bool) (u : Unit) : Unit :=
  mkUnit (id u) (type u) (load_state u) (transient u) (description u)
    (documentation u) (source_path u) (stop_when_unneeded u)
    (refuse_manual_start u) (refuse_manual_stop u) (allow_isolate u)
    (default_dependencies u) (ignore_on_isolate u) (on_failure_job_mode u)
    (job_timeout u) (job_running_timeout u) (job_running_timeout_set u)
    (job_timeout_action u) (job_timeout_reboot_arg u) (start_limit u)
    (start_limit_action u) (failure_action u) (success_action u)
    (reboot_arg u) (collect_mode u) (conditions u) (asserts u) (slice u)
    (dependencies u) (requires_mounts_for u) (settings u) (job u)
    (cgroup_path u) (ref_uid u) v (in_dbus_queue u)
    (sent_dbus_new_signal u).

Definition set_in_dbus_queue (v : bool) (u : Unit) : Unit :=
  mkUnit (id u) (type u) (load_state u) (transient u) (description u)
    (documentation u) (source_path u) (stop_when_unneeded u)
    (refuse_manual_start u) (refuse_manual_stop u) (allow_isolate u)
    (default_dependencies u) (ignore_on_isolate u) (on_failure_job_mode u)
    (job_timeout u) (job_running_timeout u) (job_running_timeout_set u)
    (job_timeout_action u) (job_timeout_reboot_arg u) (start_limit u)
    (start_limit_action u) (failure_action u) (success_action u)
    (reboot_arg u) (collect_mode u) (conditions u) (asserts u) (slice u)
    (dependencies u) (requires_mounts_for u) (settings u) (job u)
    (cgroup_path u) (ref_uid u) (bus_track_add u) v
    (sent_dbus_new_signal u).

Definition set_sent_dbus_new_signal (v : bool) (u : Unit) : Unit :=
  mkUnit (id u) (type u) (load_state u) (transient u) (description u)
    (documentation u) (source_path u) (stop_when_unneeded u)
    (refuse_manual_start u) (refuse_manual_stop u) (allow_isolate u)
    (default_dependencies u) (ignore_on_isolate u) (on_failure_job_mode u)
    (job_timeout u) (job_running_timeout u) (job_running_timeout_set u)
    (job_timeout_action u) (job_timeout_reboot_arg u) (start_limit u)
    (start_limit_action u) (failure_action u) (success_action u)
    (reboot_arg u) (collect_mode u) (conditions u) (asserts u) (slice u)
    (dependencies u) (requires_mounts_for u) (settings u) (job u)
    (cgroup_path u) (ref_uid u) (bus_track_add u) (in_dbus_queue u) v.

(** ** The manager, and the world a call runs in *)

Definition unit_ref : Type := positive.

(** What this file touches of the manager: the queue of units with a
    pending change signal, and the tables the scheduler and the loader
    (both collaborators) keep. *)
Record Manager : Type := mkManager {
  dbus_unit_queue : list unit_ref;
  loaded_units : list (string * UnitType);
  queued_jobs : list Job
}.

Definition set_dbus_unit_queue (q : list unit_ref) (m : Manager) : Manager :=
  mkManager q (loaded_units m) (queued_jobs m).

(** The function pointer handed to [bus_foreach_bus]. *)
Inductive sender : Type :=
| send_new_signal
| send_changed_signal
| send_removed_signal.

Inductive bus_signal : Type :=
| Signal (path interface member : string) (body : list bus_value)
| PropertiesChanged (path interface : string).

(** One call of [bus_foreach_bus]: which sender was broadcast, and what the
    sender put on a bus (or the failure it returned). *)
Record broadcast : Type := mkBroadcast {
  bc_sender : sender;
  bc_outcome : result (list bus_signal)
}.

(** One call of [unit_attach_pids_to_cgroup]: the PID set (NULL until the
    first PID was accepted) and the sub-path. *)
Record migration : Type := mkMigration {
  mig_pids : option (gset Z);
  mig_path : option string
}.

Record World : Type := mkWorld {
  self : unit_ref;
  unit_of : Unit;
  manager : Manager;
  bus : list broadcast;
  attached : list migration
}.

Definition with_unit (u : Unit) (w : World) : World :=
  mkWorld (self w) u (manager w) (bus w) (attached w).
Definition with_manager (m : Manager) (w : World) : World :=
  mkWorld (self w) (unit_of w) m (bus w) (attached w).
Definition with_bus (b : list broadcast) (w : World) : World :=
  mkWorld (self w) (unit_of w) (manager w) b (attached w).
Definition with_attached (a : list migration) (w : World) : World :=
  mkWorld (self w) (unit_of w) (manager w) (bus w) a.

(** A call that works on [u->manager] only. *)
Definition in_manager {A} (c : M Manager A) : M World A :=
  fun w => let '(r, m) := c (manager w) in (r, with_manager m w).

Definition get_unit : M World Unit := fun w => (inr (unit_of w), w).
Definition update_unit (f : Unit -> Unit) : M World unit :=
  modify (fun w => with_unit (f (unit_of w)) w).

(** ** Collaborators

    Everything the file calls but does not define: the unit state machine,
    the scheduler, the resource controller, the security hooks, the name
    and path grammars, the enum tables, and the bit values of
    [UnitWriteFlags] and [UnitNameFlags]. *)
Class Collaborators : Type := {
  (* unit.h *)
  UNIT_RUNTIME : Z;
  UNIT_PERSISTENT : Z;
  UNIT_ESCAPE_SPECIFIERS : Z;
  UNIT_PRIVATE : Z;
  UNIT_DEPENDENCY_FILE : Z;
  unit_active_state : Unit -> UnitActiveState;
  unit_can_reload : Unit -> bool;
  unit_cgroup_delegate : Unit -> bool;
  unit_main_pid : Unit -> Z;
  unit_control_pid : Unit -> Z;
  unit_dbus_path : Unit -> option string;
  unit_dbus_interface_from_type : UnitType -> string;
  unit_has_name : Unit -> string -> bool;
  UNIT_HAS_CGROUP_CONTEXT : Unit -> bool;
  unit_pid_attachable : Unit -> Z -> result unit;
  unit_attach_pids_to_cgroup : Unit -> option (gset Z) -> option string -> Z;
  unit_set_description : option string -> M World unit;
  unit_set_slice : string -> M World unit;
  unit_require_mounts_for : string -> Z -> M World unit;
  unit_add_dependency_by_name : Z -> string -> Z -> M World unit;
  (* the per-type vtable, UNIT_VTABLE(u) *)
  vtable_bus_set_property :
    UnitType -> option (string -> bus_value -> Z -> M World Z);
  vtable_bus_commit_properties : UnitType -> option (M World unit);
  (* unit-name.h, special.h *)
  UNIT_NAME_PLAIN : Z;
  UNIT_NAME_INSTANCE : Z;
  unit_name_is_valid : string -> Z -> bool;
  SPECIAL_INIT_SCOPE : string;
  UNIT_REQUIRES : Z;
  UNIT_REQUISITE : Z;
  unit_dependency_from_string : string -> Z;
  unit_dependency_to_string : Z -> string;
  (* job.h, manager.h, dbus-job.h *)
  job_type_to_access_method : JobType -> string;
  job_type_collapse : JobType -> Unit -> JobType;
  job_dbus_path : Job -> option string;
  job_mode_from_string : string -> Z;
  manager_add_job : JobType -> Z -> M World Job;
  bus_job_track_sender : Job -> M World unit;
  manager_load_unit_prepare : string -> M Manager UnitType;
  (* condition.h *)
  CONDITION_NULL : Z;
  condition_type_from_string : string -> Z;
  assert_type_from_string : string -> Z;
  condition_type_to_string : Z -> option string;
  assert_type_to_string : Z -> option string;
  condition_takes_path : Z -> bool;
  (* emergency-action.h, unit.h *)
  emergency_action_from_string : string -> Z;
  collect_mode_from_string : string -> Z;
  (* path-util.h, web-util.h *)
  path_is_absolute : string -> bool;
  path_is_normalized : string -> bool;
  documentation_url_is_valid : string -> bool;
  (* selinux-access.h *)
  mac_selinux_unit_access_check : Unit -> string -> result unit;
  (* process-util.h, cgroup-util.h, unistd.h *)
  is_kernel_thread : Z -> Z;
  cg_pid_get_path : Z -> result string;
  get_process_cmdline : Z -> option string;
  get_process_uid : Z -> result Z;
  getuid : Z;
  (* set.h: [set_new] gives a set or NULL ([false]); [set_put_new pid] is
     the return value of [set_put] for a PID the set does not hold, 1 or
     a negative errno *)
  set_new : bool;
  set_put_new : Z -> Z;
  (* sd-bus.h: the return values of the calls that build and send a
     reply and that enter and leave the PID array of a request *)
  sd_bus_message_new_method_return : Z;
  sd_bus_message_open_container : Z;
  sd_bus_message_close_container : Z;
  sd_bus_message_enter_container : Z;
  sd_bus_message_exit_container : Z;
  sd_bus_send : sd_bus_message -> Z;
  sd_bus_reply_method_return : Z;
  (* dbus-util.h: the time span [bus_set_transient_usec_fix_0] stores for
     the one it read *)
  usec_fix_0 : Z -> Z
}.

Section Definitions.
Context `{Collaborators}.

(** Modelled from the spec: [UNIT_WRITE_FLAGS_NOOP] (unit.h, not part of
    the excerpt): neither target flag is set, so the handler validates and
    performs "no mutation". *)
Definition UNIT_WRITE_FLAGS_NOOP (flags : Z) : bool :=
  Z.land flags (Z.lor UNIT_RUNTIME UNIT_PERSISTENT) =? 0.

(** Modelled from the spec: [unit_write_settingf] (unit.c, not part of the
    excerpt): "separately records a human-readable setting line"; nothing
    is recorded under no-op flags. *)
Definition unit_write_settingf (flags : Z) (name : string) (format : string)
    (args : list setting_arg) : M World unit :=
  if UNIT_WRITE_FLAGS_NOOP flags then ret tt
  else update_unit (fun u =>
         set_settings (settings u ++ [mkSetting flags name format args]) u).

(** ** Property getters *)

(** [property_get_job], lines 332-356. *)
Definition property_get_job (u : Unit) (reply : sd_bus_message)
  : result sd_bus_message :=
  match job u with
  | None =>
      sd_bus_message_append reply [BusStruct [BusUInt32 0; BusObjectPath "/"]]
  | Some j =>
      match job_dbus_path j with
      | None => inl (Errno (- ENOMEM))
      | Some p =>
          sd_bus_message_append reply
            [BusStruct [BusUInt32 (job_id j); BusObjectPath p]]
      end
  end.

(** [property_get_conditions], lines 376-416: the list is walked from its
    head. *)
Definition condition_tuple (to_string : Z -> option string) (c : Condition)
  : bus_value :=
  let tristate :=
    match cond_result c with
    | CONDITION_UNTESTED => 0
    | CONDITION_SUCCEEDED => 1
    | _ => -1
    end in
  BusStruct [BusString (strempty (to_string (cond_type c)));
             BusBool (cond_trigger c); BusBool (cond_negate c);
             BusString (strempty (cond_parameter c)); BusInt32 tristate].

Definition property_get_conditions (property : string) (lst : list Condition)
    (reply : sd_bus_message) : result sd_bus_message :=
  let to_string :=
    if bool_decide (property = "Asserts") then assert_type_to_string
    else condition_type_to_string in
  sd_bus_message_append reply
    [BusArray "(sbbsi)" (map (condition_tuple to_string) lst)].

(** [property_get_cgroup], lines 911-937. *)
Definition property_get_cgroup (u : Unit) (reply : sd_bus_message)
  : result sd_bus_message :=
  let t :=
    match cgroup_path u with
    | Some p => Some (empty_to_root p)
    | None => None
    end in
  sd_bus_message_append reply [BusString (strempty t)].

(** ** Cgroup process walker *)

(** What the resource controller answers for one group while the walk
    visits it: the return value of [cg_enumerate_processes] (0 or a
    negative errno), the PIDs [cg_read_pid] then yields and its final
    return value (0 at the end of the file, or a negative errno); the same
    three for [cg_enumerate_subgroups] and [cg_read_subgroup], each
    subgroup with the answers for that subgroup. A group removed between
    being listed and being visited answers [- ENOENT]. *)
#[warnings="-register-all"]
Inductive cgroup : Type :=
| Cgroup (procs_r : Z) (procs : list Z) (procs_end : Z)
         (subs_r : Z) (subs : list (string * cgroup)) (subs_end : Z).

(** The reply array under construction and the [Set *pids]. *)
Record walk : Type := mkWalk {
  reply_elems : list bus_value;
  seen : gset Z
}.

(** [set_put] on a set of PIDs: 1 when the PID was added, 0 when it was
    already there. *)
Definition set_put (pid : Z) : M walk Z :=
  fun s =>
    if bool_decide (pid ∈ seen s) then (inr 0, s)
    else (inr 1, mkWalk (reply_elems s) ({[pid]} ∪ seen s)).

Definition uint32_of (x : Z) : Z := x mod 2 ^ 32.

(** [append_process], lines 939-969. *)
Definition append_process (p : option string) (pid : Z) : M walk Z :=
  if negb (pid >? 0) then fail (AssertionFailed "pid > 0")
  else
    let* r := set_put pid in
    if (r =? 0) || (r =? - EEXIST) then ret 0
    else if r <? 0 then fail (Errno r)
    else
      let emit (p : string) : M walk Z :=
        (* a failure of get_process_cmdline is ignored *)
        let cmdline := get_process_cmdline pid in
        fun s =>
          (inr 0,
           mkWalk (reply_elems s ++
                     [BusStruct [BusString p; BusUInt32 (uint32_of pid);
                                 BusString (strempty cmdline)]])
                  (seen s)) in
      match p with
      | Some p => emit p
      | None =>
          match cg_pid_get_path pid with
          | inr buf => emit buf
          | inl (Errno r) =>
              if r =? - ESRCH then ret 0 else fail (Errno r)
          | inl e => fail e
          end
      end.

(** The first [for (;;)] of [append_cgroup]: one round per [cg_read_pid]. *)
Fixpoint append_cgroup_pids (p : string) (procs : list Z) (procs_end : Z)
  : M walk Z :=
  match procs with
  | [] => if procs_end <? 0 then fail (Errno procs_end) else ret 0
  | pid :: rest =>
      if is_kernel_thread pid >? 0 then append_cgroup_pids p rest procs_end
      else
        append_process (Some p) pid;;
        append_cgroup_pids p rest procs_end
  end.

(** [append_cgroup], lines 971-1027. *)
Fixpoint append_cgroup (g : cgroup) (p : string) {struct g} : M walk Z :=
  match g with
  | Cgroup procs_r procs procs_end subs_r subs subs_end =>
      if procs_r =? ENOENT then ret 0
      else if procs_r <? 0 then fail (Errno procs_r)
      else
        append_cgroup_pids p procs procs_end;;
        if subs_r =? - ENOENT then ret 0
        else if subs_r <? 0 then fail (Errno subs_r)
        else
          (fix subgroups (l : list (string * cgroup)) : M walk Z :=
             match l with
             | [] => if subs_end <? 0 then fail (Errno subs_end) else ret 0
             | (name, child) :: rest =>
                 let j := p +:+ "/" +:+ name in
                 append_cgroup child j;;
                 subgroups rest
             end) subs
  end.

(** [bus_unit_method_get_processes], lines 1029-1080. [tree] is what the
    resource controller answers below [u->cgroup_path]; the value is the
    reply handed to [sd_bus_send]. *)
Definition bus_unit_method_get_processes (u : Unit) (tree : cgroup)
  : M walk sd_bus_message :=
  lift (mac_selinux_unit_access_check u "status");;
  (if set_new then ret tt else fail (Errno (- ENOMEM)));;
  checked sd_bus_message_new_method_return;;
  checked sd_bus_message_open_container;;
  match cgroup_path u with
  | Some p => append_cgroup tree p
  | None => ret 0
  end;;
  (* The main and control pids might live outside of the cgroup *)
  (let pid := unit_main_pid u in
   if pid >? 0 then append_process None pid else ret 0);;
  (let pid := unit_control_pid u in
   if pid >? 0 then append_process None pid else ret 0);;
  checked sd_bus_message_close_container;;
  let* s := get in
  let reply := [BusArray "(sus)" (reply_elems s)] in
  checked (sd_bus_send reply);;
  ret reply.

Definition empty_walk : walk := mkWalk [] ∅.

(** The PIDs a reply of [GetProcesses] reports, in order. *)
Definition reported_pid (v : bus_value) : option Z :=
  match v with
  | BusStruct [BusString _; BusUInt32 pid; BusString _] => Some pid
  | _ => None
  end.

Definition reported_pids (reply : sd_bus_message) : list (option Z) :=
  match reply with
  | [BusArray _ elems] => map reported_pid elems
  | _ => []
  end.

(** ** Attaching processes *)

(** The sender's credentials as [sd_bus_query_sender_creds] returns them;
    each field may be missing. *)
Record sd_bus_creds : Type := mkCreds {
  creds_pid : result Z;
  creds_euid : result Z
}.

(** A [uint32_t] stored into a signed 32-bit integer, as in
    [pid = (uid_t) upid] and in [return n] with [unsigned n]. *)
Definition int32_of_uint32 (x : Z) : Z :=
  let x := x mod 2 ^ 32 in
  if x <? 2 ^ 31 then x else x - 2 ^ 32.

Definition set_contains (pids : option (gset Z)) (pid : Z) : bool :=
  match pids with
  | None => false
  | Some s => bool_decide (pid ∈ s)
  end.

(** The [for (;;)] of [bus_unit_method_attach_processes], lines 1160-1214:
    one round per PID of the array; the state is the local [Set *pids]. *)
Fixpoint attach_processes_loop (u : Unit) (creds : sd_bus_creds)
    (upids : list Z) : M (option (gset Z)) unit :=
  match upids with
  | [] => ret tt
  | upid :: rest =>
      let* pid :=
        (if upid =? 0 then lift (creds_pid creds)
         else ret (int32_of_uint32 upid)) in
      let* pids := get in
      (* Filter out duplicates *)
      if set_contains pids pid then attach_processes_loop u creds rest
      else
        (* Check if this process is suitable for attaching to this unit *)
        lift (unit_pid_attachable u pid);;
        let* sender_uid := lift (creds_euid creds) in
        (if negb (sender_uid =? 0) && negb (sender_uid =? getuid) then
           match get_process_uid pid with
           | inl (Errno r) =>
               fail (BusErrnoError r "Failed to retrieve process UID: %m")
           | inl e => fail e
           | inr process_uid =>
               if negb (process_uid =? sender_uid) then
                 fail (BusError SD_BUS_ERROR_ACCESS_DENIED
                         "Process %i not owned by client's UID. Refusing."
                         [ArgPid pid])
               else if negb (process_uid =? ref_uid u) then
                 fail (BusError SD_BUS_ERROR_ACCESS_DENIED
                         "Process %i not owned by target unit's UID. Refusing."
                         [ArgPid pid])
               else ret tt
           end
         else ret tt);;
        (match pids with
         | None =>
             if set_new then modify (fun _ : option (gset Z) => Some ∅)
             else fail (Errno (- ENOMEM))
         | Some _ => ret tt
         end);;
        checked (set_put_new pid);;
        modify (fun pids : option (gset Z) =>
                  Some ({[pid]} ∪ default ∅ pids));;
        attach_processes_loop u creds rest
  end.

(** [bus_unit_method_attach_processes], lines 1115-1225. The method's
    signature "sau" is enforced before the handler runs, so the sub-path
    and the PIDs arrive typed; [sender] is the answer of
    [sd_bus_query_sender_creds]. *)
Definition bus_unit_method_attach_processes (path : string)
    (upids : list Z) (sender : result sd_bus_creds) : M World unit :=
  let* u := get_unit in
  lift (mac_selinux_unit_access_check u "start");;
  let path := empty_to_null path in
  match path with
  | Some p =>
      if negb (path_is_absolute p) then
        fail (BusError SD_BUS_ERROR_INVALID_ARGS
                "Control group path is not absolute: %s" [ArgString p])
      else if negb (path_is_normalized p) then
        fail (BusError SD_BUS_ERROR_INVALID_ARGS
                "Control group path is not normalized: %s" [ArgString p])
      else ret tt
  | None => ret tt
  end;;
  if negb (unit_cgroup_delegate u) then
    fail (BusError SD_BUS_ERROR_INVALID_ARGS
            "Process migration not available on non-delegated units." [])
  else if UNIT_IS_INACTIVE_OR_FAILED (unit_active_state u) then
    fail (BusError SD_BUS_ERROR_INVALID_ARGS "Unit is not active, refusing." [])
  else
    let* creds := lift sender in
    checked sd_bus_message_enter_container;;
    let* pids :=
      lift (match attach_processes_loop u creds upids None with
            | (inr _, pids) => inr pids
            | (inl e, _) => inl e
            end) in
    checked sd_bus_message_exit_container;;
    let* r :=
      (fun w =>
         (inr (unit_attach_pids_to_cgroup u pids path),
          with_attached (attached w ++ [mkMigration pids path]) w)) in
    if r <? 0 then
      fail (BusErrnoError r "Failed to attach processes to control group: %m")
    else checked sd_bus_reply_method_return.

(** ** Change signal emitter *)

(** [send_new_signal], [send_changed_signal] and [send_removed_signal],
    lines 1243-1299 and 1320-1347: what each puts on one bus. *)
Definition run_sender (send : sender) (u : Unit) : result (list bus_signal) :=
  match unit_dbus_path u with
  | None => inl (Errno (- ENOMEM))
  | Some p =>
      match send with
      | send_new_signal =>
          inr [Signal "/org/freedesktop/systemd1"
                 "org.freedesktop.systemd1.Manager" "UnitNew"
                 [BusString (strempty (id u)); BusObjectPath p]]
      | send_changed_signal =>
          (* First for the specific type, then for the generic unit. *)
          inr [PropertiesChanged p (unit_dbus_interface_from_type (type u));
               PropertiesChanged p "org.freedesktop.systemd1.Unit"]
      | send_removed_signal =>
          inr [Signal "/org/freedesktop/systemd1"
                 "org.freedesktop.systemd1.Manager" "UnitRemoved"
                 [BusString (strempty (id u)); BusObjectPath p]]
      end
  end.

(** Modelled from the spec: [bus_foreach_bus] (dbus.c, not part of the
    excerpt): "broadcast to every currently-connected management bus".
    The world records the broadcast and what the sender produced. *)
Definition bus_foreach_bus (send : sender) : M World unit :=
  fun w =>
    let outcome := run_sender send (unit_of w) in
    (match outcome with inl e => inl e | inr _ => inr tt end,
     with_bus (bus w ++ [mkBroadcast send outcome]) w).

(** [bus_unit_send_change_signal], lines 1301-1318. *)
Definition bus_unit_send_change_signal : M World unit :=
  let* u := get_unit in
  (if in_dbus_queue u then
     modify (fun w =>
       with_manager
         (set_dbus_unit_queue
            (List.remove Pos.eq_dec (self w) (dbus_unit_queue (manager w)))
            (manager w)) w);;
     update_unit (set_in_dbus_queue false)
   else ret tt);;
  let* u := get_unit in
  match id u with
  | None => ret tt
  | Some _ =>
      logged (bus_foreach_bus
                (if sent_dbus_new_signal u then send_changed_signal
                 else send_new_signal));;
      update_unit (set_sent_dbus_new_signal true)
  end.

(** [bus_unit_send_removed_signal], lines 1349-1362. *)
Definition bus_unit_send_removed_signal : M World unit :=
  let* u := get_unit in
  (if negb (sent_dbus_new_signal u) || in_dbus_queue u then
     bus_unit_send_change_signal
   else ret tt);;
  let* u := get_unit in
  match id u with
  | None => ret tt
  | Some _ => logged (bus_foreach_bus send_removed_signal)
  end.

(** ** Job dispatcher *)

(** The rejection of line 1404. *)
Definition only_by_dependency (u : Unit) : failure :=
  BusError BUS_ERROR_ONLY_BY_DEPENDENCY
    "Operation refused, unit %s may be requested by dependency only (it is configured to refuse manual start/stop)."
    [ArgString (strempty (id u))].

(** Lines 1406-1418 of [bus_unit_queue_job]: the job is handed to the
    scheduler, the sender is registered as its watcher, and the job's
    object path is the reply. *)
Definition submit_job (type : JobType) (mode : Z) : M World string :=
  let* j := manager_add_job type mode in
  bus_job_track_sender j;;
  match job_dbus_path j with
  | None => fail (Errno (- ENOMEM))
  | Some path =>
      checked sd_bus_reply_method_return;;
      ret path
  end.

(** [bus_unit_queue_job], lines 1364-1419; the value returned is the job's
    object path sent back in the reply. *)
Definition bus_unit_queue_job (type : JobType) (mode : Z)
    (reload_if_possible : bool) : M World string :=
  let* u := get_unit in
  lift (mac_selinux_unit_access_check u (job_type_to_access_method type));;
  let type :=
    if reload_if_possible && unit_can_reload u then
      match type with
      | JOB_RESTART => JOB_RELOAD_OR_START
      | JOB_TRY_RESTART => JOB_TRY_RELOAD
      | _ => type
      end
    else type in
  if bool_decide (type = JOB_STOP) &&
     (bool_decide (load_state u = UNIT_NOT_FOUND) ||
      bool_decide (load_state u = UNIT_ERROR)) &&
     bool_decide (unit_active_state u = UNIT_INACTIVE)
  then
    fail (BusError BUS_ERROR_NO_SUCH_UNIT "Unit %s not loaded."
            [ArgString (strempty (id u))])
  else if
    (bool_decide (type = JOB_START) && refuse_manual_start u) ||
    (bool_decide (type = JOB_STOP) && refuse_manual_stop u) ||
    ((bool_decide (type = JOB_RESTART) || bool_decide (type = JOB_TRY_RESTART))
     && (refuse_manual_start u || refuse_manual_stop u)) ||
    (bool_decide (type = JOB_RELOAD_OR_START) &&
     bool_decide (job_type_collapse type u = JOB_START) &&
     refuse_manual_start u)
  then fail (only_by_dependency u)
  else submit_job type mode.

(** ** Property transaction engine *)

Definition streq (a b : string) : bool := bool_decide (a = b).

Definition yes_no (b : bool) : string := if b then "yes" else "no".

(** Reading one value of a given bus type out of the variant of an entry;
    a value of another type is refused with [- ENXIO]. *)
Definition read_s (v : bus_value) : result string :=
  match v with BusString s => inr s | _ => inl (Errno (- ENXIO)) end.
Definition read_b (v : bus_value) : result bool :=
  match v with BusBool b => inr b | _ => inl (Errno (- ENXIO)) end.
Definition read_u (v : bus_value) : result Z :=
  match v with BusUInt32 n => inr n | _ => inl (Errno (- ENXIO)) end.
Definition read_t (v : bus_value) : result Z :=
  match v with BusUInt64 n => inr n | _ => inl (Errno (- ENXIO)) end.

(** [sd_bus_message_enter_container (message, 'a', contents)]; [None] is a
    variant whose value was already read. *)
Definition enter_array (contents : string) (cursor : option bus_value)
  : result (list bus_value) :=
  match cursor with
  | Some (BusArray signature elems) =>
      if streq signature contents then inr elems else inl (Errno (- ENXIO))
  | _ => inl (Errno (- ENXIO))
  end.

(** [sd_bus_message_read_strv]. *)
Fixpoint read_strings (elems : list bus_value) : result (list string) :=
  match elems with
  | [] => inr []
  | BusString s :: rest =>
      match read_strings rest with
      | inr l => inr (s :: l)
      | inl e => inl e
      end
  | _ :: _ => inl (Errno (- ENXIO))
  end.

Definition read_strv (v : bus_value) : result (list string) :=
  match enter_array "s" (Some v) with
  | inr elems => read_strings elems
  | inl e => inl e
  end.

(** Modelled from the spec: the [bus_set_transient_*] setters generated by
    the [BUS_DEFINE_SET_TRANSIENT*] macros (dbus-util.h, not part of the
    excerpt): each reads one value, applies "full validation (type/range/
    format checks, path-absoluteness)" and, only with mutation enabled,
    stores the value through the field pointer [p] and records a setting
    line. *)
Definition bus_set_transient {A} (read : bus_value -> result A)
    (check : A -> result unit) (store : A -> Unit -> Unit)
    (line : A -> string * list setting_arg)
    (name : string) (message : bus_value) (flags : Z) : M World Z :=
  let* v := lift (read message) in
  lift (check v);;
  (if negb (UNIT_WRITE_FLAGS_NOOP flags) then
     update_unit (store v);;
     unit_write_settingf flags name (fst (line v)) (snd (line v))
   else ret tt);;
  ret 1.

Definition no_check {A} (_ : A) : result unit := inr tt.

Definition bus_set_transient_bool (name : string) (p : bool -> Unit -> Unit)
  : bus_value -> Z -> M World Z :=
  bus_set_transient read_b no_check p
    (fun v => ("%s=%s", [SetS name; SetS (yes_no v)])) name.

Definition bus_set_transient_unsigned (name : string) (p : Z -> Unit -> Unit)
  : bus_value -> Z -> M World Z :=
  bus_set_transient read_u no_check p
    (fun v => ("%s=%u", [SetS name; SetU v])) name.

Definition bus_set_transient_usec (name : string) (p : Z -> Unit -> Unit)
  : bus_value -> Z -> M World Z :=
  bus_set_transient read_t no_check p
    (fun v => ("%sSec=%s", [SetS name; SetU v])) name.

(** The [fix_0] variant: what it makes of the time span it read is not
    in the excerpt; the value stored is [usec_fix_0 v]. *)
Definition bus_set_transient_usec_fix_0 (name : string)
    (p : Z -> Unit -> Unit) : bus_value -> Z -> M World Z :=
  bus_set_transient read_t no_check (fun v => p (usec_fix_0 v))
    (fun v => ("%sSec=%s", [SetS name; SetU v])) name.

Definition bus_set_transient_string (name : string)
    (p : option string -> Unit -> Unit) : bus_value -> Z -> M World Z :=
  bus_set_transient read_s no_check (fun v => p (empty_to_null v))
    (fun v => ("%s=%s", [SetS name; SetS v])) name.

Definition bus_set_transient_path (name : string)
    (p : option string -> Unit -> Unit) : bus_value -> Z -> M World Z :=
  bus_set_transient read_s
    (fun v =>
       if negb (isempty (Some v)) && negb (path_is_absolute v) then
         inl (BusError SD_BUS_ERROR_INVALID_ARGS "Invalid %s setting: %s"
                [ArgString name; ArgString v])
       else inr tt)
    (fun v => p (empty_to_null v))
    (fun v => ("%s=%s", [SetS name; SetS v])) name.

(** [BUS_DEFINE_SET_TRANSIENT_PARSE], instantiated at lines 1458-1460. *)
Definition bus_set_transient_parse (parse_func : string -> Z)
    (name : string) (p : Z -> Unit -> Unit) : bus_value -> Z -> M World Z :=
  bus_set_transient read_s
    (fun s =>
       if parse_func s <? 0 then
         inl (BusError SD_BUS_ERROR_INVALID_ARGS "Invalid %s setting: %s"
                [ArgString name; ArgString s])
       else inr tt)
    (fun s => p (parse_func s))
    (fun s => ("%s=%s", [SetS name; SetS s])) name.

Definition bus_set_transient_collect_mode :=
  bus_set_transient_parse collect_mode_from_string.
Definition bus_set_transient_emergency_action :=
  bus_set_transient_parse emergency_action_from_string.
Definition bus_set_transient_job_mode :=
  bus_set_transient_parse job_mode_from_string.

(** [bus_unit_set_live_property], lines 1421-1456. *)
Definition bus_unit_set_live_property (name : string) (message : bus_value)
    (flags : Z) : M World Z :=
  if streq name "Description" then
    let* d := lift (read_s message) in
    (if negb (UNIT_WRITE_FLAGS_NOOP flags) then
       unit_set_description (Some d);;
       unit_write_settingf (Z.lor flags UNIT_ESCAPE_SPECIFIERS) name
         "Description=%s" [SetS d]
     else ret tt);;
    ret 1
  else ret 0.

(** Modelled from the spec: [condition_new] (condition.c, not part of the
    excerpt): a fresh entry (type, trigger, negate, parameter) whose
    result is "untested". *)
Definition condition_new (t : Z) (param : option string)
    (trigger negate : bool) : Condition :=
  mkCondition t trigger negate param CONDITION_UNTESTED.

(** One [(sbbs)] element, as [sd_bus_message_read] hands it over. *)
Definition read_sbbs (v : bus_value) : result (string * bool * bool * string) :=
  match v with
  | BusStruct [BusString type_name; BusBool trigger; BusBool negate;
               BusString param] => inr (type_name, trigger, negate, param)
  | _ => inl (Errno (- ENXIO))
  end.

(** The [while] loop of [bus_set_transient_conditions], lines 1481-1519:
    one round per element of the array. [list] is the [Condition **list]
    argument, a pointer to a field of the unit. *)
Fixpoint bus_set_transient_conditions_loop (name : string)
    (get_list : Unit -> list Condition)
    (set_list : list Condition -> Unit -> Unit)
    (is_condition : bool) (flags : Z) (elems : list bus_value)
  : M World unit :=
  match elems with
  | [] => ret tt
  | elem :: rest =>
      let* entry := lift (read_sbbs elem) in
      let '(type_name, trigger, negate, param) := entry in
      let t :=
        if is_condition then condition_type_from_string type_name
        else assert_type_from_string type_name in
      if t <? 0 then
        fail (BusError SD_BUS_ERROR_INVALID_ARGS
                "Invalid condition type: %s" [ArgString type_name])
      else
        let* param :=
          (if negb (t =? CONDITION_NULL) then
             if isempty (Some param) then
               fail (BusError SD_BUS_ERROR_INVALID_ARGS
                       "Condition parameter in %s is empty"
                       [ArgString type_name])
             else if condition_takes_path t && negb (path_is_absolute param)
             then
               fail (BusError SD_BUS_ERROR_INVALID_ARGS
                       "Path in condition %s is not absolute: %s"
                       [ArgString type_name; ArgString param])
             else ret (Some param)
           else ret None) in
        (if negb (UNIT_WRITE_FLAGS_NOOP flags) then
           let c := condition_new t param trigger negate in
           (* LIST_PREPEND: the new entry becomes the head of the list *)
           update_unit (fun u => set_list (c :: get_list u) u);;
           if negb (t =? CONDITION_NULL) then
             unit_write_settingf (Z.lor flags UNIT_ESCAPE_SPECIFIERS) name
               "%s=%s%s%s"
               [SetS type_name; SetS (if trigger then "|" else "");
                SetS (if negate then "!" else ""); SetS (strempty param)]
           else
             unit_write_settingf flags name "%s=%s%s"
               [SetS type_name; SetS (if trigger then "|" else "");
                SetS (yes_no (negb negate))]
         else ret tt);;
        bus_set_transient_conditions_loop name get_list set_list
          is_condition flags rest
  end.

(** [bus_set_transient_conditions], lines 1462-1531. *)
Definition bus_set_transient_conditions (name : string)
    (get_list : Unit -> list Condition)
    (set_list : list Condition -> Unit -> Unit)
    (is_condition : bool) (message : bus_value) (flags : Z) : M World Z :=
  let* elems := lift (enter_array "(sbbs)" (Some message)) in
  bus_set_transient_conditions_loop name get_list set_list is_condition
    flags elems;;
  let empty := match elems with [] => true | _ => false end in
  (if negb (UNIT_WRITE_FLAGS_NOOP flags) && empty then
     (* the list is freed and the field set to NULL *)
     update_unit (set_list []);;
     unit_write_settingf flags name "%sNull="
       [SetS (if is_condition then "Condition" else "Assert")]
   else ret tt);;
  ret 1.

(** The [while] loop of the dependency branch, lines 1724-1744. *)
Fixpoint transient_dependencies_loop (name : string) (d : Z) (flags : Z)
    (elems : list bus_value) : M World unit :=
  match elems with
  | [] => ret tt
  | elem :: rest =>
      let* other := lift (read_s elem) in
      if negb (unit_name_is_valid other
                 (Z.lor UNIT_NAME_PLAIN UNIT_NAME_INSTANCE)) then
        fail (BusError SD_BUS_ERROR_INVALID_ARGS "Invalid unit name %s"
                [ArgString other])
      else
        (if negb (UNIT_WRITE_FLAGS_NOOP flags) then
           unit_add_dependency_by_name d other UNIT_DEPENDENCY_FILE;;
           let label := name +:+ "-" +:+ other in
           unit_write_settingf flags label "%s=%s"
             [SetS (unit_dependency_to_string d); SetS other]
         else ret tt);;
        transient_dependencies_loop name d flags rest
  end.

(** Lines 1710-1776 of [bus_unit_set_transient_property]: the dependency
    kinds and "AddRef". [cursor] is the variant of the entry, [None] once
    its value has been read. *)
Definition transient_dependency_or_ref (name : string)
    (cursor : option bus_value) (flags : Z) : M World Z :=
  let d :=
    if streq name "RequiresOverridable" then UNIT_REQUIRES
    else if streq name "RequisiteOverridable" then UNIT_REQUISITE
    else unit_dependency_from_string name in
  if d >=? 0 then
    let* elems := lift (enter_array "s" cursor) in
    transient_dependencies_loop name d flags elems;;
    ret 1
  else if streq name "AddRef" then
    let* b :=
      lift (match cursor with
            | Some v => read_b v
            | None => inl (Errno (- ENXIO))
            end) in
    (if negb (UNIT_WRITE_FLAGS_NOOP flags) then
       update_unit (set_bus_track_add b)
     else ret tt);;
    ret 1
  else ret 0.

(** The loop over the paths of "RequiresMountsFor", lines 1694-1705 (the
    format of the second error is kept without its inner quotes). *)
Fixpoint requires_mounts_for_loop (name : string) (flags : Z)
    (l : list string) : M World unit :=
  match l with
  | [] => ret tt
  | p :: rest =>
      if negb (path_is_absolute p) then
        fail (BusError SD_BUS_ERROR_INVALID_ARGS
                "Path specified in %s is not absolute: %s"
                [ArgString name; ArgString p])
      else
        (if negb (UNIT_WRITE_FLAGS_NOOP flags) then
           (fun w =>
              match unit_require_mounts_for p UNIT_DEPENDENCY_FILE w with
              | (inl _, w') =>
                  (inl (BusError SD_BUS_ERROR_INVALID_ARGS
                          "Failed to add required mount %s: %m"
                          [ArgString p]), w')
              | ok => ok
              end);;
           unit_write_settingf flags name "%s=%s" [SetS name; SetS p]
         else ret tt);;
        requires_mounts_for_loop name flags rest
  end.

Fixpoint write_each (flags : Z) (name : string) (l : list string)
  : M World unit :=
  match l with
  | [] => ret tt
  | p :: rest =>
      unit_write_settingf flags name "%s=%s" [SetS name; SetS p];;
      write_each flags name rest
  end.

Definition first_invalid_url (l : list string) : option string :=
  List.find (fun p => negb (documentation_url_is_valid p)) l.

(** [bus_unit_set_transient_property], lines 1533-1777. *)
Definition bus_unit_set_transient_property (name : string)
    (message : bus_value) (flags : Z) : M World Z :=
  if streq name "SourcePath" then
    bus_set_transient_path name set_source_path message flags
  else if streq name "StopWhenUnneeded" then
    bus_set_transient_bool name set_stop_when_unneeded message flags
  else if streq name "RefuseManualStart" then
    bus_set_transient_bool name set_refuse_manual_start message flags
  else if streq name "RefuseManualStop" then
    bus_set_transient_bool name set_refuse_manual_stop message flags
  else if streq name "AllowIsolate" then
    bus_set_transient_bool name set_allow_isolate message flags
  else if streq name "DefaultDependencies" then
    bus_set_transient_bool name set_default_dependencies message flags
  else if streq name "OnFailureJobMode" then
    bus_set_transient_job_mode name set_on_failure_job_mode message flags
  else if streq name "IgnoreOnIsolate" then
    bus_set_transient_bool name set_ignore_on_isolate message flags
  else if streq name "JobTimeoutUSec" then
    (* This branch has no [return]: [r] is kept only for the test that
       follows it, and control runs on. None of the names compared below
       is "JobTimeoutUSec", so the next statement to act is the dependency
       lookup of line 1715, on a variant whose value has been read when
       the setter succeeded. *)
    let* cursor :=
      (fun w =>
         match bus_set_transient_usec_fix_0 name set_job_timeout
                 message flags w with
         | (inr _, w') =>
             let u := unit_of w' in
             (inr None,
              if negb (UNIT_WRITE_FLAGS_NOOP flags) &&
                 negb (job_running_timeout_set u)
              then with_unit (set_job_running_timeout (job_timeout u) u) w'
              else w')
         | (inl _, w') => (inr (Some message), w')
         end) in
    transient_dependency_or_ref name cursor flags
  else if streq name "JobRunningTimeoutUSec" then
    fun w =>
      match bus_set_transient_usec_fix_0 name set_job_running_timeout
              message flags w with
      | (inr r, w') =>
          (inr r,
           if negb (UNIT_WRITE_FLAGS_NOOP flags) then
             with_unit (set_job_running_timeout_set true (unit_of w')) w'
           else w')
      | failed => failed
      end
  else if streq name "JobTimeoutAction" then
    bus_set_transient_emergency_action name set_job_timeout_action
      message flags
  else if streq name "JobTimeoutRebootArgument" then
    bus_set_transient_string name set_job_timeout_reboot_arg message flags
  else if streq name "StartLimitIntervalUSec" then
    bus_set_transient_usec name
      (fun v u => set_start_limit (mkRateLimit v (burst (start_limit u))) u)
      message flags
  else if streq name "StartLimitBurst" then
    bus_set_transient_unsigned name
      (fun v u => set_start_limit (mkRateLimit (interval (start_limit u)) v) u)
      message flags
  else if streq name "StartLimitAction" then
    bus_set_transient_emergency_action name set_start_limit_action
      message flags
  else if streq name "FailureAction" then
    bus_set_transient_emergency_action name set_failure_action message flags
  else if streq name "SuccessAction" then
    bus_set_transient_emergency_action name set_success_action message flags
  else if streq name "RebootArgument" then
    bus_set_transient_string name set_reboot_arg message flags
  else if streq name "CollectMode" then
    bus_set_transient_collect_mode name set_collect_mode message flags
  else if streq name "Conditions" then
    bus_set_transient_conditions name conditions set_conditions true
      message flags
  else if streq name "Asserts" then
    bus_set_transient_conditions name asserts set_asserts false
      message flags
  else if streq name "Documentation" then
    let* l := lift (read_strv message) in
    match first_invalid_url l with
    | Some p =>
        fail (BusError SD_BUS_ERROR_INVALID_ARGS "Invalid URL in %s: %s"
                [ArgString name; ArgString p])
    | None =>
        (if negb (UNIT_WRITE_FLAGS_NOOP flags) then
           match l with
           | [] =>
               update_unit (set_documentation []);;
               unit_write_settingf flags name "%s=" [SetS name]
           | _ =>
               update_unit (fun u => set_documentation (documentation u ++ l) u);;
               write_each flags name l
           end
         else ret tt);;
        ret 1
    end
  else if streq name "Slice" then
    let* u := get_unit in
    if negb (UNIT_HAS_CGROUP_CONTEXT u) then
      fail (BusError SD_BUS_ERROR_INVALID_ARGS
              "The slice property is only available for units with control groups."
              [])
    else if bool_decide (type u = UNIT_SLICE) then
      fail (BusError SD_BUS_ERROR_INVALID_ARGS
              "Slice may not be set for slice units." [])
    else if unit_has_name u SPECIAL_INIT_SCOPE then
      fail (BusError SD_BUS_ERROR_INVALID_ARGS
              "Cannot set slice for init.scope" [])
    else
      let* s := lift (read_s message) in
      if negb (unit_name_is_valid s UNIT_NAME_PLAIN) then
        fail (BusError SD_BUS_ERROR_INVALID_ARGS "Invalid unit name '%s'"
                [ArgString s])
      else
        (* manager_load_unit_prepare() runs in both passes *)
        let* slice_type := in_manager (manager_load_unit_prepare s) in
        if negb (bool_decide (slice_type = UNIT_SLICE)) then
          fail (BusError SD_BUS_ERROR_INVALID_ARGS
                  "Unit name '%s' is not a slice" [ArgString s])
        else
          (if negb (UNIT_WRITE_FLAGS_NOOP flags) then
             unit_set_slice s;;
             unit_write_settingf (Z.lor flags UNIT_PRIVATE) name "Slice=%s"
               [SetS s]
           else ret tt);;
          ret 1
  else if streq name "RequiresMountsFor" then
    let* l := lift (read_strv message) in
    requires_mounts_for_loop name flags l;;
    ret 1
  else transient_dependency_or_ref name (Some message) flags.

(** One entry of the array, lines 1822-1855: the three handler classes in
    their fixed order. *)
Definition set_one_property (name : string) (message : bus_value) (f : Z)
  : M World unit :=
  let* u := get_unit in
  match vtable_bus_set_property (type u) with
  | None =>
      fail (BusError SD_BUS_ERROR_PROPERTY_READ_ONLY
              "Objects of this type do not support setting properties." [])
  | Some bus_set_property =>
      let* r := bus_set_property name message f in
      let* u := get_unit in
      let* r :=
        (if (r =? 0) && transient u && bool_decide (load_state u = UNIT_STUB)
         then bus_unit_set_transient_property name message f
         else ret r) in
      let* r :=
        (if r =? 0 then bus_unit_set_live_property name message f
         else ret r) in
      if r <? 0 then fail (Errno r)
      else if r =? 0 then
        fail (BusError SD_BUS_ERROR_PROPERTY_READ_ONLY
                "Cannot set property %s, or unknown property."
                [ArgString name])
      else ret tt
  end.

(** One run over the array, from its first entry to its end, with
    [for_real] fixed; [n] is the running count. *)
Fixpoint set_properties_pass (for_real : bool) (flags : Z)
    (entries : list (string * bus_value)) (n : Z) : M World Z :=
  match entries with
  | [] => ret n
  | (name, message) :: rest =>
      (* If not for real, then mask out the two target flags *)
      let f :=
        if for_real then flags
        else Z.land flags (Z.lnot (Z.lor UNIT_RUNTIME UNIT_PERSISTENT)) in
      set_one_property name message f;;
      set_properties_pass for_real flags rest
        (uint32_of (n + (if for_real then 1 else 0)))
  end.

(** [bus_unit_set_properties], lines 1779-1866. The single [for (;;)] of
    the source runs over the array once with [for_real] false and, unless
    [flags] ask for nothing, rewinds and runs over it again with [for_real]
    true. The signature "a(sv)" of the array is enforced before the
    handler runs; what each variant holds is not. *)
Definition bus_unit_set_properties (entries : list (string * bus_value))
    (flags : Z) (commit : bool) : M World Z :=
  let* n := set_properties_pass false flags entries 0 in
  let* n :=
    (if UNIT_WRITE_FLAGS_NOOP flags then ret n
     else set_properties_pass true flags entries n) in
  let* u := get_unit in
  (if commit && (n >? 0) then
     match vtable_bus_commit_properties (type u) with
     | Some bus_commit_properties => logged bus_commit_properties
     | None => ret tt
     end
   else ret tt);;
  ret (int32_of_uint32 n).

End Definitions.
(** ** Sequences of notifications

    What can happen to the notification state of one unit: the two calls
    of this file, and whatever the rest of the program does to the unit
    in between. *)
Inductive notify_op : Type :=
| NotifyChanged
| NotifyRemoved
| Elsewhere (f : World -> World).

Section Notifications.
Context `{Collaborators}.

Definition notify (w : World) (op : notify_op) : World :=
  match op with
  | NotifyChanged => snd (bus_unit_send_change_signal w)
  | NotifyRemoved => snd (bus_unit_send_removed_signal w)
  | Elsewhere f => f w
  end.

Definition notify_all (ops : list notify_op) (w : World) : World :=
  fold_left notify ops w.

End Notifications.

(** A step made elsewhere that broadcasts nothing about the unit and
    leaves [sent_dbus_new_signal] alone: in this file the flag is written
    at line 1317 only. *)
Definition keeps_announcement (f : World -> World) : Prop :=
  forall w,
    bus (f w) = bus w /\
    sent_dbus_new_signal (unit_of (f w)) = sent_dbus_new_signal (unit_of w).

Definition quiet (ops : list notify_op) : Prop :=
  Forall (fun op =>
            match op with
            | Elsewhere f => keeps_announcement f
            | _ => True
            end) ops.

(** A change notification is a broadcast made by
    [bus_unit_send_change_signal]: the unit's first one goes out as
    UnitNew, the later ones as PropertiesChanged. *)
Definition is_change (b : broadcast) : Prop :=
  bc_sender b = send_new_signal \/ bc_sender b = send_changed_signal.

(** Every removal in the trace has a change notification before it. *)
Definition removed_after_change (trace : list broadcast) : Prop :=
  forall pre b post,
    trace = pre ++ b :: post ->
    bc_sender b = send_removed_signal ->
    Exists is_change pre.

(** What a broadcast put on the bus: nothing when its sender failed. *)
Definition delivered (b : broadcast) : list bus_signal :=
  match bc_outcome b with
  | inr signals => signals
  | inl _ => []
  end.

Definition signal_is (member : string) (s : bus_signal) : bool :=
  match s with
  | Signal _ _ m _ => bool_decide (m = member)
  | PropertiesChanged _ _ => false
  end.

(** UnitNew and PropertiesChanged are the change signals. *)
Definition change_signal (s : bus_signal) : bool :=
  match s with
  | Signal _ _ m _ => bool_decide (m = "UnitNew")
  | PropertiesChanged _ _ => true
  end.

Definition delivers (p : bus_signal -> bool) (b : broadcast) : bool :=
  existsb p (delivered b).

(** No UnitRemoved signal is seen on the bus before a change signal was
    seen there. *)
Definition removed_seen_after_change (trace : list broadcast) : Prop :=
  forall pre b post,
    trace = pre ++ b :: post ->
    delivers (signal_is "UnitRemoved") b = true ->
    Exists (fun c => delivers change_signal c = true) pre.

(** Every change notification of the trace went out. *)
Definition changes_sent (trace : list broadcast) : Prop :=
  Forall (fun b => is_change b -> is_ok (bc_outcome b) = true) trace.

(** ** Facts about a cgroup tree *)

(** Every PID the resource controller reports anywhere in the tree. *)
Fixpoint cgroup_pids (g : cgroup) : list Z :=
  match g with
  | Cgroup _ procs _ _ subs _ =>
      procs ++
      (fix below (l : list (string * cgroup)) : list Z :=
         match l with
         | [] => []
         | (_, child) :: rest => cgroup_pids child ++ below rest
         end) subs
  end.

(** A value of the 32-bit signed [pid_t]. *)
Definition is_pid_t (pid : Z) : Prop := - 2 ^ 31 <= pid < 2 ^ 31.

(** ** The specification's reading of the calls *)

(** The error taxonomy of the specification. *)
Inductive error_kind : Type :=
| InvalidArgument | AccessDenied | Pending | PropertyReadOnly | NoSuchUnit
| UnitMasked | NotReferenced | ResourceUnavailable.

(** The taxonomy entry a failure of this file falls under; no failure of
    the file is a [ResourceUnavailable]. *)
Definition error_kind_of (e : failure) : option error_kind :=
  match e with
  | BusError SD_BUS_ERROR_INVALID_ARGS _ _ => Some InvalidArgument
  | BusError SD_BUS_ERROR_ACCESS_DENIED _ _ => Some AccessDenied
  | BusError SD_BUS_ERROR_PROPERTY_READ_ONLY _ _ => Some PropertyReadOnly
  | BusError BUS_ERROR_NO_SUCH_UNIT _ _ => Some NoSuchUnit
  | BusError BUS_ERROR_UNIT_MASKED _ _ => Some UnitMasked
  | _ => None
  end.

Section Readings.
Context `{Collaborators}.

(** Guard 3 ahead of guard 4: a unit that refuses manual start rejects a
    restart request even when the request may be served by a reload. *)
Definition refusal_precedes_downgrade (w : World) (mode : Z) : Prop :=
  refuse_manual_start (unit_of w) = true ->
  fst (bus_unit_queue_job JOB_RESTART mode true w) =
  inl (only_by_dependency (unit_of w)).

(** A unit that cannot take processes answers with the
    [ResourceUnavailable] class. *)
Definition unavailable_is_resource_unavailable (w : World) (path : string)
    (upids : list Z) (sender : result sd_bus_creds) : Prop :=
  unit_cgroup_delegate (unit_of w) = false \/
  UNIT_IS_INACTIVE_OR_FAILED (unit_active_state (unit_of w)) = true ->
  exists e,
    fst (bus_unit_method_attach_processes path upids sender w) = inl e /\
    error_kind_of e = Some ResourceUnavailable.

(** The process an entry of the PID array stands for: 0 is the sender's
    own process. *)
Definition requested_pid (creds : sd_bus_creds) (upid : Z) : result Z :=
  if upid =? 0 then creds_pid creds else inr (int32_of_uint32 upid).

(** The ownership gate: the process belongs to the sender, and to the
    unit's reference user. *)
Definition owned (u : Unit) (euid pid : Z) : Prop :=
  get_process_uid pid = inr euid /\ euid = ref_uid u.

Definition mismatched (u : Unit) (euid pid : Z) : Prop :=
  exists process_uid,
    get_process_uid pid = inr process_uid /\
    (process_uid <> euid \/ process_uid <> ref_uid u).

(** For a sender that is neither root nor the manager's own user, a
    requested process with another owner ends the call with an
    access-denied error that names a process. *)
Definition mismatch_is_access_denied (w : World) (path : string)
    (upids : list Z) (creds : sd_bus_creds) (euid : Z) : Prop :=
  creds_euid creds = inr euid -> euid <> 0 -> euid <> getuid ->
  Exists (fun upid =>
            exists pid,
              requested_pid creds upid = inr pid /\
              mismatched (unit_of w) euid pid) upids ->
  exists format pid,
    fst (bus_unit_method_attach_processes path upids (inr creds) w) =
    inl (BusError SD_BUS_ERROR_ACCESS_DENIED format [ArgPid pid]).

(** The security decision of lines 1192-1203 on one PID. *)
Definition ownership_check (u : Unit) (sender_uid pid : Z) : result unit :=
  if negb (sender_uid =? 0) && negb (sender_uid =? getuid) then
    match get_process_uid pid with
    | inl (Errno r) =>
        inl (BusErrnoError r "Failed to retrieve process UID: %m")
    | inl e => inl e
    | inr process_uid =>
        if negb (process_uid =? sender_uid) then
          inl (BusError SD_BUS_ERROR_ACCESS_DENIED
                 "Process %i not owned by client's UID. Refusing."
                 [ArgPid pid])
        else if negb (process_uid =? ref_uid u) then
          inl (BusError SD_BUS_ERROR_ACCESS_DENIED
                 "Process %i not owned by target unit's UID. Refusing."
                 [ArgPid pid])
        else inr tt
    end
  else inr tt.

(** The checks that come before the PIDs are looked at, the array of
    PIDs entered. *)
Definition attach_gates_pass (w : World) (path : string) : Prop :=
  mac_selinux_unit_access_check (unit_of w) "start" = inr tt /\
  match empty_to_null path with
  | Some p => path_is_absolute p = true /\ path_is_normalized p = true
  | None => True
  end /\
  unit_cgroup_delegate (unit_of w) = true /\
  UNIT_IS_INACTIVE_OR_FAILED (unit_active_state (unit_of w)) = false /\
  (sd_bus_message_enter_container <? 0) = false.

(** An entry of the PID array that passes every check of the loop, and
    for which the set can be made and can grow. *)
Definition pid_accepted (u : Unit) (creds : sd_bus_creds) (euid upid : Z)
  : Prop :=
  exists pid,
    requested_pid creds upid = inr pid /\
    unit_pid_attachable u pid = inr tt /\
    owned u euid pid /\
    set_new = true /\ 0 <= set_put_new pid.

(** One entry of a Conditions or Asserts array: type name, trigger,
    negate, parameter. *)
Definition condition_entry : Type := string * bool * bool * string.

Definition encode_entry (e : condition_entry) : bus_value :=
  let '(type_name, trigger, negate, param) := e in
  BusStruct [BusString type_name; BusBool trigger; BusBool negate;
             BusString param].

Definition encode_conditions (entries : list condition_entry) : bus_value :=
  BusArray "(sbbs)" (map encode_entry entries).

Definition entry_type (is_condition : bool) (e : condition_entry) : Z :=
  let '(type_name, _, _, _) := e in
  if is_condition then condition_type_from_string type_name
  else assert_type_from_string type_name.

(** An entry that passes the checks of lines 1484-1495. *)
Definition entry_valid (is_condition : bool) (e : condition_entry) : Prop :=
  let '(_, _, _, param) := e in
  let t := entry_type is_condition e in
  0 <= t /\
  (t <> CONDITION_NULL ->
   param <> "" /\
   (condition_takes_path t = true -> path_is_absolute param = true)).

(** The list entry built from it. *)
Definition built_condition (is_condition : bool) (e : condition_entry)
  : Condition :=
  let '(_, trigger, negate, param) := e in
  let t := entry_type is_condition e in
  condition_new t (if t =? CONDITION_NULL then None else Some param)
    trigger negate.

(** The list a commit of Conditions is said to leave behind: the entries
    supplied, in the order supplied, and nothing else. *)
Definition conditions_replaced_in_order (w : World) (flags : Z)
    (entries : list condition_entry) : Prop :=
  entries <> [] ->
  conditions
    (unit_of
       (snd (bus_set_transient_conditions "Conditions" conditions
               set_conditions true (encode_conditions entries) flags w))) =
  map (built_condition true) entries.

(** The flags of the first run over a batch. *)
Definition dry_flags (flags : Z) : Z :=
  Z.land flags (Z.lnot (Z.lor UNIT_RUNTIME UNIT_PERSISTENT)).

(** An entry of a batch that validation rejects for the unit [u], whatever
    else the world holds. *)
Definition entry_invalid (u : Unit) (flags : Z)
    (entry : string * bus_value) : Prop :=
  forall w,
    unit_of w = u ->
    is_ok (fst (set_one_property (fst entry) (snd entry) (dry_flags flags) w))
    = false.

(** The contract of the per-type property handlers: under no-op flags
    they leave the unit as it is. *)
Definition subtype_handlers_dry : Prop :=
  forall t handler name message f w,
    vtable_bus_set_property t = Some handler ->
    UNIT_WRITE_FLAGS_NOOP f = true ->
    unit_of (snd (handler name message f w)) = unit_of w.

End Readings.

(** ** Invariants *)

(** [preserves P c]: running [c] keeps [P] true of the state, whether [c]
    fails or not. *)
Definition preserves {S A} (P : S -> Prop) (c : M S A) : Prop :=
  forall s, P s -> P (snd (c s)).

(** The unit is the one the call started with. *)
Definition same_unit (u : Unit) (w : World) : Prop := unit_of w = u.

(** The invariant of the walk: the reply reports a duplicate-free list of
    PIDs, every one of them in the de-duplication set. *)
Definition walk_inv (s : walk) : Prop :=
  exists pids,
    map reported_pid (reply_elems s) = map Some pids /\
    NoDup pids /\
    forall pid, pid ∈ pids -> pid ∈ seen s.

(** The world once the unit is taken off the queue of pending change
    signals, lines 1305-1308. *)
Definition dequeued (w : World) : World :=
  if in_dbus_queue (unit_of w) then
    with_unit (set_in_dbus_queue false (unit_of w))
      (with_manager
         (set_dbus_unit_queue
            (List.remove Pos.eq_dec (self w) (dbus_unit_queue (manager w)))
            (manager w)) w)
  else w.

(** The invariant of a unit's notification state. *)
Definition notify_inv (w : World) : Prop :=
  removed_after_change (bus w) /\
  (sent_dbus_new_signal (unit_of w) = true -> Exists is_change (bus w)).

(** Every broadcast of the trace holds what its sender made of the unit
    at the time. *)
Definition sent_by_senders `{Collaborators} (trace : list broadcast) : Prop :=
  Forall (fun b => exists u, bc_outcome b = run_sender (bc_sender b) u) trace.

Section Ownership.
Context `{Collaborators}.

(** Every PID in the local set has passed the ownership gate. *)
Definition set_owned (u : Unit) (euid : Z) (pids : option (gset Z)) : Prop :=
  forall pid, set_contains pids pid = true -> owned u euid pid.

End Ownership.

(** * The rest of the file *)

(** ** Further collaborators

    What the remaining functions of the file call: the capability
    queries, the resource metrics, the authorization backend, the kill and
    reset calls, and the peer-watch objects of the bus library. *)
Class Services : Type := {
  (* unit.h *)
  unit_can_start : Unit -> bool;
  unit_can_stop : Unit -> bool;
  unit_can_isolate : Unit -> bool;
  unit_get_unit_file_preset : Unit -> Z;
  unit_kill : Z -> Z -> M World unit;
  unit_reset_failed : M World unit;
  load_error : Unit -> Z;
  (* cgroup.h *)
  unit_get_memory_current : Unit -> result Z;
  unit_get_tasks_current : Unit -> result Z;
  unit_get_cpu_usage : Unit -> result Z;
  unit_get_ip_accounting : Unit -> Z -> result Z;
  CGROUP_IP_INGRESS_BYTES : Z;
  CGROUP_IP_INGRESS_PACKETS : Z;
  CGROUP_IP_EGRESS_BYTES : Z;
  CGROUP_IP_EGRESS_PACKETS : Z;
  (* kill.h, signal.h *)
  KILL_ALL : Z;
  kill_who_from_string : string -> Z;
  NSIG : Z;
  (* job.h *)
  job_type_to_string : JobType -> string;
  (* bus-util.h, capability.h, the build configuration *)
  bus_verify_polkit_async :
    Z -> string -> list (option string) -> bool -> M World Z;
  CAP_SYS_ADMIN : Z;
  CAP_KILL : Z;
  GETTEXT_PACKAGE : string;
  (* sd-bus.h: peer-watch objects *)
  sd_bus_track : Type;
  sd_bus_track_new : result sd_bus_track;
  sd_bus_track_set_recursive : sd_bus_track -> bool -> result sd_bus_track;
  sd_bus_track_add_name : sd_bus_track -> string -> result sd_bus_track;
  sd_bus_track_add_sender : sd_bus_track -> string -> result sd_bus_track;
  sd_bus_track_remove_sender : sd_bus_track -> string -> result sd_bus_track
}.

Definition EUNATCH : Z := 49.
Definition UINT64_MAX : Z := 2 ^ 64 - 1.

Section MoreDefinitions.
Context `{Collaborators} `{Services}.

(** ** Further property getters *)

(** [property_get_obsolete_dependencies], lines 118-132. *)
Definition property_get_obsolete_dependencies (reply : sd_bus_message)
  : result sd_bus_message :=
  sd_bus_message_append reply [BusArray "s" []].

(** [property_get_unit_file_preset], lines 219-240. *)
Definition property_get_unit_file_preset (u : Unit) (reply : sd_bus_message)
  : result sd_bus_message :=
  let r := unit_get_unit_file_preset u in
  sd_bus_message_append reply
    [BusString
       (strempty (if r <? 0 then None
                  else if r >? 0 then Some "enabled" else Some "disabled"))].

(** [property_get_can_start], [property_get_can_stop],
    [property_get_can_reload] and [property_get_can_isolate],
    lines 260-330. *)
Definition property_get_can_start (u : Unit) (reply : sd_bus_message)
  : result sd_bus_message :=
  sd_bus_message_append reply
    [BusBool (unit_can_start u && negb (refuse_manual_start u))].

Definition property_get_can_stop (u : Unit) (reply : sd_bus_message)
  : result sd_bus_message :=
  sd_bus_message_append reply
    [BusBool (unit_can_stop u && negb (refuse_manual_stop u))].

Definition property_get_can_reload (u : Unit) (reply : sd_bus_message)
  : result sd_bus_message :=
  sd_bus_message_append reply [BusBool (unit_can_reload u)].

Definition property_get_can_isolate (u : Unit) (reply : sd_bus_message)
  : result sd_bus_message :=
  sd_bus_message_append reply
    [BusBool (unit_can_isolate u && negb (refuse_manual_start u))].

(** [property_get_current_memory], [property_get_current_tasks] and
    [property_get_cpu_usage], lines 839-909: the local starts as
    [(uint64_t) -1] and a failure of the query is only logged. *)
Definition metric_or_unset (r : result Z) : Z :=
  match r with
  | inr value => value
  | inl _ => UINT64_MAX
  end.

Definition property_get_current_memory (u : Unit) (reply : sd_bus_message)
  : result sd_bus_message :=
  sd_bus_message_append reply
    [BusUInt64 (metric_or_unset (unit_get_memory_current u))].

Definition property_get_current_tasks (u : Unit) (reply : sd_bus_message)
  : result sd_bus_message :=
  sd_bus_message_append reply
    [BusUInt64 (metric_or_unset (unit_get_tasks_current u))].

Definition property_get_cpu_usage (u : Unit) (reply : sd_bus_message)
  : result sd_bus_message :=
  sd_bus_message_append reply
    [BusUInt64 (metric_or_unset (unit_get_cpu_usage u))].

(** [property_get_ip_counter], lines 1082-1113. *)
Definition property_get_ip_counter (property : string) (u : Unit)
    (reply : sd_bus_message) : result sd_bus_message :=
  let metric : result Z :=
    if streq property "IPIngressBytes" then inr CGROUP_IP_INGRESS_BYTES
    else if streq property "IPIngressPackets" then
      inr CGROUP_IP_INGRESS_PACKETS
    else if streq property "IPEgressBytes" then inr CGROUP_IP_EGRESS_BYTES
    else if streq property "IPEgressPackets" then
      inr CGROUP_IP_EGRESS_PACKETS
    else inl (AssertionFailed "streq(property, IPEgressPackets)") in
  match metric with
  | inl e => inl e
  | inr metric =>
      sd_bus_message_append reply
        [BusUInt64 (metric_or_unset (unit_get_ip_accounting u metric))]
  end.

(** ** Method handlers *)

(** [bus_verify_manage_units_async_full], lines 440-470: the details
    array of nine slots, NULL where nothing was stored. *)
Definition bus_verify_manage_units_async_full (u : Unit) (verb : string)
    (capability : Z) (polkit_message : option string) (interactive : bool)
  : M World Z :=
  let details :=
    [Some "unit"; id u; Some "verb"; Some verb] ++
    match polkit_message with
    | Some m =>
        [Some "polkit.message"; Some m; Some "polkit.gettext_domain";
         Some GETTEXT_PACKAGE; None]
    | None => [None; None; None; None; None]
    end in
  bus_verify_polkit_async capability "org.freedesktop.systemd1.manage-units"
    details interactive.

(** The table [polkit_message_for_job] of lines 482-488. *)
Definition polkit_message_for_job (job_type : JobType) : option string :=
  match job_type with
  | JOB_START => Some "Authentication is required to start '$(unit)'."
  | JOB_STOP => Some "Authentication is required to stop '$(unit)'."
  | JOB_RELOAD => Some "Authentication is required to reload '$(unit)'."
  | JOB_RESTART => Some "Authentication is required to restart '$(unit)'."
  | JOB_TRY_RESTART => Some "Authentication is required to restart '$(unit)'."
  | _ => None
  end.

(** [bus_unit_method_start_generic], lines 472-531. The answer is the
    job's object path, or nothing while the authorization is pending
    (the handler then returns 1 without a reply). *)
Definition bus_unit_method_start_generic (job_type : JobType)
    (reload_if_possible : bool) (smode : string) : M World (option string) :=
  let* u := get_unit in
  lift (mac_selinux_unit_access_check u (job_type_to_access_method job_type));;
  let mode := job_mode_from_string smode in
  if mode <? 0 then
    fail (BusError SD_BUS_ERROR_INVALID_ARGS "Job mode %s invalid"
            [ArgString smode])
  else
    let verb :=
      if reload_if_possible then "reload-or-" +:+ job_type_to_string job_type
      else job_type_to_string job_type in
    let* r :=
      bus_verify_manage_units_async_full u verb CAP_SYS_ADMIN
        (polkit_message_for_job job_type) true in
    if r <? 0 then fail (Errno r)
    else if r =? 0 then ret None
    else
      let* path := bus_unit_queue_job job_type mode reload_if_possible in
      ret (Some path).

(** Lines 533-559. *)
Definition method_start := bus_unit_method_start_generic JOB_START false.
Definition method_stop := bus_unit_method_start_generic JOB_STOP false.
Definition method_reload := bus_unit_method_start_generic JOB_RELOAD false.
Definition method_restart := bus_unit_method_start_generic JOB_RESTART false.
Definition method_try_restart :=
  bus_unit_method_start_generic JOB_TRY_RESTART false.
Definition method_reload_or_restart :=
  bus_unit_method_start_generic JOB_RESTART true.
Definition method_reload_or_try_restart :=
  bus_unit_method_start_generic JOB_TRY_RESTART true.

(** Modelled from the spec: [SIGNAL_VALID] (signal-util.h, not part of
    the excerpt): the signal "is in the valid OS signal range". *)
Definition SIGNAL_VALID (signo : Z) : bool := (signo >? 0) && (signo <? NSIG).

(** [bus_unit_method_kill], lines 561-608; [true] once the reply was
    sent, [false] while the authorization is pending. *)
Definition bus_unit_method_kill (swho : string) (signo : Z) : M World bool :=
  let* u := get_unit in
  lift (mac_selinux_unit_access_check u "stop");;
  let* who :=
    (if isempty (Some swho) then ret KILL_ALL
     else
       let who := kill_who_from_string swho in
       if who <? 0 then
         fail (BusError SD_BUS_ERROR_INVALID_ARGS "Invalid who argument %s"
                 [ArgString swho])
       else ret who) in
  if negb (SIGNAL_VALID signo) then
    fail (BusError SD_BUS_ERROR_INVALID_ARGS "Signal number out of range." [])
  else
    let* r :=
      bus_verify_manage_units_async_full u "kill" CAP_KILL
        (Some "Authentication is required to kill '$(unit)'.") true in
    if r <? 0 then fail (Errno r)
    else if r =? 0 then ret false
    else
      unit_kill who signo;;
      checked sd_bus_reply_method_return;;
      ret true.

(** [bus_unit_method_reset_failed], lines 610-637 (the message is kept
    without its inner quotes). *)
Definition bus_unit_method_reset_failed : M World bool :=
  let* u := get_unit in
  lift (mac_selinux_unit_access_check u "reload");;
  let* r :=
    bus_verify_manage_units_async_full u "reset-failed" CAP_SYS_ADMIN
      (Some "Authentication is required to reset the failed state of '$(unit)'.")
      true in
  if r <? 0 then fail (Errno r)
  else if r =? 0 then ret false
  else
    logged unit_reset_failed;;
    checked sd_bus_reply_method_return;;
    ret true.

(** [bus_unit_method_set_properties], lines 639-672. *)
Definition bus_unit_method_set_properties (runtime : bool)
    (entries : list (string * bus_value)) : M World bool :=
  let* u := get_unit in
  lift (mac_selinux_unit_access_check u "start");;
  let* r :=
    bus_verify_manage_units_async_full u "set-property" CAP_SYS_ADMIN
      (Some "Authentication is required to set properties on '$(unit)'.")
      true in
  if r <? 0 then fail (Errno r)
  else if r =? 0 then ret false
  else
    bus_unit_set_properties entries
      (if runtime then UNIT_RUNTIME else UNIT_PERSISTENT) true;;
    checked sd_bus_reply_method_return;;
    ret true.

(** [bus_unit_check_load_state], lines 1868-1884. *)
Definition bus_unit_check_load_state (u : Unit) : result unit :=
  if bool_decide (load_state u = UNIT_LOADED) then inr tt
  else if bool_decide (load_state u = UNIT_MASKED) then
    inl (BusError BUS_ERROR_UNIT_MASKED "Unit %s is masked."
           [ArgString (strempty (id u))])
  else if bool_decide (load_state u = UNIT_NOT_FOUND) then
    inl (BusError BUS_ERROR_NO_SUCH_UNIT "Unit %s not found."
           [ArgString (strempty (id u))])
  else inl (BusErrnoError (load_error u) "Unit %s is not loaded properly: %m.").

(** The refusal test of lines 1400-1403, on the operation as it stands
    after the reload downgrade. *)
Definition refused_as_manual (type : JobType) (u : Unit) : bool :=
  (bool_decide (type = JOB_START) && refuse_manual_start u) ||
  (bool_decide (type = JOB_STOP) && refuse_manual_stop u) ||
  ((bool_decide (type = JOB_RESTART) || bool_decide (type = JOB_TRY_RESTART))
   && (refuse_manual_start u || refuse_manual_stop u)) ||
  (bool_decide (type = JOB_RELOAD_OR_START) &&
   bool_decide (job_type_collapse type u = JOB_START) &&
   refuse_manual_start u).

(** ** Peer references *)

(** The unit's [bus_track] field and what the file does to the garbage
    collector: the number of times the unit was handed to
    [unit_add_to_gc_queue]. *)
Record Tracking : Type := mkTracking {
  bus_track : option sd_bus_track;
  gc_requests : nat
}.

(** Modelled from the spec: [unit_add_to_gc_queue] (unit.c, not part of
    the excerpt): "enqueues the unit for garbage-collection
    reconsideration". *)
Definition unit_add_to_gc_queue : M Tracking unit :=
  modify (fun t => mkTracking (bus_track t) (S (gc_requests t))).

(** [bus_unit_track_handler], lines 1886-1896. *)
Definition bus_unit_track_handler : M Tracking Z :=
  modify (fun t => mkTracking None (gc_requests t));;
  unit_add_to_gc_queue;;
  ret 0.

(** [bus_unit_allocate_bus_track], lines 1898-1917. *)
Definition bus_unit_allocate_bus_track : M Tracking Z :=
  let* t := get in
  match bus_track t with
  | Some _ => ret 0
  | None =>
      let* track := lift sd_bus_track_new in
      modify (fun t => mkTracking (Some track) (gc_requests t));;
      match sd_bus_track_set_recursive track true with
      | inl e =>
          modify (fun t => mkTracking None (gc_requests t));;
          fail e
      | inr track =>
          modify (fun t => mkTracking (Some track) (gc_requests t));;
          ret 0
      end
  end.

(** What the three calls below do once a watch object is there: the
    library call on [u->bus_track]. *)
Definition on_track (call : sd_bus_track -> result sd_bus_track)
  : M Tracking Z :=
  let* t := get in
  match bus_track t with
  | None => fail (AssertionFailed "track")
  | Some track =>
      let* track := lift (call track) in
      modify (fun t => mkTracking (Some track) (gc_requests t));;
      ret 0
  end.

(** [bus_unit_track_add_name], lines 1919-1929. *)
Definition bus_unit_track_add_name (name : string) : M Tracking Z :=
  bus_unit_allocate_bus_track;;
  on_track (fun track => sd_bus_track_add_name track name).

(** [bus_unit_track_add_sender], lines 1931-1941; [m] is the sender of
    the message. *)
Definition bus_unit_track_add_sender (m : string) : M Tracking Z :=
  bus_unit_allocate_bus_track;;
  on_track (fun track => sd_bus_track_add_sender track m).

(** [bus_unit_track_remove_sender], lines 1943-1952. *)
Definition bus_unit_track_remove_sender (m : string) : M Tracking Z :=
  let* t := get in
  match bus_track t with
  | None => fail (Errno (- EUNATCH))
  | Some _ => on_track (fun track => sd_bus_track_remove_sender track m)
  end.

(** The failures of [bus_unit_method_unref]: [BUS_ERROR_NOT_REFERENCED]
    set with [sd_bus_error_setf], or a failure passed on. *)
Inductive unref_failure : Type :=
| NotReferencedError (format : string)
| UnrefFailed (e : failure).

(** [bus_unit_method_unref], lines 705-719. *)
Definition bus_unit_method_unref (m : string) (t : Tracking)
  : (unref_failure + unit) * Tracking :=
  match bus_unit_track_remove_sender m t with
  | (inl (Errno r), t') =>
      if r =? - EUNATCH then
        (inl (NotReferencedError "Unit has not been referenced yet."), t')
      else (inl (UnrefFailed (Errno r)), t')
  | (inl e, t') => (inl (UnrefFailed e), t')
  | (inr _, t') =>
      if sd_bus_reply_method_return <? 0 then
        (inl (UnrefFailed (Errno sd_bus_reply_method_return)), t')
      else (inr tt, t')
  end.

(** A call on the unit within the pair of the two states, and a call on
    its peer references. *)
Definition on_world {A} (c : M World A) : M (World * Tracking) A :=
  fun s => let '(r, w) := c (fst s) in (r, (w, snd s)).

Definition on_tracking {A} (c : M Tracking A) : M (World * Tracking) A :=
  fun s => let '(r, t) := c (snd s) in (r, (fst s, t)).

(** [bus_unit_method_ref], lines 674-703; [m] is the sender of the
    message. [true] once the reply was sent, [false] while the
    authorization is pending. *)
Definition bus_unit_method_ref (m : string) : M (World * Tracking) bool :=
  let* u := on_world get_unit in
  on_world (lift (mac_selinux_unit_access_check u "start"));;
  let* r :=
    on_world
      (bus_verify_manage_units_async_full u "ref" CAP_SYS_ADMIN None false) in
  if r <? 0 then fail (Errno r)
  else if r =? 0 then ret false
  else
    let* r := on_tracking (bus_unit_track_add_sender m) in
    if r <? 0 then fail (Errno r)
    else
      checked sd_bus_reply_method_return;;
      ret true.

End MoreDefinitions.

(** ** Facts used by the further properties *)

Section MoreReadings.
Context `{Collaborators} `{Services}.

(** The path [q] is the path [p] or lies below it. *)
Definition under (p q : string) : Prop := exists rest, q = p +:+ rest.

(** The element [append_process] adds for the process [pid] found at the
    path [q], lines 963-967. *)
Definition process_entry (q : string) (pid : Z) : bus_value :=
  BusStruct [BusString q; BusUInt32 (uint32_of pid);
             BusString (strempty (get_process_cmdline pid))].

(** What the resource controller lists in the tree [g] found at the path
    [p]: every PID with the path of the group that lists it. *)
Fixpoint cgroup_entries (g : cgroup) (p : string) : list (string * Z) :=
  match g with
  | Cgroup _ procs _ _ subs _ =>
      map (fun pid => (p, pid)) procs ++
      (fix below (l : list (string * cgroup)) : list (string * Z) :=
         match l with
         | [] => []
         | (name, child) :: rest =>
             cgroup_entries child (p +:+ "/" +:+ name) ++ below rest
         end) subs
  end.

(** An element for a process the tree [g], found at [p], lists in the
    group at the path [q]: the element carries that path, and the
    process is no kernel thread. *)
Definition entry_from_cgroup (g : cgroup) (p : string) (v : bus_value)
  : Prop :=
  exists q pid,
    v = process_entry q pid /\ (q, pid) ∈ cgroup_entries g p /\
    under p q /\ 0 < pid /\ (is_kernel_thread pid >? 0) = false.

(** An element for the process [pid] fetched separately, at the path the
    resource controller names for it. *)
Definition entry_of_pid (pid : Z) (v : bus_value) : Prop :=
  exists q, cg_pid_get_path pid = inr q /\ 0 < pid /\ v = process_entry q pid.

(** A tree every listing of which answers without an error, with PIDs
    above 0 only. *)
Fixpoint fully_listed (g : cgroup) : bool :=
  match g with
  | Cgroup procs_r procs procs_end subs_r subs subs_end =>
      (0 <=? procs_r) && negb (procs_r =? ENOENT) && (0 <=? procs_end) &&
      (0 <=? subs_r) && (0 <=? subs_end) &&
      forallb (fun pid => 0 <? pid) procs &&
      (fix below (l : list (string * cgroup)) : bool :=
         match l with
         | [] => true
         | (_, child) :: rest => fully_listed child && below rest
         end) subs
  end.

(** Every PID in the de-duplication set is reported in the reply. *)
Definition covered (s : walk) : Prop :=
  forall pid,
    pid ∈ seen s -> Some (uint32_of pid) ∈ map reported_pid (reply_elems s).

(** Every element of the reply under construction satisfies [Q]. *)
Definition entries_are (Q : bus_value -> Prop) (s : walk) : Prop :=
  Forall Q (reply_elems s).

End MoreReadings.

Section AttachReadings.
Context `{Collaborators}.

(** The processes the entries of the PID array stand for, one for one. *)
Definition resolved (creds : sd_bus_creds) (upids l : list Z) : Prop :=
  Forall2 (fun upid pid => requested_pid creds upid = inr pid) upids l.

(** The set [bus_unit_method_attach_processes] hands to the resource
    controller for the processes [l]: NULL when there are none. *)
Definition migrated_set (l : list Z) : option (gset Z) :=
  match l with
  | [] => None
  | _ => Some (list_to_set l)
  end.

(** An entry of the PID array that names a process the unit can take,
    and which the set can take in. *)
Definition pid_attachable (u : Unit) (creds : sd_bus_creds) (upid : Z)
  : Prop :=
  exists pid,
    requested_pid creds upid = inr pid /\
    unit_pid_attachable u pid = inr tt /\ 0 <= set_put_new pid.

End AttachReadings.

(** The announcement discipline of a trace of calls: nothing was
    broadcast yet, or the first broadcast is the UnitNew one and no later
    broadcast is. *)
Definition announced_once (trace : list broadcast) : Prop :=
  match trace with
  | [] => True
  | b :: rest =>
      bc_sender b = send_new_signal /\
      Forall (fun b' => bc_sender b' <> send_new_signal) rest
  end.

(** The notification state agrees with the trace: the flag
    [sent_dbus_new_signal] is set exactly when something was broadcast. *)
Definition announce_inv (w : World) : Prop :=
  announced_once (bus w) /\
  (sent_dbus_new_signal (unit_of w) = true <-> bus w <> []).

(** The same discipline on what went out: the first broadcast is made by
    [send_new_signal] and puts UnitNew on the bus unless its sending
    fails, and no later broadcast puts UnitNew there. *)
Definition announced_first (trace : list broadcast) : Prop :=
  match trace with
  | [] => True
  | b :: rest =>
      bc_sender b = send_new_signal /\
      (is_ok (bc_outcome b) = true ->
       delivers (signal_is "UnitNew") b = true) /\
      Forall (fun b' => delivers (signal_is "UnitNew") b' = false) rest
  end.

Section TransientReadings.
Context `{Collaborators}.

(** No per-type handler takes the property [name]: each answers 0 and
    leaves the world alone. *)
Definition handlers_decline (name : string) : Prop :=
  forall t handler message f w,
    vtable_bus_set_property t = Some handler ->
    handler name message f w = (inr 0, w).

(** The dependency kind a property name stands for, lines 1710-1715, with
    the two obsolete names redirected; negative when it stands for
    none. *)
Definition dependency_kind (name : string) : Z :=
  if streq name "RequiresOverridable" then UNIT_REQUIRES
  else if streq name "RequisiteOverridable" then UNIT_REQUISITE
  else unit_dependency_from_string name.

(** The first name of a list that is no valid unit name, plain or
    instance. *)
Definition first_invalid_name (names : list string) : option string :=
  List.find
    (fun other =>
       negb (unit_name_is_valid other
               (Z.lor UNIT_NAME_PLAIN UNIT_NAME_INSTANCE))) names.

End TransientReadings.

(** ** A small concrete system

    Collaborators simple enough to run: they are used to evaluate the
    model on concrete calls. *)

Record sample_config : Type := mkSampleConfig {
  sc_active : UnitActiveState;
  sc_can_reload : bool;
  sc_delegate : bool;
  sc_main_pid : Z;
  sc_control_pid : Z;
  sc_kernel_threads : list Z;
  sc_process_uids : list (Z * Z);
  (* memory runs out while the unit's object path is built, until the
     unit has been through its first change notification *)
  sc_first_path_fails : bool
}.

Definition USEC_INFINITY : Z := 2 ^ 64 - 1.

Definition has_prefix (pre s : string) : bool := String.prefix pre s.

Definition has_suffix (suf s : string) : bool :=
  let n := String.length s in
  let k := String.length suf in
  (k <=? n)%nat && bool_decide (String.substring (n - k) k s = suf).

Definition lookup_uid (table : list (Z * Z)) (pid : Z) : result Z :=
  match List.find (fun e => fst e =? pid) table with
  | Some e => inr (snd e)
  | None => inl (Errno (- ESRCH))
  end.

Definition sample_condition_table : list (string * Z) :=
  [("ConditionArchitecture", 0); ("ConditionHost", 2);
   ("ConditionPathExists", 10); ("ConditionDirectoryNotEmpty", 17);
   ("ConditionNull", 23)].

Definition sample_assert_table : list (string * Z) :=
  [("AssertArchitecture", 0); ("AssertHost", 2); ("AssertPathExists", 10);
   ("AssertDirectoryNotEmpty", 17); ("AssertNull", 23)].

Definition table_from_string (table : list (string * Z)) (s : string) : Z :=
  match List.find (fun e => bool_decide (fst e = s)) table with
  | Some e => snd e
  | None => -1
  end.

Definition table_to_string (table : list (string * Z)) (t : Z)
  : option string :=
  match List.find (fun e => snd e =? t) table with
  | Some e => Some (fst e)
  | None => None
  end.

Definition sample_dependency_table : list (string * Z) :=
  [("Requires", 0); ("Requisite", 1); ("Wants", 2); ("BindsTo", 3);
   ("Conflicts", 10); ("Before", 12); ("After", 13)].

Definition sample (c : sample_config) : Collaborators := {|
  UNIT_RUNTIME := 1;
  UNIT_PERSISTENT := 2;
  UNIT_ESCAPE_SPECIFIERS := 4;
  UNIT_PRIVATE := 16;
  UNIT_DEPENDENCY_FILE := 1;
  unit_active_state := fun _ => sc_active c;
  unit_can_reload := fun _ => sc_can_reload c;
  unit_cgroup_delegate := fun _ => sc_delegate c;
  unit_main_pid := fun _ => sc_main_pid c;
  unit_control_pid := fun _ => sc_control_pid c;
  unit_dbus_path := fun u =>
    if sc_first_path_fails c && negb (sent_dbus_new_signal u) then None
    else
      match id u with
      | Some i => Some ("/org/freedesktop/systemd1/unit/" +:+ i)
      | None => None
      end;
  unit_dbus_interface_from_type := fun t =>
    match t with
    | UNIT_SERVICE => "org.freedesktop.systemd1.Service"
    | UNIT_SLICE => "org.freedesktop.systemd1.Slice"
    | UNIT_SCOPE => "org.freedesktop.systemd1.Scope"
    | _ => "org.freedesktop.systemd1.Other"
    end;
  unit_has_name := fun u n => bool_decide (id u = Some n);
  UNIT_HAS_CGROUP_CONTEXT := fun u =>
    match type u with
    | UNIT_SERVICE | UNIT_SLICE | UNIT_SCOPE | UNIT_SOCKET | UNIT_MOUNT
    | UNIT_SWAP => true
    | _ => false
    end;
  unit_pid_attachable := fun _ pid =>
    if pid <=? 1 then
      inl (BusError SD_BUS_ERROR_INVALID_ARGS
             "Process %i is not attachable." [ArgPid pid])
    else inr tt;
  unit_attach_pids_to_cgroup := fun _ _ _ => 0;
  unit_set_description := fun d => update_unit (set_description d);
  unit_set_slice := fun s => update_unit (set_slice (Some s));
  unit_require_mounts_for := fun p _ =>
    update_unit (fun u => set_requires_mounts_for (requires_mounts_for u ++ [p]) u);
  unit_add_dependency_by_name := fun d other _ =>
    update_unit (fun u => set_dependencies (dependencies u ++ [(d, other)]) u);
  vtable_bus_set_property := fun t =>
    match t with
    | UNIT_DEVICE | UNIT_TARGET => None
    | _ => Some (fun _ _ _ => ret 0)
    end;
  vtable_bus_commit_properties := fun _ => None;
  UNIT_NAME_PLAIN := 1;
  UNIT_NAME_INSTANCE := 2;
  unit_name_is_valid := fun s _ =>
    has_suffix ".service" s || has_suffix ".slice" s || has_suffix ".scope" s
    || has_suffix ".target" s;
  SPECIAL_INIT_SCOPE := "init.scope";
  UNIT_REQUIRES := 0;
  UNIT_REQUISITE := 1;
  unit_dependency_from_string := table_from_string sample_dependency_table;
  unit_dependency_to_string := fun d =>
    strempty (table_to_string sample_dependency_table d);
  job_type_to_access_method := fun t =>
    match t with
    | JOB_START | JOB_RESTART | JOB_TRY_RESTART => "start"
    | JOB_STOP => "stop"
    | JOB_RELOAD | JOB_RELOAD_OR_START | JOB_TRY_RELOAD => "reload"
    | _ => "status"
    end;
  job_type_collapse := fun t _ =>
    let down :=
      bool_decide (sc_active c = UNIT_INACTIVE) ||
      bool_decide (sc_active c = UNIT_FAILED) ||
      bool_decide (sc_active c = UNIT_DEACTIVATING) in
    match t with
    | JOB_TRY_RESTART => if down then JOB_NOP else JOB_RESTART
    | JOB_TRY_RELOAD => if down then JOB_NOP else JOB_RELOAD
    | JOB_RELOAD_OR_START => if down then JOB_START else JOB_RELOAD
    | _ => t
    end;
  job_dbus_path := fun j =>
    Some ("/org/freedesktop/systemd1/job/" +:+ pretty (job_id j));
  job_mode_from_string := table_from_string [("fail", 0); ("replace", 1)];
  manager_add_job := fun t mode w =>
    let m := manager w in
    let j := mkJob (Z.of_nat (length (queued_jobs m)) + 1) t mode in
    (inr j,
     with_manager
       (mkManager (dbus_unit_queue m) (loaded_units m) (queued_jobs m ++ [j]))
       w);
  bus_job_track_sender := fun _ => ret tt;
  manager_load_unit_prepare := fun s m =>
    match List.find (fun e => bool_decide (fst e = s)) (loaded_units m) with
    | Some e => (inr (snd e), m)
    | None =>
        let t := if has_suffix ".slice" s then UNIT_SLICE else UNIT_SERVICE in
        (inr t,
         mkManager (dbus_unit_queue m) (loaded_units m ++ [(s, t)])
           (queued_jobs m))
    end;
  CONDITION_NULL := 23;
  condition_type_from_string := table_from_string sample_condition_table;
  assert_type_from_string := table_from_string sample_assert_table;
  condition_type_to_string := table_to_string sample_condition_table;
  assert_type_to_string := table_to_string sample_assert_table;
  condition_takes_path := fun t => (10 <=? t) && (t <=? 18);
  emergency_action_from_string :=
    table_from_string [("none", 0); ("reboot", 1); ("poweroff", 4)];
  collect_mode_from_string :=
    table_from_string [("inactive", 0); ("inactive-or-failed", 1)];
  path_is_absolute := has_prefix "/";
  path_is_normalized := fun p => negb (has_suffix "/.." p);
  documentation_url_is_valid := fun s =>
    has_prefix "man:" s || has_prefix "http://" s || has_prefix "https://" s;
  mac_selinux_unit_access_check := fun _ _ => inr tt;
  is_kernel_thread := fun pid =>
    if bool_decide (pid ∈ sc_kernel_threads c) then 1 else 0;
  cg_pid_get_path := fun pid =>
    match lookup_uid (sc_process_uids c) pid with
    | inr _ => inr "/elsewhere.slice"
    | inl e => inl e
    end;
  get_process_cmdline := fun pid =>
    if pid =? 1 then Some "/sbin/init" else None;
  get_process_uid := lookup_uid (sc_process_uids c);
  getuid := 0;
  set_new := true;
  set_put_new := fun _ => 1;
  sd_bus_message_new_method_return := 0;
  sd_bus_message_open_container := 0;
  sd_bus_message_close_container := 0;
  sd_bus_message_enter_container := 1;
  sd_bus_message_exit_container := 1;
  sd_bus_send := fun _ => 1;
  sd_bus_reply_method_return := 1;
  usec_fix_0 := fun v => if v =? 0 then USEC_INFINITY else v
|}.

Definition sample_unit : Unit :=
  mkUnit (Some "demo.service") UNIT_SERVICE UNIT_STUB true
    None [] None false false false false true false
    1 0 0 false 0 None (mkRateLimit 0 0) 0 0 0 None 0
    [] [] None [] [] []
    None (Some "/system.slice/demo.service") 1000
    false false false.

Definition sample_world (u : Unit) : World :=
  mkWorld 1%positive u (mkManager [] [] []) [] [].

Definition running : sample_config :=
  mkSampleConfig UNIT_ACTIVE true true 0 0 [2]
    [(1, 0); (100, 1000); (101, 1001); (102, 1000)] false.

Definition sample_job : Job := mkJob 7 JOB_START 1.

(** Memory runs out while the unit is announced. *)
Definition first_send_fails : sample_config :=
  mkSampleConfig UNIT_ACTIVE true true 0 0 [2]
    [(1, 0); (100, 1000); (101, 1001); (102, 1000)] true.

(** What other code does to the unit between two notifications: here it
    marks the unit as waiting in the queue of pending change signals. *)
Definition queue_change (w : World) : World :=
  with_unit (set_in_dbus_queue true (unit_of w)) w.

Definition stopped : sample_config :=
  mkSampleConfig UNIT_INACTIVE true true 0 0 [2]
    [(1, 0); (100, 1000); (101, 1001); (102, 1000)] false.

Definition undelegated : sample_config :=
  mkSampleConfig UNIT_ACTIVE true false 0 0 [2]
    [(1, 0); (100, 1000); (101, 1001); (102, 1000)] false.

Definition sample_creds : sd_bus_creds := mkCreds (inr 100) (inr 1000).

(** A tree in which PID 100 shows up in two groups, PID 2 is a kernel
    thread, and the subgroup "b" has no further subgroups left to list. *)
Definition sample_tree : cgroup :=
  Cgroup 0 [100; 2; 101] 0 0
    [("a", Cgroup 0 [100; 102] 0 0 [] 0);
     ("b", Cgroup 0 [] 0 (- ENOENT) [] 0)] 0.

(** The same walk, but the subgroup "b" went away before its processes
    were listed. *)
Definition vanishing_tree : cgroup :=
  Cgroup 0 [100; 2; 101] 0 0
    [("a", Cgroup 0 [100; 102] 0 0 [] 0);
     ("b", Cgroup (- ENOENT) [] 0 0 [] 0)] 0.

Definition with_main_pid : sample_config :=
  mkSampleConfig UNIT_ACTIVE true true 100 1 [2]
    [(1, 0); (100, 1000); (101, 1001); (102, 1000)] false.

Definition host_a : condition_entry := ("ConditionHost", false, false, "a").
Definition host_b : condition_entry := ("ConditionHost", false, true, "b").

(** A transient stub unit that already carries one condition. *)
Definition earlier_condition : Condition :=
  mkCondition 10 true false (Some "/c") CONDITION_UNTESTED.

Definition conditioned_world : World :=
  sample_world (set_conditions [earlier_condition] sample_unit).

(** A batch whose second entry names a condition type that does not
    exist. *)
Definition sample_batch : list (string * bus_value) :=
  [("Description", BusString "a demonstration");
   ("Conditions", encode_conditions [("ConditionNoSuchThing", false, false, "x")]);
   ("AllowIsolate", BusBool true)].

(** ** More of the concrete system *)

Definition sample_services : Services := {|
  unit_can_start := fun _ => true;
  unit_can_stop := fun _ => true;
  unit_can_isolate := fun _ => false;
  unit_get_unit_file_preset := fun _ => 1;
  unit_kill := fun _ _ => ret tt;
  unit_reset_failed := ret tt;
  load_error := fun _ => - ENOENT;
  unit_get_memory_current := fun _ => inr 4096;
  unit_get_tasks_current := fun _ => inl (Errno (- 61));
  unit_get_cpu_usage := fun _ => inr 1000;
  unit_get_ip_accounting := fun _ _ => inl (Errno (- 61));
  CGROUP_IP_INGRESS_BYTES := 0;
  CGROUP_IP_INGRESS_PACKETS := 1;
  CGROUP_IP_EGRESS_BYTES := 2;
  CGROUP_IP_EGRESS_PACKETS := 3;
  KILL_ALL := 2;
  kill_who_from_string :=
    table_from_string [("main", 0); ("control", 1); ("all", 2)];
  NSIG := 65;
  job_type_to_string := fun t =>
    match t with
    | JOB_START => "start"
    | JOB_VERIFY_ACTIVE => "verify-active"
    | JOB_STOP => "stop"
    | JOB_RELOAD => "reload"
    | JOB_RESTART => "restart"
    | JOB_NOP => "nop"
    | JOB_TRY_RESTART => "try-restart"
    | JOB_TRY_RELOAD => "try-reload"
    | JOB_RELOAD_OR_START => "reload-or-start"
    end;
  bus_verify_polkit_async := fun _ _ _ _ => ret 1;
  CAP_SYS_ADMIN := 21;
  CAP_KILL := 5;
  GETTEXT_PACKAGE := "systemd";
  sd_bus_track := list string;
  sd_bus_track_new := inr [];
  sd_bus_track_set_recursive := fun t _ => inr t;
  sd_bus_track_add_name := fun t name => inr (name :: t);
  sd_bus_track_add_sender := fun t m => inr (m :: t);
  sd_bus_track_remove_sender := fun t m =>
    if bool_decide (m ∈ t) then inr (List.remove String.string_dec m t)
    else inl (Errno (- ENXIO))
|}.

Definition unreloadable : sample_config :=
  mkSampleConfig UNIT_ACTIVE false true 0 0 [2]
    [(1, 0); (100, 1000); (101, 1001); (102, 1000)] false.

Definition refusing_unit : Unit :=
  set_refuse_manual_start true (set_refuse_manual_stop true sample_unit).

Definition valid_batch : list (string * bus_value) :=
  [("Description", BusString "a demonstration");
   ("AllowIsolate", BusBool true)].

Definition timeout_batch : list (string * bus_value) :=
  [("Description", BusString "a demonstration");
   ("JobTimeoutUSec", BusUInt64 5000000)].

(** A unit loaded from a file: neither transient nor a stub. *)
Definition loaded_unit : Unit :=
  mkUnit (Some "demo.service") UNIT_SERVICE UNIT_LOADED false
    None [] None false false false false true false
    1 0 0 false 0 None (mkRateLimit 0 0) 0 0 0 None 0
    [] [] None [] [] []
    None (Some "/system.slice/demo.service") 1000
    false false false.

Definition description_batch : list (string * bus_value) :=
  [("Description", BusString "a demonstration");
   ("Description", BusString "renamed")].

(** A tree every listing of which answers: PID 100 shows up in two
    groups and PID 2 is a kernel thread. *)
Definition listed_tree : cgroup :=
  Cgroup 0 [100; 2; 101] 0 0
    [("a", Cgroup 0 [100; 102] 0 0 [] 0);
     ("b", Cgroup 0 [103] 0 0 [] 0)] 0.

Definition root_creds : sd_bus_creds := mkCreds (inr 100) (inr 0).

(** A tracking state with no watch object yet. *)
Definition untracked : @Tracking sample_services :=
  @mkTracking sample_services None 0.

(** * Properties *)

(** ** Reasoning about the monad *)

Lemma preserves_ret {S A} (P : S -> Prop) (a : A) : preserves P (ret a).
Proof. intros s Hs. exact Hs. Qed.

Lemma preserves_fail {S A} (P : S -> Prop) (e : failure) :
  preserves P (fail (A := A) e).
Proof. intros s Hs. exact Hs. Qed.

Lemma preserves_lift {S A} (P : S -> Prop) (r : result A) :
  preserves P (lift r).
Proof. intros s Hs. exact Hs. Qed.

Lemma preserves_get {S} (P : S -> Prop) : preserves P get.
Proof. intros s Hs. exact Hs. Qed.

Lemma preserves_bind {S A B} (P : S -> Prop) (c : M S A) (k : A -> M S B) :
  preserves P c -> (forall a, preserves P (k a)) -> preserves P (bind c k).
Proof.
  intros Hc Hk s Hs. unfold bind. specialize (Hc s Hs).
  destruct (c s) as [[e | a] s']; cbn in *; [exact Hc | apply Hk, Hc].
Qed.

Lemma preserves_logged {S A} (P : S -> Prop) (c : M S A) :
  preserves P c -> preserves P (logged c).
Proof. intros Hc s Hs. apply Hc, Hs. Qed.

Lemma preserves_if {S A} (P : S -> Prop) (b : bool) (c1 c2 : M S A) :
  preserves P c1 -> preserves P c2 -> preserves P (if b then c1 else c2).
Proof. destruct b; auto. Qed.

Lemma preserves_checked {S} (P : S -> Prop) (r : Z) :
  preserves P (checked r).
Proof. intros s Hs. unfold checked. destruct (r <? 0); exact Hs. Qed.

Create HintDb preserves discriminated.
#[global] Hint Resolve preserves_ret preserves_fail preserves_lift
  preserves_get preserves_logged preserves_if preserves_checked : preserves.

Lemma bind_inr {S A B} (c : M S A) (k : A -> M S B) (s s2 : S) (b : B) :
  bind c k s = (inr b, s2) ->
  exists a s1, c s = (inr a, s1) /\ k a s1 = (inr b, s2).
Proof.
  unfold bind. destruct (c s) as [[e | a] s1]; [discriminate|]. eauto.
Qed.

(** A step that only tests a return value leaves the state alone. *)
Lemma checked_inr {S} (r : Z) (s s' : S) (a : unit) :
  checked r s = (inr a, s') -> 0 <= r /\ s' = s.
Proof.
  unfold checked. destruct (Z.ltb_spec r 0); [discriminate|].
  intros Heq. injection Heq as _ <-. auto.
Qed.

(** ** Property getters *)

Section Getters.
Context `{Collaborators}.

(** C9. The ControlGroup property keeps the three states of the cgroup
    path apart: no path is reported as the empty string, the empty path as
    "/", and any other path as it is. *)
Theorem property_get_cgroup_tri_state (u : Unit) (reply : sd_bus_message) :
  property_get_cgroup u reply =
  inr (reply ++
       [BusString match cgroup_path u with
                  | None => ""
                  | Some "" => "/"
                  | Some p => p
                  end]).
Proof.
  unfold property_get_cgroup, sd_bus_message_append, empty_to_root.
  destruct (cgroup_path u) as [[|c p]|]; reflexivity.
Qed.

Example property_get_cgroup_none :
  property_get_cgroup (set_cgroup_path None sample_unit) [] = inr [BusString ""].
Proof. reflexivity. Qed.

Example property_get_cgroup_root :
  property_get_cgroup (set_cgroup_path (Some "") sample_unit) [] =
  inr [BusString "/"].
Proof. reflexivity. Qed.

Example property_get_cgroup_foo :
  property_get_cgroup (set_cgroup_path (Some "/foo") sample_unit) [] =
  inr [BusString "/foo"].
Proof. reflexivity. Qed.

(** C10. Without an outstanding job the Job property is the pair
    (0, "/"); with one it is the job's numeric id and the job's object
    path. *)
Theorem property_get_job_encoding (u : Unit) (reply : sd_bus_message) :
  (job u = None ->
   property_get_job u reply =
   inr (reply ++ [BusStruct [BusUInt32 0; BusObjectPath "/"]])) /\
  (forall j p,
     job u = Some j -> job_dbus_path j = Some p ->
     property_get_job u reply =
     inr (reply ++ [BusStruct [BusUInt32 (job_id j); BusObjectPath p]])).
Proof.
  unfold property_get_job, sd_bus_message_append. split.
  - intros ->. reflexivity.
  - intros j p -> ->. reflexivity.
Qed.

End Getters.

Lemma property_get_job_encoding_witness :
  property_get_job (H := sample running) sample_unit [] =
    inr [BusStruct [BusUInt32 0; BusObjectPath "/"]] /\
  property_get_job (H := sample running) (set_job (Some sample_job) sample_unit) [] =
    inr [BusStruct [BusUInt32 7;
                    BusObjectPath "/org/freedesktop/systemd1/job/7"]].
Proof.
  split.
  - apply (proj1 (property_get_job_encoding (H := sample running) sample_unit [])).
    reflexivity.
  - apply (proj2 (property_get_job_encoding (H := sample running)
                    (set_job (Some sample_job) sample_unit) [])
             sample_job "/org/freedesktop/systemd1/job/7");
      reflexivity.
Defined.

(** ** Change signal emitter *)

Section Signals.
Context `{Collaborators}.

Lemma removed_after_change_nil : removed_after_change [].
Proof. intros [|c pre] b post Heq; discriminate. Qed.

Lemma trace_snoc_split (tr pre post : list broadcast) (b x : broadcast) :
  tr ++ [b] = pre ++ x :: post ->
  (post = [] /\ pre = tr /\ x = b) \/
  (exists post', post = post' ++ [b] /\ tr = pre ++ x :: post').
Proof.
  destruct post as [|y post' _] using rev_ind; intros Heq.
  - left. apply app_inj_tail in Heq as [-> ->]. auto.
  - right. exists post'.
    change (pre ++ x :: post' ++ [y]) with (pre ++ (x :: post') ++ [y]) in Heq.
    rewrite app_assoc in Heq.
    apply app_inj_tail in Heq as [-> ->]. auto.
Qed.

Lemma removed_after_change_snoc_change tr b :
  removed_after_change tr -> is_change b -> removed_after_change (tr ++ [b]).
Proof.
  intros Htr Hb pre x post Heq Hx.
  apply trace_snoc_split in Heq as [(_ & _ & ->) | (post' & _ & ->)].
  - destruct Hb as [Hb | Hb]; congruence.
  - eapply Htr; eauto.
Qed.

Lemma removed_after_change_snoc_removed tr b :
  removed_after_change tr -> Exists is_change tr ->
  removed_after_change (tr ++ [b]).
Proof.
  intros Htr Hex pre x post Heq Hx.
  apply trace_snoc_split in Heq as [(_ & -> & _) | (post' & _ & ->)].
  - exact Hex.
  - eapply Htr; eauto.
Qed.

Lemma dequeued_unit_fields w :
  id (unit_of (dequeued w)) = id (unit_of w) /\
  sent_dbus_new_signal (unit_of (dequeued w)) = sent_dbus_new_signal (unit_of w) /\
  in_dbus_queue (unit_of (dequeued w)) = false /\
  bus (dequeued w) = bus w.
Proof.
  unfold dequeued. destruct (in_dbus_queue (unit_of w)) eqn:E; cbn; auto.
Qed.

Lemma bus_unit_send_change_signal_world w :
  snd (bus_unit_send_change_signal w) =
  let w1 := dequeued w in
  match id (unit_of w) with
  | None => w1
  | Some _ =>
      let send :=
        if sent_dbus_new_signal (unit_of w) then send_changed_signal
        else send_new_signal in
      with_unit (set_sent_dbus_new_signal true (unit_of w1))
        (with_bus (bus w1 ++ [mkBroadcast send (run_sender send (unit_of w1))])
           w1)
  end.
Proof.
  unfold bus_unit_send_change_signal, dequeued, bind, get_unit, update_unit,
    modify, logged, bus_foreach_bus, ret.
  destruct (in_dbus_queue (unit_of w)); cbn;
    destruct (id (unit_of w)); cbn; try reflexivity;
    destruct (sent_dbus_new_signal (unit_of w)); reflexivity.
Qed.

Lemma bus_unit_send_removed_signal_world w :
  snd (bus_unit_send_removed_signal w) =
  let w1 :=
    if negb (sent_dbus_new_signal (unit_of w)) || in_dbus_queue (unit_of w)
    then snd (bus_unit_send_change_signal w) else w in
  match id (unit_of w1) with
  | None => w1
  | Some _ =>
      with_bus
        (bus w1 ++
         [mkBroadcast send_removed_signal
            (run_sender send_removed_signal (unit_of w1))]) w1
  end.
Proof.
  unfold bus_unit_send_removed_signal.
  unfold bind at 1. unfold get_unit at 1. cbn beta iota.
  destruct (negb (sent_dbus_new_signal (unit_of w)) || in_dbus_queue (unit_of w)).
  - unfold bind at 1. unfold bind at 1.
    destruct (bus_unit_send_change_signal w) as [[e | []] w1] eqn:E; cbn.
    + exfalso. revert E. unfold bus_unit_send_change_signal, bind, get_unit,
        update_unit, modify, logged, ret.
      repeat (match goal with |- context [if ?b then _ else _] => destruct b end; cbn);
      repeat (match goal with |- context [match ?b with Some _ => _ | None => _ end] => destruct b end; cbn);
      discriminate.
    + unfold bind, get_unit, logged, bus_foreach_bus.
      destruct (id (unit_of w1)); reflexivity.
  - unfold bind, get_unit, logged, bus_foreach_bus, ret. cbn.
    destruct (id (unit_of w)); reflexivity.
Qed.

Lemma notify_inv_change w :
  notify_inv w -> notify_inv (snd (bus_unit_send_change_signal w)).
Proof.
  intros [Hord Hsent]. rewrite bus_unit_send_change_signal_world. cbn zeta.
  destruct (dequeued_unit_fields w) as (Hid & Hs & _ & Hbus).
  destruct (id (unit_of w)) eqn:Eid.
  - split; cbn; rewrite Hbus.
    + apply removed_after_change_snoc_change; [exact Hord|].
      destruct (sent_dbus_new_signal (unit_of w)); [right | left]; reflexivity.
    + intros _. apply Exists_app. right. constructor.
      destruct (sent_dbus_new_signal (unit_of w)); [right | left]; reflexivity.
  - split; rewrite Hbus; [exact Hord | rewrite Hs; exact Hsent].
Qed.

Lemma notify_inv_removed w :
  notify_inv w -> notify_inv (snd (bus_unit_send_removed_signal w)).
Proof.
  intros Hinv. rewrite bus_unit_send_removed_signal_world. cbn zeta.
  destruct (negb (sent_dbus_new_signal (unit_of w)) || in_dbus_queue (unit_of w))
    eqn:Ecall.
  - pose proof (notify_inv_change w Hinv) as [Hord Hsent].
    pose proof (bus_unit_send_change_signal_world w) as Hw. cbn zeta in Hw.
    destruct (dequeued_unit_fields w) as (Hid & Hs & _ & Hbus).
    set (w1 := snd (bus_unit_send_change_signal w)) in *.
    destruct (id (unit_of w1)) eqn:Eid1; [|split; assumption].
    assert (Hsent1 : sent_dbus_new_signal (unit_of w1) = true).
    { rewrite Hw in Eid1 |- *. destruct (id (unit_of w)) eqn:Eid; [reflexivity|].
      rewrite Hid in Eid1. congruence. }
    split; cbn.
    + apply removed_after_change_snoc_removed; auto.
    + intros _. apply Exists_app. left. auto.
  - apply orb_false_iff in Ecall as [Hs _]. apply negb_false_iff in Hs.
    destruct Hinv as [Hord Hsent].
    destruct (id (unit_of w)); [|split; assumption].
    split; cbn.
    + apply removed_after_change_snoc_removed; auto.
    + intros _. apply Exists_app. left. auto.
Qed.

Lemma notify_inv_step w op :
  match op with
  | Elsewhere f => keeps_announcement f
  | _ => True
  end ->
  notify_inv w -> notify_inv (notify w op).
Proof.
  destruct op as [| |f]; cbn [notify]; intros Hop.
  - apply notify_inv_change.
  - apply notify_inv_removed.
  - intros [Hord Hsent]. destruct (Hop w) as [Hbus Hflag].
    split; rewrite Hbus; [exact Hord | rewrite Hflag; exact Hsent].
Qed.

Lemma notify_inv_all ops :
  quiet ops -> forall w, notify_inv w -> notify_inv (notify_all ops w).
Proof.
  induction 1 as [|op ops Hop _ IH]; intros w Hw; [exact Hw|].
  apply IH, notify_inv_step; assumption.
Qed.

(** The broadcasts record what the senders made. *)
Lemma sent_by_senders_snoc tr send u :
  sent_by_senders tr ->
  sent_by_senders (tr ++ [mkBroadcast send (run_sender send u)]).
Proof.
  intros Htr. apply Forall_app. split; [exact Htr|].
  constructor; [|constructor]. exists u. reflexivity.
Qed.

Lemma sent_by_senders_change w :
  sent_by_senders (bus w) ->
  sent_by_senders (bus (snd (bus_unit_send_change_signal w))).
Proof.
  intros Hw. rewrite bus_unit_send_change_signal_world. cbn zeta.
  destruct (dequeued_unit_fields w) as (_ & _ & _ & Hbus).
  destruct (id (unit_of w)); [|rewrite Hbus; exact Hw].
  cbn. rewrite Hbus. apply sent_by_senders_snoc, Hw.
Qed.

Lemma sent_by_senders_removed w :
  sent_by_senders (bus w) ->
  sent_by_senders (bus (snd (bus_unit_send_removed_signal w))).
Proof.
  intros Hw. rewrite bus_unit_send_removed_signal_world. cbn zeta.
  assert (Hstep : forall w1,
            sent_by_senders (bus w1) ->
            sent_by_senders
              (bus match id (unit_of w1) with
                   | None => w1
                   | Some _ =>
                       with_bus
                         (bus w1 ++
                          [mkBroadcast send_removed_signal
                             (run_sender send_removed_signal (unit_of w1))])
                         w1
                   end)).
  { intros w1 Hw1. destruct (id (unit_of w1)); [|exact Hw1].
    cbn. apply sent_by_senders_snoc, Hw1. }
  destruct (negb _ || _); apply Hstep; [apply sent_by_senders_change|];
    exact Hw.
Qed.

Lemma sent_by_senders_all ops :
  quiet ops ->
  forall w,
    sent_by_senders (bus w) -> sent_by_senders (bus (notify_all ops w)).
Proof.
  induction 1 as [|op ops Hop _ IH]; intros w Hw; [exact Hw|].
  apply IH. destruct op as [| |f]; cbn [notify].
  - apply sent_by_senders_change, Hw.
  - apply sent_by_senders_removed, Hw.
  - destruct (Hop w) as [-> _]. exact Hw.
Qed.

(** What the outcome of a broadcast says about its sender. *)
Lemma removed_signal_sender b :
  (exists u, bc_outcome b = run_sender (bc_sender b) u) ->
  delivers (signal_is "UnitRemoved") b = true ->
  bc_sender b = send_removed_signal.
Proof.
  destruct b as [send outcome]. cbn [bc_sender bc_outcome].
  intros [u ->]. unfold delivers, delivered, run_sender. cbn [bc_outcome].
  destruct (unit_dbus_path u); [|discriminate].
  destruct send; [vm_compute; discriminate.. | reflexivity].
Qed.

Lemma change_goes_out b :
  (exists u, bc_outcome b = run_sender (bc_sender b) u) ->
  is_change b -> is_ok (bc_outcome b) = true ->
  delivers change_signal b = true.
Proof.
  destruct b as [send outcome]. unfold is_change.
  cbn [bc_sender bc_outcome].
  intros [u ->]. unfold delivers, delivered, run_sender. cbn [bc_outcome].
  destruct (unit_dbus_path u); [|discriminate].
  intros [-> | ->] _; reflexivity.
Qed.

Lemma removed_seen tr :
  removed_after_change tr -> sent_by_senders tr -> changes_sent tr ->
  removed_seen_after_change tr.
Proof.
  intros Hcall Hwf Hsent pre b post -> Hdel.
  unfold sent_by_senders, changes_sent in *.
  apply Forall_app in Hwf as [Hwf_pre Hwf_b].
  apply Forall_app in Hsent as [Hsent_pre _].
  inversion Hwf_b as [|? ? Hb _]; subst.
  pose proof (removed_signal_sender b Hb Hdel) as Hsender.
  specialize (Hcall pre b post eq_refl Hsender).
  apply Exists_exists in Hcall as (c & Hin & Hc).
  apply Exists_exists. exists c. split; [exact Hin|].
  rewrite Forall_forall in Hwf_pre, Hsent_pre.
  apply change_goes_out; auto.
Qed.

Lemma unnamed_unit_is_silent w :
  id (unit_of w) = None ->
  bus (snd (bus_unit_send_change_signal w)) = bus w /\
  bus (snd (bus_unit_send_removed_signal w)) = bus w.
Proof.
  intros Hid. destruct (dequeued_unit_fields w) as (Hid' & _ & _ & Hbus).
  assert (Hchg : id (unit_of (snd (bus_unit_send_change_signal w))) = None /\
                 bus (snd (bus_unit_send_change_signal w)) = bus w).
  { rewrite bus_unit_send_change_signal_world. cbn zeta. rewrite Hid.
    rewrite Hid', Hbus. auto. }
  split; [apply Hchg|].
  rewrite bus_unit_send_removed_signal_world. cbn zeta.
  destruct (negb _ || _).
  - destruct Hchg as [Hi Hb]. rewrite Hi. exact Hb.
  - rewrite Hid. reflexivity.
Qed.

Lemma removed_sends_change_first w :
  id (unit_of w) <> None ->
  sent_dbus_new_signal (unit_of w) = false \/ in_dbus_queue (unit_of w) = true ->
  exists c r,
    bus (snd (bus_unit_send_removed_signal w)) = bus w ++ [c; r] /\
    is_change c /\ bc_sender r = send_removed_signal /\
    (exists u, bc_outcome c = run_sender (bc_sender c) u).
Proof.
  intros Hid Hcall.
  rewrite bus_unit_send_removed_signal_world. cbn zeta.
  assert (Hcond : negb (sent_dbus_new_signal (unit_of w))
                  || in_dbus_queue (unit_of w) = true).
  { destruct Hcall as [-> | ->]; [reflexivity | apply orb_true_r]. }
  rewrite Hcond, bus_unit_send_change_signal_world. cbn zeta.
  destruct (dequeued_unit_fields w) as (Hid' & _ & _ & Hbus).
  destruct (id (unit_of w)) as [i|] eqn:Eid; [|contradiction].
  cbn [unit_of with_unit with_bus id set_sent_dbus_new_signal].
  rewrite Hid'. cbn [bus with_bus with_unit]. rewrite Hbus, <- app_assoc.
  eexists _, _. split; [reflexivity|]. split; [|split; [reflexivity|]].
  - cbn [bc_sender]. unfold is_change.
    destruct (sent_dbus_new_signal (unit_of w)); auto.
  - eexists. reflexivity.
Qed.


End Signals.



(** ** Job dispatcher *)

Section Jobs.
Context `{Collaborators}.

(** C4, as the code has it. The reload downgrade comes first and the
    refuse-manual rejection looks at the downgraded operation: on a unit
    that refuses manual start, a restart request with [reload_if_possible]
    is rejected when the unit cannot reload, or when reload-or-start would
    collapse to a start; otherwise it is submitted as reload-or-start. *)
Theorem restart_downgraded_before_refusal (w : World) (mode : Z) :
  mac_selinux_unit_access_check (unit_of w)
    (job_type_to_access_method JOB_RESTART) = inr tt ->
  refuse_manual_start (unit_of w) = true ->
  bus_unit_queue_job JOB_RESTART mode true w =
  if unit_can_reload (unit_of w) &&
     negb (bool_decide
             (job_type_collapse JOB_RELOAD_OR_START (unit_of w) = JOB_START))
  then submit_job JOB_RELOAD_OR_START mode w
  else (inl (only_by_dependency (unit_of w)), w).
Proof.
  intros Hacc Hrefuse.
  unfold bus_unit_queue_job, bind, get_unit, lift, fail.
  rewrite Hacc, Hrefuse. cbn [andb].
  destruct (unit_can_reload (unit_of w)); cbn.
  - destruct (bool_decide (job_type_collapse JOB_RELOAD_OR_START (unit_of w)
                           = JOB_START)); reflexivity.
  - reflexivity.
Qed.

End Jobs.

Lemma restart_downgraded_before_refusal_witness :
  bus_unit_queue_job (H := sample running) JOB_RESTART 1 true
    (sample_world (set_refuse_manual_start true sample_unit)) =
  submit_job (H := sample running) JOB_RELOAD_OR_START 1
    (sample_world (set_refuse_manual_start true sample_unit)) /\
  bus_unit_queue_job (H := sample stopped) JOB_RESTART 1 true
    (sample_world (set_refuse_manual_start true sample_unit)) =
  (inl (only_by_dependency (set_refuse_manual_start true sample_unit)),
   sample_world (set_refuse_manual_start true sample_unit)).
Proof.
  split.
  - apply (restart_downgraded_before_refusal (H := sample running)
             (sample_world (set_refuse_manual_start true sample_unit)) 1);
      reflexivity.
  - apply (restart_downgraded_before_refusal (H := sample stopped)
             (sample_world (set_refuse_manual_start true sample_unit)) 1);
      reflexivity.
Defined.

(** C4, as stated, fails on an active unit that can reload and refuses
    manual start: the restart request is not rejected, it is answered with
    the path of a new job. *)
Lemma refusal_precedes_downgrade_fails :
  ~ refusal_precedes_downgrade (H := sample running)
      (sample_world (set_refuse_manual_start true sample_unit)) 1.
Proof.
  intros Hclaim. specialize (Hclaim eq_refl). vm_compute in Hclaim.
  discriminate.
Qed.

(** ** Attaching processes *)

Section Attach.
Context `{Collaborators}.

(** C6, as the code has it. Once the access check has passed, a unit
    without delegation, or one that is inactive or failed, fails the call
    with the invalid-argument class, the world untouched, and whatever the
    PIDs and the sender's credentials are. *)
Theorem attach_unavailable_is_invalid_args (w : World) (path : string)
    (upids : list Z) (sender : result sd_bus_creds) :
  mac_selinux_unit_access_check (unit_of w) "start" = inr tt ->
  unit_cgroup_delegate (unit_of w) = false \/
  UNIT_IS_INACTIVE_OR_FAILED (unit_active_state (unit_of w)) = true ->
  (exists e,
     bus_unit_method_attach_processes path upids sender w = (inl e, w) /\
     error_kind_of e = Some InvalidArgument) /\
  (forall upids' sender',
     bus_unit_method_attach_processes path upids' sender' w =
     bus_unit_method_attach_processes path upids sender w).
Proof.
  intros Hacc Hun.
  unfold bus_unit_method_attach_processes, bind, get_unit, lift, fail, ret.
  rewrite Hacc.
  destruct (empty_to_null path) as [p|];
    [destruct (path_is_absolute p); cbn;
     [destruct (path_is_normalized p); cbn|]|];
    try (split; [eexists; split; reflexivity | reflexivity]);
    (destruct (unit_cgroup_delegate (unit_of w)); cbn;
     [destruct Hun as [Hun | Hun]; [discriminate | rewrite Hun] |];
     (split; [eexists; split; reflexivity | reflexivity])).
Qed.

End Attach.

Lemma attach_unavailable_is_invalid_args_witness :
  (exists e,
     bus_unit_method_attach_processes (H := sample undelegated) ""
       [100] (inr (mkCreds (inr 100) (inr 1000))) (sample_world sample_unit) =
     (inl e, sample_world sample_unit) /\
     error_kind_of e = Some InvalidArgument) /\
  (forall upids' sender',
     bus_unit_method_attach_processes (H := sample undelegated) ""
       upids' sender' (sample_world sample_unit) =
     bus_unit_method_attach_processes (H := sample undelegated) ""
       [100] (inr (mkCreds (inr 100) (inr 1000))) (sample_world sample_unit)).
Proof.
  apply (attach_unavailable_is_invalid_args (H := sample undelegated)
           (sample_world sample_unit) "" [100]
           (inr (mkCreds (inr 100) (inr 1000)))).
  - reflexivity.
  - left. reflexivity.
Defined.

(** C6, as stated, fails on a unit without delegation: the failure is an
    invalid-argument error, not a [ResourceUnavailable] one. *)
Lemma unavailable_is_resource_unavailable_fails :
  ~ unavailable_is_resource_unavailable (H := sample undelegated)
      (sample_world sample_unit) "" [100]
      (inr (mkCreds (inr 100) (inr 1000))).
Proof.
  intros Hclaim. destruct Hclaim as (e & He & Hkind); [left; reflexivity|].
  vm_compute in He. injection He as <-. discriminate.
Qed.

Section AttachOwnership.
Context `{Collaborators}.

Lemma attach_processes_loop_cons u creds upid rest pids :
  attach_processes_loop u creds (upid :: rest) pids =
  match requested_pid creds upid with
  | inl e => (inl e, pids)
  | inr pid =>
      if set_contains pids pid then attach_processes_loop u creds rest pids
      else
        match unit_pid_attachable u pid with
        | inl e => (inl e, pids)
        | inr _ =>
            match creds_euid creds with
            | inl e => (inl e, pids)
            | inr sender_uid =>
                match ownership_check u sender_uid pid with
                | inl e => (inl e, pids)
                | inr _ =>
                    if negb (match pids with
                             | None => set_new
                             | Some _ => true
                             end)
                    then (inl (Errno (- ENOMEM)), pids)
                    else if set_put_new pid <? 0 then
                      (inl (Errno (set_put_new pid)), Some (default ∅ pids))
                    else
                      attach_processes_loop u creds rest
                        (Some ({[pid]} ∪ default ∅ pids))
                end
            end
        end
  end.
Proof.
  cbn [attach_processes_loop].
  unfold bind, lift, ret, fail, get, modify, checked, requested_pid,
    ownership_check.
  assert (Htail : forall pid,
            (let (r, s') :=
               match pids with
               | Some _ => fun s : option (gset Z) => (inr tt, s)
               | None =>
                   if set_new
                   then fun _ : option (gset Z) => (inr tt, Some ∅)
                   else fun s : option (gset Z) =>
                          (inl (Errno (- ENOMEM)), s)
               end pids in
             match r with
             | inr _ =>
                 let (r0, s'0) :=
                   (if set_put_new pid <? 0
                    then fun s : option (gset Z) =>
                           (inl (Errno (set_put_new pid)), s)
                    else fun s : option (gset Z) => (inr tt, s)) s' in
                 match r0 with
                 | inr _ =>
                     attach_processes_loop u creds rest
                       (Some ({[pid]} ∪ default ∅ s'0))
                 | inl e => (inl e, s'0)
                 end
             | inl e => (inl e, s')
             end) =
            if negb (match pids with
                     | None => set_new
                     | Some _ => true
                     end)
            then (inl (Errno (- ENOMEM)), pids)
            else if set_put_new pid <? 0 then
              (inl (Errno (set_put_new pid)), Some (default ∅ pids))
            else
              attach_processes_loop u creds rest
                (Some ({[pid]} ∪ default ∅ pids))).
  { intros pid. destruct pids as [s|]; [|destruct set_new]; cbn;
      destruct (set_put_new pid <? 0); reflexivity. }
  destruct (upid =? 0); [destruct (creds_pid creds) as [e | pid]|];
    try reflexivity;
    (destruct (set_contains pids _); [reflexivity|];
     destruct (unit_pid_attachable u _) as [e | []]; [reflexivity|];
     destruct (creds_euid creds) as [e | sender_uid]; [reflexivity|];
     destruct (negb (sender_uid =? 0) && negb (sender_uid =? getuid));
       [|apply Htail];
     destruct (get_process_uid _) as [[r | | |] | process_uid];
       try reflexivity;
     destruct (negb (process_uid =? sender_uid)); [reflexivity|];
     destruct (negb (process_uid =? ref_uid u)); [reflexivity|];
     apply Htail).
Qed.

Section Unprivileged.
Variables (u : Unit) (creds : sd_bus_creds) (euid : Z).
Hypothesis Heuid : creds_euid creds = inr euid.
Hypothesis Hnot_root : euid <> 0.
Hypothesis Hnot_manager : euid <> getuid.

Lemma ownership_check_unprivileged pid :
  ownership_check u euid pid =
  match get_process_uid pid with
  | inl (Errno r) => inl (BusErrnoError r "Failed to retrieve process UID: %m")
  | inl e => inl e
  | inr process_uid =>
      if negb (process_uid =? euid) then
        inl (BusError SD_BUS_ERROR_ACCESS_DENIED
               "Process %i not owned by client's UID. Refusing." [ArgPid pid])
      else if negb (process_uid =? ref_uid u) then
        inl (BusError SD_BUS_ERROR_ACCESS_DENIED
               "Process %i not owned by target unit's UID. Refusing."
               [ArgPid pid])
      else inr tt
  end.
Proof.
  unfold ownership_check.
  destruct (Z.eqb_spec euid 0); [contradiction|].
  destruct (Z.eqb_spec euid getuid); [contradiction|]. reflexivity.
Qed.

Lemma ownership_check_ok pid :
  ownership_check u euid pid = inr tt <-> owned u euid pid.
Proof.
  rewrite ownership_check_unprivileged. unfold owned. split.
  - destruct (get_process_uid pid) as [[r | | |] | p]; try discriminate.
    destruct (Z.eqb_spec p euid); [|discriminate]. subst p.
    destruct (Z.eqb_spec euid (ref_uid u)); [|discriminate]. auto.
  - intros [-> Href]. rewrite Z.eqb_refl. cbn.
    destruct (Z.eqb_spec euid (ref_uid u)); [reflexivity | contradiction].
Qed.

Lemma ownership_check_mismatched pid :
  mismatched u euid pid ->
  exists format,
    ownership_check u euid pid =
    inl (BusError SD_BUS_ERROR_ACCESS_DENIED format [ArgPid pid]).
Proof.
  intros (p & Hp & Hne). rewrite ownership_check_unprivileged, Hp.
  destruct (Z.eqb_spec p euid) as [-> | Hne1]; cbn; [|eauto].
  destruct (Z.eqb_spec euid (ref_uid u)); cbn; [|eauto].
  destruct Hne; contradiction.
Qed.

Lemma mismatched_not_owned pid : mismatched u euid pid -> ~ owned u euid pid.
Proof.
  intros (p & Hp & Hne) [Ho Href]. rewrite Hp in Ho. injection Ho as ->.
  destruct Hne; contradiction.
Qed.

Lemma set_owned_put pids pid :
  set_owned u euid pids -> owned u euid pid ->
  set_owned u euid (Some ({[pid]} ∪ default ∅ pids)).
Proof.
  intros Hs Ho q Hq. cbn in Hq. apply bool_decide_eq_true in Hq.
  apply elem_of_union in Hq as [Hq | Hq].
  - apply elem_of_singleton in Hq. subst q. exact Ho.
  - apply Hs. destruct pids as [s|]; cbn in *.
    + apply bool_decide_eq_true. exact Hq.
    + apply not_elem_of_empty in Hq. contradiction.
Qed.

Lemma attach_loop_success upids :
  forall pids pids',
    set_owned u euid pids ->
    attach_processes_loop u creds upids pids = (inr tt, pids') ->
    Forall (fun upid =>
              exists pid, requested_pid creds upid = inr pid /\
                          owned u euid pid) upids.
Proof.
  induction upids as [|upid rest IH]; intros pids pids' Hs Hrun;
    [constructor|].
  rewrite attach_processes_loop_cons in Hrun.
  destruct (requested_pid creds upid) as [e | pid] eqn:Ereq; [discriminate|].
  destruct (set_contains pids pid) eqn:Ein.
  - constructor; [eauto | eapply IH; eauto].
  - destruct (unit_pid_attachable u pid) as [e | []]; [discriminate|].
    rewrite Heuid in Hrun.
    destruct (ownership_check u euid pid) as [e | []] eqn:Eown;
      [discriminate|].
    apply ownership_check_ok in Eown.
    destruct (negb _) in Hrun; [discriminate|].
    destruct (set_put_new pid <? 0) in Hrun; [discriminate|].
    constructor; [eauto|].
    eapply IH; [|exact Hrun]. apply set_owned_put; assumption.
Qed.

Lemma attach_loop_accepted pre rest :
  Forall (pid_accepted u creds euid) pre ->
  forall pids,
    set_owned u euid pids ->
    exists pids',
      set_owned u euid pids' /\
      attach_processes_loop u creds (pre ++ rest) pids =
      attach_processes_loop u creds rest pids'.
Proof.
  induction 1 as [|upid pre (pid & Hreq & Hatt & Hown & Hnew & Hput) _ IH];
    intros pids Hs.
  - exists pids. auto.
  - cbn [app]. rewrite attach_processes_loop_cons, Hreq.
    destruct (set_contains pids pid); [apply IH, Hs|].
    rewrite Hatt, Heuid.
    destruct (ownership_check_ok pid) as [_ Hok]. rewrite (Hok Hown).
    assert (Hready : negb (match pids with
                           | None => set_new
                           | Some _ => true
                           end) = false)
      by (destruct pids; [reflexivity | rewrite Hnew; reflexivity]).
    rewrite Hready.
    destruct (Z.ltb_spec (set_put_new pid) 0); [lia|].
    apply IH, set_owned_put; assumption.
Qed.

Lemma attach_loop_denied upid rest pids pid :
  set_owned u euid pids ->
  requested_pid creds upid = inr pid ->
  unit_pid_attachable u pid = inr tt ->
  mismatched u euid pid ->
  exists format,
    attach_processes_loop u creds (upid :: rest) pids =
    (inl (BusError SD_BUS_ERROR_ACCESS_DENIED format [ArgPid pid]), pids).
Proof.
  intros Hs Hreq Hatt Hmis.
  rewrite attach_processes_loop_cons, Hreq.
  destruct (set_contains pids pid) eqn:Ein.
  - exfalso. eapply mismatched_not_owned; eauto.
  - rewrite Hatt, Heuid.
    destruct (ownership_check_mismatched pid Hmis) as [format ->]. eauto.
Qed.

End Unprivileged.

(** The call either fails with the world untouched, or the loop accepted
    every PID and exactly one migration was made. *)
Lemma attach_outcome (w : World) (path : string) (upids : list Z)
    (creds : sd_bus_creds) :
  let out := bus_unit_method_attach_processes path upids (inr creds) w in
  (exists e, out = (inl e, w)) \/
  (exists pids r,
     attach_processes_loop (unit_of w) creds upids None = (inr tt, pids) /\
     snd out =
       with_attached
         (attached w ++ [mkMigration pids (empty_to_null path)]) w /\
     fst out =
       if r <? 0 then
         inl (BusErrnoError r "Failed to attach processes to control group: %m")
       else if sd_bus_reply_method_return <? 0 then
         inl (Errno sd_bus_reply_method_return)
       else inr tt).
Proof.
  unfold bus_unit_method_attach_processes, bind, get_unit, lift, fail, ret,
    checked.
  destruct (mac_selinux_unit_access_check (unit_of w) "start") as [e | []];
    [left; eauto|].
  destruct (empty_to_null path) as [p|]; cbn beta iota zeta;
    [destruct (path_is_absolute p); cbn [negb]; [|left; eauto];
     destruct (path_is_normalized p); cbn [negb]; [|left; eauto]|];
    (destruct (unit_cgroup_delegate (unit_of w)); cbn [negb]; [|left; eauto];
     destruct (UNIT_IS_INACTIVE_OR_FAILED _); [left; eauto|];
     destruct (sd_bus_message_enter_container <? 0); [left; eauto|];
     destruct (attach_processes_loop (unit_of w) creds upids None)
       as [[e | []] pids]; [left; eauto|];
     destruct (sd_bus_message_exit_container <? 0); [left; eauto|];
     right;
     match goal with
     | |- context [unit_attach_pids_to_cgroup ?a ?b ?c] =>
         exists pids, (unit_attach_pids_to_cgroup a b c)
     end;
     split; [reflexivity|];
     destruct (unit_attach_pids_to_cgroup _ _ _ <? 0);
       [split; reflexivity|];
     destruct (sd_bus_reply_method_return <? 0); split; reflexivity).
Qed.

Lemma attach_gates_outcome (w : World) (path : string) (upids : list Z)
    (creds : sd_bus_creds) (e : failure) (pids : option (gset Z)) :
  attach_gates_pass w path ->
  attach_processes_loop (unit_of w) creds upids None = (inl e, pids) ->
  bus_unit_method_attach_processes path upids (inr creds) w = (inl e, w).
Proof.
  intros (Hacc & Hpath & Hdel & Hact & Henter) Hloop.
  unfold bus_unit_method_attach_processes, bind, get_unit, lift, fail, ret,
    checked.
  rewrite Hacc, Hdel, Hact, Henter, Hloop.
  destruct (empty_to_null path) as [p|]; cbn.
  - destruct Hpath as [-> ->]. reflexivity.
  - reflexivity.
Qed.

(** C2, as the code has it. A sender that is neither root nor the
    manager's own user gets processes attached only if every requested
    PID belongs to the sender and to the unit's reference user, and then
    by one migration call; a request naming a process with another owner
    fails with nothing migrated; an access-denied failure leaves the
    world untouched; and the error is the access-denied one that names
    the PID when it is the ownership test that fails: when the checks on
    the unit and the path have passed and the array of PIDs was entered,
    every PID before it was accepted and put into the set, and the unit
    can take the process. *)
Theorem attach_ownership_gate (w : World) (path : string) (upids : list Z)
    (creds : sd_bus_creds) (euid : Z) :
  creds_euid creds = inr euid -> euid <> 0 -> euid <> getuid ->
  let u := unit_of w in
  let out := bus_unit_method_attach_processes path upids (inr creds) w in
  (is_ok (fst out) = true ->
   Forall (fun upid =>
             exists pid, requested_pid creds upid = inr pid /\
                         owned u euid pid) upids /\
   exists m, attached (snd out) = attached w ++ [m]) /\
  (Exists (fun upid =>
             exists pid, requested_pid creds upid = inr pid /\
                         mismatched u euid pid) upids ->
   is_ok (fst out) = false /\ snd out = w) /\
  (forall e,
     fst out = inl e -> error_kind_of e = Some AccessDenied -> snd out = w) /\
  (forall pre upid post pid,
     upids = pre ++ upid :: post ->
     attach_gates_pass w path ->
     Forall (pid_accepted u creds euid) pre ->
     requested_pid creds upid = inr pid ->
     unit_pid_attachable u pid = inr tt ->
     mismatched u euid pid ->
     exists format,
       out = (inl (BusError SD_BUS_ERROR_ACCESS_DENIED format [ArgPid pid]),
              w)).
Proof.
  intros Heuid Hroot Hmgr. cbn zeta.
  assert (Hempty : set_owned (unit_of w) euid None)
    by (intros pid Hpid; discriminate).
  pose proof (attach_outcome w path upids creds) as Hout. cbn zeta in Hout.
  assert (Hsucc : forall pids,
            attach_processes_loop (unit_of w) creds upids None = (inr tt, pids) ->
            Forall (fun upid =>
                      exists pid, requested_pid creds upid = inr pid /\
                                  owned (unit_of w) euid pid) upids).
  { intros pids Hloop. eapply attach_loop_success; eauto. }
  split; [|split; [|split]].
  - intros Hok.
    destruct Hout as [[e He] | (pids & r & Hloop & Hsnd & Hfst)].
    + rewrite He in Hok. discriminate.
    + split; [eapply Hsucc; eauto | rewrite Hsnd; cbn; eauto].
  - intros Hex.
    destruct Hout as [[e He] | (pids & r & Hloop & Hsnd & Hfst)].
    + rewrite He. auto.
    + exfalso. specialize (Hsucc pids Hloop).
      apply Exists_exists in Hex as (upid & Hin & pid & Hreq & Hmis).
      rewrite Forall_forall in Hsucc.
      destruct (Hsucc upid Hin) as (pid' & Hreq' & Hown).
      rewrite Hreq in Hreq'. injection Hreq' as <-.
      eapply mismatched_not_owned; eauto.
  - intros e He Hkind.
    destruct Hout as [[e' He'] | (pids & r & Hloop & Hsnd & Hfst)].
    + rewrite He'. reflexivity.
    + rewrite Hfst in He.
      destruct (r <? 0); [injection He as <-; discriminate|].
      destruct (sd_bus_reply_method_return <? 0); [|discriminate].
      injection He as <-. discriminate.
  - intros pre upid post pid -> Hadm Hpre Hreq Hatt Hmis.
    destruct (attach_loop_accepted (unit_of w) creds euid Heuid Hroot Hmgr pre
                (upid :: post) Hpre None Hempty) as (pids' & Hs' & Heq).
    destruct (attach_loop_denied (unit_of w) creds euid Heuid Hroot Hmgr upid
                post pids' pid Hs' Hreq Hatt Hmis) as (format & Hden).
    exists format.
    eapply attach_gates_outcome; [exact Hadm|].
    rewrite Heq. exact Hden.
Qed.

End AttachOwnership.

Lemma attach_ownership_gate_witness :
  exists format,
    bus_unit_method_attach_processes (H := sample running) "" [100; 101]
      (inr sample_creds) (sample_world sample_unit) =
    (inl (BusError SD_BUS_ERROR_ACCESS_DENIED format [ArgPid 101]),
     sample_world sample_unit).
Proof.
  assert (H1000 : creds_euid sample_creds = inr 1000) by reflexivity.
  assert (Hroot : 1000 <> 0) by discriminate.
  assert (Hmgr : 1000 <> getuid (Collaborators := sample running))
    by discriminate.
  destruct (attach_ownership_gate (H := sample running)
              (sample_world sample_unit) "" [100; 101] sample_creds 1000
              H1000 Hroot Hmgr) as (_ & _ & _ & Hfirst).
  apply (Hfirst [100] 101 [] 101).
  - reflexivity.
  - repeat split; reflexivity.
  - constructor; [|constructor].
    exists 100. repeat split; try reflexivity. cbn. lia.
  - reflexivity.
  - reflexivity.
  - exists 1001. split; [reflexivity | left; discriminate].
Defined.

(** C2, as stated, fails for a process that the unit cannot take: the
    sender with uid 1000 names PID 1, which belongs to uid 0, and the
    call ends with the invalid-arguments error of the attachability
    test, which comes before the owners are compared. *)
Lemma mismatch_is_access_denied_fails :
  ~ mismatch_is_access_denied (H := sample running)
      (sample_world sample_unit) "" [1] sample_creds 1000.
Proof.
  intros Hclaim.
  destruct Hclaim as (format & pid & Hrun);
    [reflexivity | discriminate | discriminate | |].
  - constructor. exists 1. split; [reflexivity|].
    exists 0. split; [reflexivity | left; discriminate].
  - vm_compute in Hrun. discriminate.
Qed.

(** ** Cgroup process walker *)

Section Walker.
Context `{Collaborators}.

Lemma walk_inv_empty : walk_inv empty_walk.
Proof.
  exists []. split; [reflexivity|]. split; [constructor|].
  intros pid Hpid. inversion Hpid.
Qed.

Lemma walk_inv_seen s pid :
  walk_inv s -> walk_inv (mkWalk (reply_elems s) ({[pid]} ∪ seen s)).
Proof.
  intros (pids & Hmap & Hnd & Hin). exists pids. cbn.
  split; [exact Hmap|]. split; [exact Hnd|].
  intros q Hq. apply elem_of_union. right. auto.
Qed.

Lemma walk_inv_emit s p pid cmdline :
  0 < pid < 2 ^ 31 -> pid ∉ seen s -> walk_inv s ->
  walk_inv
    (mkWalk (reply_elems s ++
               [BusStruct [BusString p; BusUInt32 (uint32_of pid);
                           BusString cmdline]])
       ({[pid]} ∪ seen s)).
Proof.
  intros Hrange Hfresh (pids & Hmap & Hnd & Hin). exists (pids ++ [pid]). cbn.
  split; [|split].
  - rewrite !map_app, Hmap. cbn. unfold uint32_of.
    rewrite Z.mod_small by lia. reflexivity.
  - apply NoDup_app. split; [exact Hnd|]. split.
    + intros q Hq Hq'. apply list_elem_of_singleton in Hq'. subst q. auto.
    + apply NoDup_singleton.
  - intros q Hq. apply elem_of_app in Hq as [Hq | Hq].
    + apply elem_of_union. right. auto.
    + apply list_elem_of_singleton in Hq. subst q.
      apply elem_of_union. left. apply elem_of_singleton. reflexivity.
Qed.

Lemma append_process_inv p pid :
  pid < 2 ^ 31 -> preserves walk_inv (append_process p pid).
Proof.
  intros Hrange s Hs. unfold append_process.
  destruct (Z.gtb_spec pid 0) as [Hpos | Hneg]; cbn [negb]; [|exact Hs].
  unfold bind, set_put.
  destruct (bool_decide (pid ∈ seen s)) eqn:Eseen; [exact Hs|].
  apply bool_decide_eq_false in Eseen.
  change ((1 =? 0) || (1 =? - EEXIST)) with false.
  change (1 <? 0) with false. cbn beta iota.
  destruct p as [p|].
  - cbn [snd reply_elems seen]. apply walk_inv_emit; auto; lia.
  - destruct (cg_pid_get_path pid) as [[r | | |] | buf];
      cbn [snd reply_elems seen fail];
      try (apply walk_inv_seen; exact Hs).
    + destruct (r =? - ESRCH); apply walk_inv_seen; exact Hs.
    + apply walk_inv_emit; auto; lia.
Qed.

Lemma append_cgroup_pids_inv p procs procs_end :
  Forall is_pid_t procs ->
  preserves walk_inv (append_cgroup_pids p procs procs_end).
Proof.
  induction 1 as [|pid rest Hpid _ IH]; cbn [append_cgroup_pids].
  - destruct (procs_end <? 0); auto with preserves.
  - apply preserves_if; [exact IH|].
    apply preserves_bind; [|intros _; exact IH].
    apply append_process_inv. destruct Hpid. lia.
Qed.

(** Induction over a cgroup tree, with the hypothesis for every subgroup. *)
Lemma cgroup_tree_ind (P : cgroup -> Prop) :
  (forall procs_r procs procs_end subs_r subs subs_end,
     Forall (fun entry => P (snd entry)) subs ->
     P (Cgroup procs_r procs procs_end subs_r subs subs_end)) ->
  forall g, P g.
Proof.
  intros Hstep. fix rec 1.
  intros [procs_r procs procs_end subs_r subs subs_end]. apply Hstep.
  induction subs as [|[name child] rest IH]; constructor;
    [apply rec | exact IH].
Qed.

Lemma append_cgroup_inv g :
  forall p, Forall is_pid_t (cgroup_pids g) ->
            preserves walk_inv (append_cgroup g p).
Proof.
  induction g as [procs_r procs procs_end subs_r subs subs_end IH]
    using cgroup_tree_ind.
  intros p Hrange. cbn [append_cgroup cgroup_pids] in *.
  apply Forall_app in Hrange as [Hprocs Hsubs].
  apply preserves_if; [auto with preserves|].
  apply preserves_if; [auto with preserves|].
  apply preserves_bind; [apply append_cgroup_pids_inv, Hprocs|]. intros _.
  apply preserves_if; [auto with preserves|].
  apply preserves_if; [auto with preserves|].
  clear Hprocs. induction subs as [|[name child] rest IHrest].
  - destruct (subs_end <? 0); auto with preserves.
  - apply Forall_app in Hsubs as [Hchild Hrest].
    inversion IH as [|? ? IHchild IHothers]; subst.
    apply preserves_bind; [apply IHchild, Hchild|]. intros _.
    apply IHrest; assumption.
Qed.

(** The slip of line 980: the return value is compared with [ENOENT], not
    with [- ENOENT], so a group whose process listing is gone is not taken
    as empty; the subgroup listing, line 1003, is compared with
    [- ENOENT]. *)
Lemma append_cgroup_processes_gone procs procs_end subs_r subs subs_end p :
  append_cgroup (Cgroup (- ENOENT) procs procs_end subs_r subs subs_end) p =
  fail (Errno (- ENOENT)).
Proof. reflexivity. Qed.

Lemma append_cgroup_subgroups_gone procs subs subs_end p :
  append_cgroup (Cgroup 0 procs 0 (- ENOENT) subs subs_end) p =
  (append_cgroup_pids p procs 0;; ret 0).
Proof. reflexivity. Qed.

Lemma get_processes_inv (u : Unit) (tree : cgroup) :
  Forall is_pid_t (cgroup_pids tree) ->
  is_pid_t (unit_main_pid u) ->
  is_pid_t (unit_control_pid u) ->
  preserves walk_inv (bus_unit_method_get_processes u tree).
Proof.
  intros Htree Hmain Hcontrol. unfold bus_unit_method_get_processes.
  apply preserves_bind; [auto with preserves|]. intros _.
  apply preserves_bind; [auto with preserves|]. intros _.
  apply preserves_bind; [auto with preserves|]. intros _.
  apply preserves_bind; [auto with preserves|]. intros _.
  apply preserves_bind.
  { destruct (cgroup_path u); [|auto with preserves].
    apply append_cgroup_inv, Htree. }
  intros _. apply preserves_bind.
  { cbn zeta. apply preserves_if; [|auto with preserves].
    apply append_process_inv. destruct Hmain. lia. }
  intros _. apply preserves_bind.
  { cbn zeta. apply preserves_if; [|auto with preserves].
    apply append_process_inv. destruct Hcontrol. lia. }
  intros _. apply preserves_bind; [auto with preserves|]. intros _.
  apply preserves_bind; [auto with preserves|]. intros s0. cbn zeta.
  apply preserves_bind; auto with preserves.
Qed.

(** A reply that was sent holds the elements put together by then. *)
Lemma get_processes_reply (u : Unit) (tree : cgroup) (s0 s : walk)
    (reply : sd_bus_message) :
  bus_unit_method_get_processes u tree s0 = (inr reply, s) ->
  reply = [BusArray "(sus)" (reply_elems s)].
Proof.
  intros Hrun. unfold bus_unit_method_get_processes in Hrun.
  do 8 (apply bind_inr in Hrun as (? & ? & _ & Hrun)).
  apply bind_inr in Hrun as (sg & s1 & Hget & Hrun). cbn zeta in Hrun.
  apply bind_inr in Hrun as ([] & s2 & Hsend & Hrun).
  injection Hget as -> ->. apply checked_inr in Hsend as [_ ->].
  injection Hrun as <- <-. reflexivity.
Qed.

(** C7. A reply of GetProcesses never reports a PID twice: the PIDs it
    reports, from the cgroup tree and then from the recorded main and
    control PIDs, form a duplicate-free list. *)
Theorem get_processes_no_duplicates (u : Unit) (tree : cgroup)
    (reply : sd_bus_message) (s : walk) :
  Forall is_pid_t (cgroup_pids tree) ->
  is_pid_t (unit_main_pid u) ->
  is_pid_t (unit_control_pid u) ->
  bus_unit_method_get_processes u tree empty_walk = (inr reply, s) ->
  exists pids, reported_pids reply = map Some pids /\ NoDup pids.
Proof.
  intros Htree Hmain Hcontrol Hrun.
  pose proof (get_processes_inv u tree Htree Hmain Hcontrol empty_walk
                walk_inv_empty) as Hinv.
  rewrite Hrun in Hinv. cbn [snd] in Hinv.
  apply get_processes_reply in Hrun. subst reply.
  destruct Hinv as (pids & Hmap & Hnd & _).
  exists pids. split; [exact Hmap | exact Hnd].
Qed.

End Walker.

Lemma get_processes_no_duplicates_witness :
  exists pids,
    reported_pids
      [BusArray "(sus)"
         [BusStruct [BusString "/system.slice/demo.service"; BusUInt32 100;
                     BusString ""];
          BusStruct [BusString "/system.slice/demo.service"; BusUInt32 101;
                     BusString ""];
          BusStruct [BusString "/system.slice/demo.service/a"; BusUInt32 102;
                     BusString ""];
          BusStruct [BusString "/elsewhere.slice"; BusUInt32 1;
                     BusString "/sbin/init"]]] = map Some pids /\
    NoDup pids.
Proof.
  refine (get_processes_no_duplicates (H := sample with_main_pid) sample_unit
            sample_tree _
            (snd (bus_unit_method_get_processes (H := sample with_main_pid)
                    sample_unit sample_tree empty_walk)) _ _ _ _).
  - vm_compute cgroup_pids.
    repeat (constructor; [unfold is_pid_t; lia|]). constructor.
  - unfold is_pid_t. cbn. lia.
  - unfold is_pid_t. cbn. lia.
  - vm_compute. reflexivity.
Defined.

(** C5, on the code. A subgroup whose subgroup listing is gone is taken as
    empty and the walk goes on; a subgroup whose process listing is gone
    ends the whole call with [- ENOENT]. *)
Theorem missing_process_listing_is_fatal :
  fst (bus_unit_method_get_processes (H := sample running) sample_unit
         sample_tree empty_walk) =
  inr [BusArray "(sus)"
         [BusStruct [BusString "/system.slice/demo.service"; BusUInt32 100;
                     BusString ""];
          BusStruct [BusString "/system.slice/demo.service"; BusUInt32 101;
                     BusString ""];
          BusStruct [BusString "/system.slice/demo.service/a"; BusUInt32 102;
                     BusString ""]]] /\
  fst (bus_unit_method_get_processes (H := sample running) sample_unit
         vanishing_tree empty_walk) =
  inl (Errno (- ENOENT)).
Proof. split; vm_compute; reflexivity. Qed.

(** ** Conditions and asserts *)

Section Conditions.
Context `{Collaborators}.

Section Field.
(** The [Condition **list] argument as a field of the unit. *)
Variables (get_list : Unit -> list Condition)
          (set_list : list Condition -> Unit -> Unit).
Hypothesis get_set : forall l u, get_list (set_list l u) = l.
Hypothesis get_settings : forall x u, get_list (set_settings x u) = get_list u.

Variables (name : string) (is_condition : bool) (flags : Z).
Hypothesis Hcommit : UNIT_WRITE_FLAGS_NOOP flags = false.

Lemma write_setting_list f format args w :
  fst (unit_write_settingf f name format args w) = inr tt /\
  get_list (unit_of (snd (unit_write_settingf f name format args w))) =
  get_list (unit_of w).
Proof.
  unfold unit_write_settingf. destruct (UNIT_WRITE_FLAGS_NOOP f); cbn.
  - auto.
  - rewrite get_settings. auto.
Qed.

Lemma conditions_loop_commit entries :
  Forall (entry_valid is_condition) entries ->
  forall w,
    exists w',
      bus_set_transient_conditions_loop name get_list set_list is_condition
        flags (map encode_entry entries) w = (inr tt, w') /\
      get_list (unit_of w') =
      rev (map (built_condition is_condition) entries) ++ get_list (unit_of w).
Proof.
  induction 1 as [|e rest Hvalid _ IH]; intros w.
  - exists w. split; reflexivity.
  - destruct e as [[[type_name trigger] negate] param].
    destruct Hvalid as [Hpos Hparam].
    cbn [map encode_entry bus_set_transient_conditions_loop].
    unfold bind at 1. cbn [lift read_sbbs].
    unfold entry_type in Hpos, Hparam.
    set (t := if is_condition then condition_type_from_string type_name
              else assert_type_from_string type_name) in *.
    destruct (Z.ltb_spec t 0) as [Hneg | _]; [lia|].
    rewrite Hcommit. cbn [negb].
    assert (Hstep : forall (p : option string) format args f,
              p = (if t =? CONDITION_NULL then None else Some param) ->
              exists w1,
                (update_unit
                   (fun u => set_list (condition_new t p trigger negate
                                         :: get_list u) u);;
                 unit_write_settingf f name format args) w = (inr tt, w1) /\
                get_list (unit_of w1) =
                built_condition is_condition (type_name, trigger, negate, param)
                  :: get_list (unit_of w)).
    { intros p format args f ->. unfold bind, update_unit, modify.
      set (w0 := with_unit
                   (set_list
                      (condition_new t
                         (if t =? CONDITION_NULL then None else Some param)
                         trigger negate :: get_list (unit_of w))
                      (unit_of w)) w).
      destruct (write_setting_list f format args w0) as [Hfst Hget].
      destruct (unit_write_settingf f name format args w0) as [r w1].
      cbn [fst snd] in Hfst, Hget. subst r. exists w1.
      split; [reflexivity|].
      rewrite Hget. unfold w0. cbn [unit_of with_unit]. rewrite get_set.
      unfold built_condition, entry_type. fold t. reflexivity. }
    destruct (Z.eqb_spec t CONDITION_NULL) as [Hnull | Hnonnull].
    + cbn [negb]. unfold bind at 1. cbn [ret].
      destruct (Hstep None "%s=%s%s"
                  [SetS type_name; SetS (if trigger then "|" else "");
                   SetS (yes_no (negb negate))] flags eq_refl)
        as (w1 & Hrun & Hget).
      unfold bind at 1. rewrite Hrun.
      destruct (IH w1) as (w' & Hrest & Hget').
      exists w'. split; [exact Hrest|].
      rewrite Hget', Hget. cbn [map rev]. rewrite <- app_assoc. reflexivity.
    + cbn [negb]. destruct (Hparam Hnonnull) as [Hne Hpath].
      unfold isempty. rewrite bool_decide_eq_false_2 by exact Hne.
      assert (Hok : condition_takes_path t && negb (path_is_absolute param)
                    = false).
      { destruct (condition_takes_path t); [|reflexivity].
        rewrite Hpath by reflexivity. reflexivity. }
      rewrite Hok. unfold bind at 1. cbn [ret].
      destruct (Hstep (Some param) "%s=%s%s%s"
                  [SetS type_name; SetS (if trigger then "|" else "");
                   SetS (if negate then "!" else "");
                   SetS (strempty (Some param))]
                  (Z.lor flags UNIT_ESCAPE_SPECIFIERS) eq_refl)
        as (w1 & Hrun & Hget).
      unfold bind at 1. rewrite Hrun.
      destruct (IH w1) as (w' & Hrest & Hget').
      exists w'. split; [exact Hrest|].
      rewrite Hget', Hget. cbn [map rev]. rewrite <- app_assoc. reflexivity.
Qed.

Lemma conditions_commit entries w :
  Forall (entry_valid is_condition) entries ->
  let out :=
    bus_set_transient_conditions name get_list set_list is_condition
      (encode_conditions entries) flags w in
  fst out = inr 1 /\
  get_list (unit_of (snd out)) =
  match entries with
  | [] => []
  | _ => rev (map (built_condition is_condition) entries)
         ++ get_list (unit_of w)
  end.
Proof.
  intros Hvalid.
  assert (Hout : exists w2,
            bus_set_transient_conditions name get_list set_list is_condition
              (encode_conditions entries) flags w = (inr 1, w2) /\
            get_list (unit_of w2) =
            match entries with
            | [] => []
            | _ => rev (map (built_condition is_condition) entries)
                   ++ get_list (unit_of w)
            end).
  { unfold bus_set_transient_conditions, encode_conditions.
    unfold bind at 1. cbn [lift enter_array].
    unfold streq. rewrite bool_decide_eq_true_2 by reflexivity.
    destruct (conditions_loop_commit entries Hvalid w) as (w' & Hrun & Hget).
    unfold bind at 1. rewrite Hrun. rewrite Hcommit. cbn [negb andb].
    destruct entries as [|e rest].
    - cbn [map]. unfold bind, update_unit, modify, ret.
      set (w0 := with_unit (set_list [] (unit_of w')) w').
      destruct (write_setting_list flags "%sNull="
                  [SetS (if is_condition then "Condition" else "Assert")] w0)
        as [Hfst Hget0].
      destruct (unit_write_settingf flags name "%sNull=" _ w0) as [r w2].
      cbn [fst snd] in *. subst r. exists w2.
      split; [reflexivity|].
      rewrite Hget0. unfold w0. cbn [unit_of with_unit]. apply get_set.
    - cbn [map]. unfold bind, ret. exists w'.
      split; [reflexivity | exact Hget]. }
  destruct Hout as (w2 & Hrun & Hget). cbn zeta. rewrite Hrun. auto.
Qed.

End Field.

(** C3, as the code has it. A commit of Conditions (of Asserts) with a
    non-empty array of valid entries puts each new entry at the head of
    the list the unit already has: the list afterwards is the new entries
    in the reverse of the order supplied, followed by the previous
    entries, and that is the order the property reports; a commit with an
    empty array leaves the empty list. *)
Theorem conditions_commit_prepends (is_condition : bool) (flags : Z)
    (w : World) (entries : list condition_entry) (reply : sd_bus_message) :
  UNIT_WRITE_FLAGS_NOOP flags = false ->
  Forall (entry_valid is_condition) entries ->
  let name := if is_condition then "Conditions" else "Asserts" in
  let get_list := if is_condition then conditions else asserts in
  let set_list := if is_condition then set_conditions else set_asserts in
  let to_string :=
    if is_condition then condition_type_to_string
    else assert_type_to_string in
  let out :=
    bus_set_transient_conditions name get_list set_list is_condition
      (encode_conditions entries) flags w in
  let after :=
    match entries with
    | [] => []
    | _ => rev (map (built_condition is_condition) entries)
           ++ get_list (unit_of w)
    end in
  fst out = inr 1 /\
  get_list (unit_of (snd out)) = after /\
  property_get_conditions name (get_list (unit_of (snd out))) reply =
  inr (reply ++ [BusArray "(sbbsi)" (map (condition_tuple to_string) after)]).
Proof.
  intros Hcommit Hvalid. cbn zeta.
  destruct is_condition.
  - destruct (conditions_commit conditions set_conditions
                (fun _ _ => eq_refl) (fun _ _ => eq_refl)
                "Conditions" true flags Hcommit entries w Hvalid)
      as [Hfst Hget].
    cbn zeta in Hfst, Hget. rewrite Hfst, Hget.
    split; [reflexivity|]. split; [reflexivity|]. reflexivity.
  - destruct (conditions_commit asserts set_asserts
                (fun _ _ => eq_refl) (fun _ _ => eq_refl)
                "Asserts" false flags Hcommit entries w Hvalid)
      as [Hfst Hget].
    cbn zeta in Hfst, Hget. rewrite Hfst, Hget.
    split; [reflexivity|]. split; [reflexivity|]. reflexivity.
Qed.

End Conditions.

Lemma conditions_commit_prepends_witness :
  conditions
    (unit_of
       (snd (bus_set_transient_conditions (H := sample running) "Conditions"
               conditions set_conditions true
               (encode_conditions [host_a; host_b]) 1 conditioned_world))) =
  [mkCondition 2 false true (Some "b") CONDITION_UNTESTED;
   mkCondition 2 false false (Some "a") CONDITION_UNTESTED;
   earlier_condition].
Proof.
  refine (proj1 (proj2 (conditions_commit_prepends (H := sample running) true
                          1 conditioned_world [host_a; host_b] [] _ _))).
  - reflexivity.
  - repeat constructor; try discriminate; try reflexivity.
Defined.

(** C3, as stated, fails on a unit that already carries a condition when
    two more are committed: the list afterwards holds the two new entries
    last-supplied first, and still holds the earlier one. *)
Lemma conditions_replaced_in_order_fails :
  ~ conditions_replaced_in_order (H := sample running) conditioned_world 1
      [host_a; host_b].
Proof.
  intros Hclaim. assert (Hne : [host_a; host_b] <> []) by discriminate.
  specialize (Hclaim Hne). vm_compute in Hclaim. discriminate.
Qed.

(** ** Property transaction engine *)

Section Transaction.
Context `{Collaborators}.

Lemma preserves_get_unit u : preserves (same_unit u) get_unit.
Proof. intros w Hw. exact Hw. Qed.

Lemma preserves_in_manager {A} u (c : M Manager A) :
  preserves (same_unit u) (in_manager c).
Proof.
  intros w Hw. unfold in_manager. destruct (c (manager w)) as [r m]. exact Hw.
Qed.

#[local] Hint Resolve preserves_get_unit preserves_in_manager : preserves.

Lemma dry_flags_noop flags : UNIT_WRITE_FLAGS_NOOP (dry_flags flags) = true.
Proof.
  unfold UNIT_WRITE_FLAGS_NOOP, dry_flags. apply Z.eqb_eq.
  rewrite <- Z.land_assoc, (Z.land_comm (Z.lnot _)), Z.land_lnot_diag.
  apply Z.land_0_r.
Qed.

Section DryRun.
Variables (u : Unit) (f : Z).
Hypothesis Hnoop : UNIT_WRITE_FLAGS_NOOP f = true.

(** Peels a dry-run handler: binds, branches and the guarded mutations,
    which the no-op flags rule out. *)
Ltac dry :=
  repeat first
    [ progress (rewrite ?Hnoop; cbn [negb andb])
    | progress auto with preserves
    | apply preserves_bind; [|intros ?]
    | apply preserves_if
    | match goal with
      | |- preserves _ (match ?x with _ => _ end) => destruct x
      | |- preserves _ (let '(_, _) := ?x in _) => destruct x
      end ].

Lemma bus_set_transient_dry {A} (read : bus_value -> result A)
    (check : A -> result unit) (store : A -> Unit -> Unit)
    (line : A -> string * list setting_arg) name message :
  preserves (same_unit u)
    (bus_set_transient read check store line name message f).
Proof. unfold bus_set_transient. dry. Qed.

Lemma bus_unit_set_live_property_dry name message :
  preserves (same_unit u) (bus_unit_set_live_property name message f).
Proof. unfold bus_unit_set_live_property. dry. Qed.

Lemma conditions_loop_dry name get_list set_list is_condition elems :
  preserves (same_unit u)
    (bus_set_transient_conditions_loop name get_list set_list is_condition
       f elems).
Proof.
  induction elems as [|elem rest IH]; cbn [bus_set_transient_conditions_loop];
    dry.
Qed.

Lemma bus_set_transient_conditions_dry name get_list set_list is_condition
    message :
  preserves (same_unit u)
    (bus_set_transient_conditions name get_list set_list is_condition
       message f).
Proof.
  unfold bus_set_transient_conditions.
  pose proof conditions_loop_dry. dry.
Qed.

Lemma transient_dependencies_loop_dry name d elems :
  preserves (same_unit u) (transient_dependencies_loop name d f elems).
Proof.
  induction elems as [|elem rest IH]; cbn [transient_dependencies_loop]; dry.
Qed.

Lemma transient_dependency_or_ref_dry name cursor :
  preserves (same_unit u) (transient_dependency_or_ref name cursor f).
Proof.
  unfold transient_dependency_or_ref.
  pose proof transient_dependencies_loop_dry. dry.
Qed.

Lemma requires_mounts_for_loop_dry name l :
  preserves (same_unit u) (requires_mounts_for_loop name f l).
Proof.
  induction l as [|p rest IH]; cbn [requires_mounts_for_loop]; dry.
Qed.

Lemma bus_unit_set_transient_property_dry name message :
  preserves (same_unit u) (bus_unit_set_transient_property name message f).
Proof.
  pose proof (@bus_set_transient_dry) as Hsetter.
  pose proof bus_set_transient_conditions_dry.
  pose proof transient_dependency_or_ref_dry.
  pose proof requires_mounts_for_loop_dry.
  unfold bus_unit_set_transient_property,
    bus_set_transient_path, bus_set_transient_bool, bus_set_transient_string,
    bus_set_transient_usec, bus_set_transient_usec_fix_0,
    bus_set_transient_unsigned, bus_set_transient_job_mode,
    bus_set_transient_emergency_action, bus_set_transient_collect_mode,
    bus_set_transient_parse.
  repeat (apply preserves_if; [solve [auto] | ]).
  apply preserves_if.
  { apply preserves_bind; [|intros ?; auto].
    intros w Hw. rewrite Hnoop. cbn [negb andb].
    match goal with
    | |- context [bus_set_transient ?a ?b ?c ?d ?e ?g f w] =>
        pose proof (Hsetter _ a b c d e g w Hw) as Hp;
        destruct (bus_set_transient a b c d e g f w) as [[?|?] w']
    end; exact Hp. }
  apply preserves_if.
  { intros w Hw. rewrite Hnoop. cbn [negb andb].
    match goal with
    | |- context [bus_set_transient ?a ?b ?c ?d ?e ?g f w] =>
        pose proof (Hsetter _ a b c d e g w Hw) as Hp;
        destruct (bus_set_transient a b c d e g f w) as [[?|?] w']
    end; exact Hp. }
  dry.
Qed.

End DryRun.

Section Batch.
Hypothesis Hhandlers : subtype_handlers_dry.

Lemma set_one_property_dry u name message flags :
  preserves (same_unit u) (set_one_property name message (dry_flags flags)).
Proof.
  pose proof (dry_flags_noop flags) as Hnoop.
  unfold set_one_property.
  apply preserves_bind; [auto with preserves|]. intros u'.
  destruct (vtable_bus_set_property (type u')) as [handler|] eqn:Ehandler;
    [|auto with preserves].
  apply preserves_bind.
  { intros w Hw. unfold same_unit in *.
    rewrite (Hhandlers _ _ _ _ _ _ Ehandler Hnoop). exact Hw. }
  intros r. apply preserves_bind; [auto with preserves|]. intros u''.
  apply preserves_bind.
  { apply preserves_if; [|auto with preserves].
    apply bus_unit_set_transient_property_dry, Hnoop. }
  intros r'. apply preserves_bind.
  { apply preserves_if; [|auto with preserves].
    apply bus_unit_set_live_property_dry, Hnoop. }
  intros r''. repeat apply preserves_if; auto with preserves.
Qed.

Lemma first_pass_dry u flags entries :
  forall n, preserves (same_unit u) (set_properties_pass false flags entries n).
Proof.
  induction entries as [|[name message] rest IH]; intros n;
    cbn [set_properties_pass]; [auto with preserves|].
  apply preserves_bind; [apply set_one_property_dry|]. intros _. apply IH.
Qed.

Lemma first_pass_rejects flags entries :
  forall n w,
    Exists (entry_invalid (unit_of w) flags) entries ->
    is_ok (fst (set_properties_pass false flags entries n w)) = false.
Proof.
  induction entries as [|[name message] rest IH]; intros n w Hex;
    [inversion Hex|].
  cbn [set_properties_pass]. unfold bind.
  pose proof (set_one_property_dry (unit_of w) name message flags w eq_refl)
    as Hsame.
  fold (dry_flags flags).
  destruct (set_one_property name message (dry_flags flags) w)
    as [[e | []] w1] eqn:Eone; [reflexivity|].
  cbn [snd] in Hsame. unfold same_unit in Hsame.
  apply Exists_cons in Hex as [Hbad | Hlater].
  - specialize (Hbad w eq_refl). cbn [fst snd] in Hbad.
    rewrite Eone in Hbad. discriminate.
  - apply IH. rewrite Hsame. exact Hlater.
Qed.

End Batch.

(** C1. A batch of SetProperties that holds an entry validation rejects
    fails as a whole, and the unit is afterwards what it was before: the
    first run over the batch, with the two target flags masked out, stops
    at the first failure, and the second run never starts. *)
Theorem validate_before_commit (entries : list (string * bus_value))
    (flags : Z) (commit : bool) (w : World) :
  subtype_handlers_dry ->
  Exists (entry_invalid (unit_of w) flags) entries ->
  is_ok (fst (bus_unit_set_properties entries flags commit w)) = false /\
  unit_of (snd (bus_unit_set_properties entries flags commit w)) = unit_of w /\
  snd (bus_unit_set_properties entries flags commit w) =
  snd (set_properties_pass false flags entries 0 w).
Proof.
  intros Hhandlers Hex.
  pose proof (first_pass_rejects Hhandlers flags entries 0 w Hex) as Hfail.
  pose proof (first_pass_dry Hhandlers (unit_of w) flags entries 0 w eq_refl)
    as Hsame.
  destruct (set_properties_pass false flags entries 0 w) as [[e | n] w1]
    eqn:Epass; [|discriminate].
  assert (Hout : bus_unit_set_properties entries flags commit w = (inl e, w1)).
  { unfold bus_unit_set_properties. unfold bind at 1. rewrite Epass.
    reflexivity. }
  rewrite Hout. cbn [fst snd] in *. auto.
Qed.

End Transaction.

Lemma validate_before_commit_witness :
  is_ok (fst (bus_unit_set_properties (H := sample running) sample_batch 1
                true (sample_world sample_unit))) = false /\
  unit_of (snd (bus_unit_set_properties (H := sample running) sample_batch 1
                  true (sample_world sample_unit))) = sample_unit.
Proof.
  destruct (validate_before_commit (H := sample running) sample_batch 1 true
              (sample_world sample_unit)) as (Hfail & Hsame & _).
  - intros t handler name message f w Hhandler _.
    destruct t; cbn in Hhandler; try discriminate;
      injection Hhandler as <-; reflexivity.
  - apply Exists_cons_tl, Exists_cons_hd.
    intros [s u m b a] Hu. cbn [unit_of sample_world] in Hu. subst u.
    vm_compute. reflexivity.
  - split; assumption.
Defined.

(** * Further properties *)

(** ** Job dispatcher and capability properties *)

Section Dispatch.
Context `{Collaborators} `{Services}.

Lemma bus_unit_queue_job_cases (type : JobType) (mode : Z)
    (reload_if_possible : bool) (w : World) :
  mac_selinux_unit_access_check (unit_of w) (job_type_to_access_method type)
  = inr tt ->
  let u := unit_of w in
  let type' :=
    if reload_if_possible && unit_can_reload u then
      match type with
      | JOB_RESTART => JOB_RELOAD_OR_START
      | JOB_TRY_RESTART => JOB_TRY_RELOAD
      | _ => type
      end
    else type in
  bus_unit_queue_job type mode reload_if_possible w =
  if bool_decide (type' = JOB_STOP) &&
     (bool_decide (load_state u = UNIT_NOT_FOUND) ||
      bool_decide (load_state u = UNIT_ERROR)) &&
     bool_decide (unit_active_state u = UNIT_INACTIVE)
  then
    (inl (BusError BUS_ERROR_NO_SUCH_UNIT "Unit %s not loaded."
            [ArgString (strempty (id u))]), w)
  else if refused_as_manual type' u then (inl (only_by_dependency u), w)
  else submit_job type' mode w.
Proof.
  intros Hacc. cbn zeta.
  unfold bus_unit_queue_job, bind, get_unit, lift, fail, refused_as_manual.
  rewrite Hacc.
  repeat match goal with
         | |- context [if ?b then _ else _] => destruct b
         end; reflexivity.
Qed.

(** X1. The refuse-manual flags never stand in the way of a reload: a
    reload request is handed to the scheduler whatever the flags are, and
    so is a try-restart request with [reload_if_possible] on a unit that
    can reload (it is handed over as try-reload). *)
Theorem reload_is_never_refused (w : World) (mode : Z)
    (reload_if_possible : bool) :
  (mac_selinux_unit_access_check (unit_of w)
     (job_type_to_access_method JOB_RELOAD) = inr tt ->
   bus_unit_queue_job JOB_RELOAD mode reload_if_possible w =
   submit_job JOB_RELOAD mode w) /\
  (mac_selinux_unit_access_check (unit_of w)
     (job_type_to_access_method JOB_TRY_RESTART) = inr tt ->
   unit_can_reload (unit_of w) = true ->
   bus_unit_queue_job JOB_TRY_RESTART mode true w =
   submit_job JOB_TRY_RELOAD mode w).
Proof.
  split.
  - intros Hacc. rewrite bus_unit_queue_job_cases by exact Hacc. cbn zeta.
    destruct (reload_if_possible && unit_can_reload (unit_of w)); reflexivity.
  - intros Hacc Hreload. rewrite bus_unit_queue_job_cases by exact Hacc.
    cbn zeta. rewrite Hreload. reflexivity.
Qed.

(** X2. [reload_if_possible] changes the outcome only of restart and
    try-restart requests on a unit that can reload; everywhere else the
    request is treated exactly as without it. *)
Theorem reload_if_possible_is_inert (type : JobType) (mode : Z) (w : World) :
  unit_can_reload (unit_of w) = false \/
  (type <> JOB_RESTART /\ type <> JOB_TRY_RESTART) ->
  bus_unit_queue_job type mode true w = bus_unit_queue_job type mode false w.
Proof.
  intros Hinert. unfold bus_unit_queue_job, bind, get_unit, lift.
  destruct (mac_selinux_unit_access_check (unit_of w)
              (job_type_to_access_method type)) as [e | []]; [reflexivity|].
  destruct Hinert as [-> | [Hrestart Htry]]; [reflexivity|].
  cbn [andb]. destruct (unit_can_reload (unit_of w)); [|reflexivity].
  destruct type; try reflexivity; contradiction.
Qed.

(** X3. The capability properties agree with the dispatcher: a unit that
    reports CanStart is not refused a start request as dependency-only,
    a unit that reports CanStop is not refused a stop request, and a unit
    that refuses manual start reports neither CanStart nor CanIsolate and
    is refused the start request. *)
Theorem capabilities_agree_with_dispatcher (w : World) (mode : Z)
    (reload_if_possible : bool) (reply : sd_bus_message) :
  let u := unit_of w in
  (property_get_can_start u reply = inr (reply ++ [BusBool true]) ->
   mac_selinux_unit_access_check u (job_type_to_access_method JOB_START)
   = inr tt ->
   bus_unit_queue_job JOB_START mode reload_if_possible w =
   submit_job JOB_START mode w) /\
  (property_get_can_stop u reply = inr (reply ++ [BusBool true]) ->
   mac_selinux_unit_access_check u (job_type_to_access_method JOB_STOP)
   = inr tt ->
   bus_unit_queue_job JOB_STOP mode reload_if_possible w =
   if (bool_decide (load_state u = UNIT_NOT_FOUND) ||
       bool_decide (load_state u = UNIT_ERROR)) &&
      bool_decide (unit_active_state u = UNIT_INACTIVE)
   then
     (inl (BusError BUS_ERROR_NO_SUCH_UNIT "Unit %s not loaded."
             [ArgString (strempty (id u))]), w)
   else submit_job JOB_STOP mode w) /\
  (refuse_manual_start u = true ->
   mac_selinux_unit_access_check u (job_type_to_access_method JOB_START)
   = inr tt ->
   property_get_can_start u reply = inr (reply ++ [BusBool false]) /\
   property_get_can_isolate u reply = inr (reply ++ [BusBool false]) /\
   bus_unit_queue_job JOB_START mode reload_if_possible w =
   (inl (only_by_dependency u), w)).
Proof.
  cbn zeta. split; [|split].
  - unfold property_get_can_start, sd_bus_message_append.
    intros Hcan Hacc. injection Hcan as Hcan. apply app_inv_head in Hcan.
    injection Hcan as Hcan. apply andb_true_iff in Hcan as [_ Hcan].
    apply negb_true_iff in Hcan.
    rewrite bus_unit_queue_job_cases by exact Hacc. cbn zeta.
    unfold refused_as_manual. rewrite Hcan.
    destruct (reload_if_possible && unit_can_reload (unit_of w)); reflexivity.
  - unfold property_get_can_stop, sd_bus_message_append.
    intros Hcan Hacc. injection Hcan as Hcan. apply app_inv_head in Hcan.
    injection Hcan as Hcan. apply andb_true_iff in Hcan as [_ Hcan].
    apply negb_true_iff in Hcan.
    rewrite bus_unit_queue_job_cases by exact Hacc. cbn zeta.
    unfold refused_as_manual. rewrite Hcan.
    assert (Hstop : (if reload_if_possible && unit_can_reload (unit_of w)
                     then JOB_STOP else JOB_STOP) = JOB_STOP)
      by (destruct (_ && _); reflexivity).
    rewrite Hstop.
    destruct (bool_decide (load_state (unit_of w) = UNIT_NOT_FOUND)),
      (bool_decide (load_state (unit_of w) = UNIT_ERROR)),
      (bool_decide (unit_active_state (unit_of w) = UNIT_INACTIVE)),
      (refuse_manual_start (unit_of w)); reflexivity.
  - intros Hrefuse Hacc.
    unfold property_get_can_start, property_get_can_isolate,
      sd_bus_message_append.
    rewrite Hrefuse, !andb_false_r.
    split; [reflexivity|]. split; [reflexivity|].
    rewrite bus_unit_queue_job_cases by exact Hacc. cbn zeta.
    unfold refused_as_manual. rewrite Hrefuse.
    destruct (reload_if_possible && unit_can_reload (unit_of w)); reflexivity.
Qed.

End Dispatch.

Lemma reload_is_never_refused_witness :
  bus_unit_queue_job (H := sample running) JOB_RELOAD 1 false
    (sample_world refusing_unit) =
  submit_job (H := sample running) JOB_RELOAD 1 (sample_world refusing_unit) /\
  bus_unit_queue_job (H := sample running) JOB_TRY_RESTART 1 true
    (sample_world refusing_unit) =
  submit_job (H := sample running) JOB_TRY_RELOAD 1
    (sample_world refusing_unit).
Proof.
  split.
  - apply (proj1 (reload_is_never_refused (H := sample running)
                    (sample_world refusing_unit) 1 false)). reflexivity.
  - apply (proj2 (reload_is_never_refused (H := sample running)
                    (sample_world refusing_unit) 1 false)); reflexivity.
Defined.

Lemma reload_if_possible_is_inert_witness :
  bus_unit_queue_job (H := sample unreloadable) JOB_RESTART 1 true
    (sample_world sample_unit) =
  bus_unit_queue_job (H := sample unreloadable) JOB_RESTART 1 false
    (sample_world sample_unit).
Proof.
  apply (reload_if_possible_is_inert (H := sample unreloadable) JOB_RESTART 1
           (sample_world sample_unit)).
  left. reflexivity.
Defined.

Lemma capabilities_agree_with_dispatcher_witness :
  bus_unit_queue_job (H := sample running) JOB_START 1 false
    (sample_world sample_unit) =
  submit_job (H := sample running) JOB_START 1 (sample_world sample_unit) /\
  bus_unit_queue_job (H := sample running) JOB_START 1 false
    (sample_world refusing_unit) =
  (inl (only_by_dependency refusing_unit), sample_world refusing_unit).
Proof.
  split.
  - apply (proj1 (capabilities_agree_with_dispatcher (H := sample running)
                    (H0 := sample_services) (sample_world sample_unit) 1
                    false [])); reflexivity.
  - apply (proj2 (proj2 (capabilities_agree_with_dispatcher
                           (H := sample running) (H0 := sample_services)
                           (sample_world refusing_unit) 1 false [])));
      reflexivity.
Defined.

(** ** Property transaction engine, continued *)

(** Evaluates the comparisons of two string literals. *)
Ltac eval_streq :=
  repeat match goal with
         | |- context [streq ?a ?b] =>
             let v := eval vm_compute in (streq a b) in
             match v with
             | true => change (streq a b) with true
             | false => change (streq a b) with false
             end
         end.

Section Counting.
Context `{Collaborators}.

Lemma set_properties_pass_count for_real flags entries :
  forall n w r w',
    0 <= n < 2 ^ 32 ->
    set_properties_pass for_real flags entries n w = (inr r, w') ->
    r = (n + (if for_real then Z.of_nat (length entries) else 0)) mod 2 ^ 32.
Proof.
  induction entries as [|[name message] rest IH]; intros n w r w' Hn Hrun.
  - cbn in Hrun. injection Hrun as <- <-.
    destruct for_real; rewrite Z.add_0_r, Z.mod_small; lia.
  - cbn [set_properties_pass] in Hrun.
    apply bind_inr in Hrun as ([] & w1 & _ & Hrest).
    apply IH in Hrest; [|unfold uint32_of; apply Z.mod_pos_bound; lia].
    rewrite Hrest. unfold uint32_of. cbn [length].
    rewrite Nat2Z.inj_succ.
    destruct for_real.
    + rewrite Zplus_mod_idemp_l. f_equal. lia.
    + rewrite Z.add_0_r, Z.add_0_r, Z.mod_mod by lia. reflexivity.
Qed.

Lemma set_properties_finish commit (n : Z) (w : World) :
  exists w',
    (let* u := get_unit in
     (if commit && (n >? 0) then
        match vtable_bus_commit_properties (type u) with
        | Some bus_commit_properties => logged bus_commit_properties
        | None => ret tt
        end
      else ret tt);;
     ret (int32_of_uint32 n)) w = (inr (int32_of_uint32 n), w') /\
    (commit && (n >? 0) = false -> w' = w).
Proof.
  unfold bind, get_unit, logged, ret.
  destruct (commit && (n >? 0)); [|eauto].
  destruct (vtable_bus_commit_properties (type (unit_of w))); eexists;
    (split; [reflexivity | discriminate]).
Qed.

(** X4. A successful SetProperties call answers with the number of
    entries of the batch, and with 0 when the flags ask for validation
    only. *)
Theorem set_properties_counts_entries (entries : list (string * bus_value))
    (flags : Z) (commit : bool) (w : World) (r : Z) :
  Z.of_nat (length entries) < 2 ^ 31 ->
  fst (bus_unit_set_properties entries flags commit w) = inr r ->
  r = if UNIT_WRITE_FLAGS_NOOP flags then 0 else Z.of_nat (length entries).
Proof.
  intros Hlen Hrun.
  destruct (bus_unit_set_properties entries flags commit w) as [res w']
    eqn:Hcall.
  cbn [fst] in Hrun. subst res. unfold bus_unit_set_properties in Hcall.
  apply bind_inr in Hcall as (n1 & w1 & Hpass1 & Hcall).
  apply bind_inr in Hcall as (n2 & w2 & Hpass2 & Hcall).
  apply set_properties_pass_count in Hpass1; [|lia].
  rewrite Z.add_0_l, Z.mod_0_l in Hpass1 by lia. subst n1.
  destruct (set_properties_finish commit n2 w2) as (w3 & Hfin & _).
  rewrite Hfin in Hcall. injection Hcall as <- _.
  destruct (UNIT_WRITE_FLAGS_NOOP flags).
  - injection Hpass2 as <- _. reflexivity.
  - apply set_properties_pass_count in Hpass2; [|lia].
    rewrite Z.add_0_l, Z.mod_small in Hpass2 by lia. subst n2.
    unfold int32_of_uint32. rewrite Z.mod_small by lia.
    destruct (Z.ltb_spec (Z.of_nat (length entries)) (2 ^ 31)); lia.
Qed.

(** X5. A validation-only call (flags without a target) runs over the
    batch once and stops there: the world afterwards is the one the first
    run left, the commit hook is not called, and with per-type handlers
    that honour the flags the unit is what it was. *)
Theorem validation_only_call_is_dry (entries : list (string * bus_value))
    (flags : Z) (commit : bool) (w : World) :
  UNIT_WRITE_FLAGS_NOOP flags = true ->
  snd (bus_unit_set_properties entries flags commit w) =
  snd (set_properties_pass false flags entries 0 w) /\
  (subtype_handlers_dry ->
   unit_of (snd (bus_unit_set_properties entries flags commit w)) = unit_of w).
Proof.
  intros Hnoop.
  assert (Hsnd : snd (bus_unit_set_properties entries flags commit w) =
                 snd (set_properties_pass false flags entries 0 w)).
  { unfold bus_unit_set_properties. unfold bind at 1.
    destruct (set_properties_pass false flags entries 0 w) as [[e | n] w1]
      eqn:Hpass; [reflexivity|].
    apply set_properties_pass_count in Hpass; [|lia].
    rewrite Z.add_0_l, Z.mod_0_l in Hpass by lia. subst n.
    rewrite Hnoop. unfold bind at 1. cbn [ret].
    destruct (set_properties_finish commit 0 w1) as (w3 & Hfin & Hsame).
    rewrite Hfin. cbn [snd]. apply Hsame. apply andb_false_r. }
  split; [exact Hsnd|].
  intros Hdry. rewrite Hsnd.
  apply (first_pass_dry Hdry (unit_of w) flags entries 0 w eq_refl).
Qed.

End Counting.

Lemma set_properties_counts_entries_witness :
  2 = if UNIT_WRITE_FLAGS_NOOP (H := sample running) 1 then 0
      else Z.of_nat (length valid_batch).
Proof.
  apply (set_properties_counts_entries (H := sample running) valid_batch 1
           true (sample_world sample_unit) 2).
  - cbn. lia.
  - vm_compute. reflexivity.
Defined.

Lemma validation_only_call_is_dry_witness :
  snd (bus_unit_set_properties (H := sample running) valid_batch 4 true
         (sample_world sample_unit)) =
  snd (set_properties_pass (H := sample running) false 4 valid_batch 0
         (sample_world sample_unit)).
Proof.
  apply (proj1 (validation_only_call_is_dry (H := sample running) valid_batch
                  4 true (sample_world sample_unit) eq_refl)).
Defined.

Section Unreachable.
Context `{Collaborators}.

Lemma job_timeout_usec_rejected (message : bus_value) (f : Z) (w : World) :
  handlers_decline "JobTimeoutUSec" ->
  unit_dependency_from_string "JobTimeoutUSec" < 0 ->
  UNIT_WRITE_FLAGS_NOOP f = true ->
  is_ok (fst (set_one_property "JobTimeoutUSec" message f w)) = false.
Proof.
  intros Hdecline Hdep Hnoop.
  unfold set_one_property, bind, get_unit.
  destruct (vtable_bus_set_property (type (unit_of w))) as [handler|] eqn:Hvt;
    [|reflexivity].
  rewrite (Hdecline _ _ message f w Hvt).
  assert (Htransient :
            bus_unit_set_transient_property "JobTimeoutUSec" message f w =
            (inr 0, w)).
  { unfold bus_unit_set_transient_property. eval_streq. cbn iota.
    unfold bind, bus_set_transient_usec_fix_0, bus_set_transient, lift.
    rewrite Hnoop. cbn [negb andb].
    assert (Htail : forall cursor,
              transient_dependency_or_ref "JobTimeoutUSec" cursor f w =
              (inr 0, w)).
    { intros cursor. unfold transient_dependency_or_ref. eval_streq.
      cbn iota. destruct (Z.geb_spec (unit_dependency_from_string
                                        "JobTimeoutUSec") 0); [lia|].
      reflexivity. }
    destruct (read_t message) as [e | v]; cbn; apply Htail. }
  assert (Hlive : bus_unit_set_live_property "JobTimeoutUSec" message f w =
                  (inr 0, w)).
  { unfold bus_unit_set_live_property. eval_streq. reflexivity. }
  change (0 =? 0) with true. cbn [andb].
  destruct (transient (unit_of w) && bool_decide (load_state (unit_of w) = UNIT_STUB)).
  - rewrite Htransient. change (0 =? 0) with true. cbn iota.
    rewrite Hlive. reflexivity.
  - cbn [ret]. change (0 =? 0) with true. cbn iota. rewrite Hlive.
    reflexivity.
Qed.

(** X6. The "JobTimeoutUSec" branch of the transient handler does not
    return: when no per-type handler takes the property and the name is
    no dependency kind, a batch that holds a "JobTimeoutUSec" entry, with
    whatever value, fails as a whole and the unit is left as it was. *)
Theorem job_timeout_usec_cannot_be_set (entries : list (string * bus_value))
    (flags : Z) (commit : bool) (w : World) (message : bus_value) :
  subtype_handlers_dry ->
  handlers_decline "JobTimeoutUSec" ->
  unit_dependency_from_string "JobTimeoutUSec" < 0 ->
  In ("JobTimeoutUSec", message) entries ->
  is_ok (fst (bus_unit_set_properties entries flags commit w)) = false /\
  unit_of (snd (bus_unit_set_properties entries flags commit w)) = unit_of w.
Proof.
  intros Hdry Hdecline Hdep Hin.
  assert (Hex : Exists (entry_invalid (unit_of w) flags) entries).
  { apply List.Exists_exists. exists ("JobTimeoutUSec", message).
    split; [exact Hin|]. intros w' _. cbn [fst snd].
    apply job_timeout_usec_rejected; auto using dry_flags_noop. }
  pose proof (first_pass_rejects Hdry flags entries 0 w Hex) as Hfail.
  pose proof (first_pass_dry Hdry (unit_of w) flags entries 0 w eq_refl)
    as Hsame.
  destruct (set_properties_pass false flags entries 0 w) as [[e | n] w1]
    eqn:Hrun; [|discriminate].
  assert (Hout : bus_unit_set_properties entries flags commit w =
                 (inl e, w1)).
  { unfold bus_unit_set_properties. unfold bind at 1. rewrite Hrun.
    reflexivity. }
  rewrite Hout. split; [reflexivity | exact Hsame].
Qed.

Lemma handlers_decline_dry :
  (forall name, handlers_decline name) -> subtype_handlers_dry.
Proof.
  intros Hdecline t handler name message f w Hvt _.
  rewrite (Hdecline name t handler message f w Hvt). reflexivity.
Qed.

Lemma only_description_entry (name : string) (message : bus_value)
    (f : Z) (w w' : World) :
  (forall name, handlers_decline name) ->
  transient (unit_of w) && bool_decide (load_state (unit_of w) = UNIT_STUB)
  = false ->
  set_one_property name message f w = (inr tt, w') ->
  name = "Description" /\ exists s, message = BusString s.
Proof.
  intros Hdecline Hfixed Hrun.
  unfold set_one_property, bind, get_unit in Hrun.
  destruct (vtable_bus_set_property (type (unit_of w))) as [handler|] eqn:Hvt;
    [|discriminate].
  rewrite (Hdecline name _ _ message f w Hvt) in Hrun.
  change (0 =? 0) with true in Hrun. cbn [andb] in Hrun.
  rewrite Hfixed in Hrun. cbn [ret] in Hrun. change (0 =? 0) with true in Hrun.
  cbn iota in Hrun.
  unfold bus_unit_set_live_property in Hrun.
  destruct (streq name "Description") eqn:Hname.
  - apply bool_decide_eq_true in Hname. split; [exact Hname|].
    unfold bind, lift in Hrun.
    destruct message; cbn in Hrun; try discriminate. eauto.
  - cbn in Hrun. discriminate.
Qed.

(** X7. What was fixed at creation stays fixed: on a unit that is not a
    transient stub, and with no per-type handler taking anything, every
    entry of a batch that SetProperties accepts is a "Description" with a
    string value. *)
Theorem only_description_after_creation
    (entries : list (string * bus_value)) (flags : Z) (commit : bool)
    (w : World) :
  (forall name, handlers_decline name) ->
  transient (unit_of w) && bool_decide (load_state (unit_of w) = UNIT_STUB)
  = false ->
  is_ok (fst (bus_unit_set_properties entries flags commit w)) = true ->
  Forall (fun entry =>
            fst entry = "Description" /\ exists s, snd entry = BusString s)
    entries.
Proof.
  intros Hdecline Hfixed Hok.
  pose proof (handlers_decline_dry Hdecline) as Hdry.
  assert (Hpass : forall n w0 r w1,
            unit_of w0 = unit_of w ->
            set_properties_pass false flags entries n w0 = (inr r, w1) ->
            Forall (fun entry =>
                      fst entry = "Description" /\
                      exists s, snd entry = BusString s) entries).
  { clear Hok. induction entries as [|[name message] rest IH];
      intros n w0 r w1 Hu Hrun; [constructor|].
    cbn [set_properties_pass] in Hrun.
    apply bind_inr in Hrun as ([] & w2 & Hone & Hrest).
    constructor.
    - cbn [fst snd].
      refine (only_description_entry name message _ w0 w2 Hdecline _ Hone).
      rewrite Hu. exact Hfixed.
    - eapply IH; [|exact Hrest].
      pose proof (set_one_property_dry Hdry (unit_of w0) name message flags
                    w0 eq_refl) as Hsame.
      unfold dry_flags in Hsame. rewrite Hone in Hsame. cbn [snd] in Hsame.
      unfold same_unit in Hsame. congruence. }
  unfold bus_unit_set_properties in Hok. unfold bind at 1 in Hok.
  destruct (set_properties_pass false flags entries 0 w) as [[e | n] w1]
    eqn:Hrun; [discriminate|].
  eapply Hpass; [reflexivity | exact Hrun].
Qed.

End Unreachable.

Lemma sample_handlers_decline (c : sample_config) (name : string) :
  handlers_decline (H := sample c) name.
Proof.
  intros t handler message f w Hhandler.
  destruct t; cbn in Hhandler; try discriminate;
    injection Hhandler as <-; reflexivity.
Qed.

Lemma job_timeout_usec_cannot_be_set_witness :
  is_ok (fst (bus_unit_set_properties (H := sample running) timeout_batch 1
                true (sample_world sample_unit))) = false /\
  unit_of (snd (bus_unit_set_properties (H := sample running) timeout_batch 1
                  true (sample_world sample_unit))) = sample_unit.
Proof.
  apply (job_timeout_usec_cannot_be_set (H := sample running) timeout_batch 1
           true (sample_world sample_unit) (BusUInt64 5000000)).
  - apply handlers_decline_dry, sample_handlers_decline.
  - apply sample_handlers_decline.
  - vm_compute. reflexivity.
  - cbn. auto.
Defined.

Lemma only_description_after_creation_witness :
  Forall (fun entry =>
            fst entry = "Description" /\ exists s, snd entry = BusString s)
    description_batch.
Proof.
  apply (only_description_after_creation (H := sample running)
           description_batch 1 true (sample_world loaded_unit)).
  - apply sample_handlers_decline.
  - reflexivity.
  - vm_compute. reflexivity.
Defined.

(** ** What GetProcesses reports *)

Section Listing.
Context `{Collaborators}.

Lemma string_app_cons (x : Ascii.ascii) (a b : string) :
  String x a +:+ b = String x (a +:+ b).
Proof. reflexivity. Qed.

Lemma string_app_assoc (a b c : string) : (a +:+ b) +:+ c = a +:+ (b +:+ c).
Proof.
  induction a as [|x a IH]; [reflexivity|].
  rewrite !string_app_cons, IH. reflexivity.
Qed.

Lemma under_refl p : under p p.
Proof.
  exists "". induction p as [|c p IH]; [reflexivity|].
  rewrite string_app_cons, <- IH. reflexivity.
Qed.

Lemma under_below p q rest : under p q -> under p (q +:+ rest).
Proof.
  intros [tail ->]. exists (tail +:+ rest). apply string_app_assoc.
Qed.

(** What one call of [append_process] does, whatever comes of it: the
    set only grows, the reply is left alone or grows by the one element
    for [pid], and the only failure is that of the path lookup. *)
Lemma append_process_cases p pid s :
  0 < pid ->
  let out := append_process p pid s in
  seen s ⊆ seen (snd out) /\
  (exists added,
     reply_elems (snd out) = reply_elems s ++ added /\
     (added = [] \/
      exists q,
        added = [process_entry q pid] /\ pid ∈ seen (snd out) /\
        (p = Some q \/ p = None /\ cg_pid_get_path pid = inr q))) /\
  (fst out = inr 0 \/
   p = None /\ exists e, fst out = inl e /\ cg_pid_get_path pid = inl e).
Proof.
  intros Hpos. cbn zeta. unfold append_process.
  destruct (Z.gtb_spec pid 0) as [_ | Hneg]; [|lia]. cbn [negb].
  unfold bind, set_put.
  destruct (bool_decide (pid ∈ seen s)) eqn:Eseen.
  - cbn. split; [set_solver|]. split; [|auto].
    exists []. rewrite app_nil_r. auto.
  - change ((1 =? 0) || (1 =? - EEXIST)) with false.
    change (1 <? 0) with false. cbn beta iota.
    assert (Hleft : forall e : result Z,
              exists added,
                reply_elems (e, mkWalk (reply_elems s) ({[pid]} ∪ seen s)).2 =
                reply_elems s ++ added /\
                (added = [] \/
                 exists q,
                   added = [process_entry q pid] /\
                   pid ∈ seen (e, mkWalk (reply_elems s)
                                    ({[pid]} ∪ seen s)).2 /\
                   (p = Some q \/ p = None /\ cg_pid_get_path pid = inr q))).
    { intros e. exists []. cbn. rewrite app_nil_r. auto. }
    destruct p as [p|].
    + cbn [fst snd reply_elems seen]. split; [set_solver|].
      split; [|auto]. eexists. split; [reflexivity|]. right. exists p.
      repeat split; [set_solver | auto].
    + destruct (cg_pid_get_path pid) as [[r | | |] | buf] eqn:Epath.
      * destruct (Z.eqb_spec r (- ESRCH)) as [Hr | Hr].
        -- split; [cbn; set_solver|]. split; [apply Hleft | auto].
        -- split; [cbn; set_solver|]. split; [apply Hleft|].
           right. split; [reflexivity|]. eexists. split; reflexivity.
      * split; [cbn; set_solver|]. split; [apply Hleft|].
        right. split; [reflexivity|]. eexists. split; reflexivity.
      * split; [cbn; set_solver|]. split; [apply Hleft|].
        right. split; [reflexivity|]. eexists. split; reflexivity.
      * split; [cbn; set_solver|]. split; [apply Hleft|].
        right. split; [reflexivity|]. eexists. split; reflexivity.
      * cbn [fst snd reply_elems seen]. split; [set_solver|].
        split; [|auto]. eexists. split; [reflexivity|]. right. exists buf.
        repeat split; [set_solver | auto].
Qed.

Lemma under_trans p q r : under p q -> under q r -> under p r.
Proof.
  intros [a ->] [b ->]. exists (a +:+ b). apply string_app_assoc.
Qed.

Lemma under_sub p name : under p (p +:+ "/" +:+ name).
Proof. eexists. reflexivity. Qed.

(** Every group of a tree lies at the path of the tree or below it. *)
Lemma cgroup_entries_under g :
  forall p q pid, (q, pid) ∈ cgroup_entries g p -> under p q.
Proof.
  induction g as [procs_r procs procs_end subs_r subs subs_end IH]
    using cgroup_tree_ind.
  intros p q pid Hin. cbn [cgroup_entries] in Hin.
  apply elem_of_app in Hin as [Hin | Hin].
  - apply list_elem_of_In, in_map_iff in Hin as (pid' & Heq & _).
    injection Heq as <- _. apply under_refl.
  - induction subs as [|[name child] rest IHrest];
      [inversion Hin|].
    inversion IH as [|? ? IHchild IHothers]; subst. cbn [snd] in IHchild.
    apply elem_of_app in Hin as [Hin | Hin].
    + eapply under_trans; [apply under_sub | eapply IHchild, Hin].
    + apply IHrest; assumption.
Qed.

Section Entries.
Variable Q : bus_value -> Prop.

Lemma append_process_entries p pid :
  (forall q, 0 < pid ->
             p = Some q \/ p = None /\ cg_pid_get_path pid = inr q ->
             Q (process_entry q pid)) ->
  preserves (entries_are Q) (append_process p pid).
Proof.
  intros Hentry s Hs. unfold entries_are in *.
  destruct (Z.gtb_spec pid 0) as [Hpos | Hneg].
  - destruct (append_process_cases p pid s Hpos)
      as (_ & (added & -> & [-> | (q & -> & _ & Hq)]) & _).
    + rewrite app_nil_r. exact Hs.
    + apply Forall_app. split; [exact Hs|]. constructor; [|constructor].
      apply Hentry; auto.
  - unfold append_process. destruct (Z.gtb_spec pid 0); [lia|]. exact Hs.
Qed.

Lemma append_cgroup_pids_entries p procs procs_end :
  (forall pid, pid ∈ procs -> 0 < pid ->
               (is_kernel_thread pid >? 0) = false ->
               Q (process_entry p pid)) ->
  preserves (entries_are Q) (append_cgroup_pids p procs procs_end).
Proof.
  induction procs as [|pid rest IH]; intros Hlisted;
    cbn [append_cgroup_pids].
  - destruct (procs_end <? 0); auto with preserves.
  - assert (Hrest : preserves (entries_are Q)
                      (append_cgroup_pids p rest procs_end)).
    { apply IH. intros pid' Hin. apply Hlisted. apply elem_of_cons. auto. }
    destruct (is_kernel_thread pid >? 0) eqn:Ekernel; [exact Hrest|].
    apply preserves_bind; [|intros _; exact Hrest].
    apply append_process_entries. intros q Hpos [Hq | [Hq _]];
      [|discriminate].
    injection Hq as <-. apply Hlisted; auto. apply elem_of_cons. auto.
Qed.

Lemma append_cgroup_entries g :
  forall p,
    (forall q pid, (q, pid) ∈ cgroup_entries g p -> 0 < pid ->
                   (is_kernel_thread pid >? 0) = false ->
                   Q (process_entry q pid)) ->
    preserves (entries_are Q) (append_cgroup g p).
Proof.
  induction g as [procs_r procs procs_end subs_r subs subs_end IH]
    using cgroup_tree_ind.
  intros p Hlisted. cbn [append_cgroup cgroup_entries] in *.
  apply preserves_if; [auto with preserves|].
  apply preserves_if; [auto with preserves|].
  apply preserves_bind.
  { apply append_cgroup_pids_entries. intros pid Hin. apply Hlisted.
    apply elem_of_app. left. apply list_elem_of_In, in_map_iff.
    exists pid. split; [reflexivity|]. apply list_elem_of_In, Hin. }
  intros _.
  apply preserves_if; [auto with preserves|].
  apply preserves_if; [auto with preserves|].
  assert (Hbelow : forall q pid,
            (q, pid) ∈
              (fix below (l : list (string * cgroup)) : list (string * Z) :=
                 match l with
                 | [] => []
                 | (name, child) :: rest =>
                     cgroup_entries child (p +:+ "/" +:+ name) ++ below rest
                 end) subs ->
            0 < pid -> (is_kernel_thread pid >? 0) = false ->
            Q (process_entry q pid)).
  { intros q pid Hin. apply Hlisted. apply elem_of_app. auto. }
  clear Hlisted. induction subs as [|[name child] rest IHrest].
  - destruct (subs_end <? 0); auto with preserves.
  - inversion IH as [|? ? IHchild IHothers]; subst. cbn [snd] in IHchild.
    apply preserves_bind.
    + apply IHchild. intros q pid Hin. apply Hbelow.
      apply elem_of_app. auto.
    + intros _. apply IHrest; [exact IHothers|].
      intros q pid Hin. apply Hbelow. apply elem_of_app. auto.
Qed.

End Entries.

(** X8. Whatever GetProcesses has put into the reply, also when it
    fails half-way: every element is either for a process that the
    resource controller lists in a group of the unit's control group
    tree, is no kernel thread and is reported with the path of the group
    that lists it, or it is the main or the control process with the
    path the resource controller names for it. *)
Theorem get_processes_reports_only_unit_processes (u : Unit) (tree : cgroup) :
  Forall (fun v =>
            (exists p, cgroup_path u = Some p /\ entry_from_cgroup tree p v) \/
            entry_of_pid (unit_main_pid u) v \/
            entry_of_pid (unit_control_pid u) v)
    (reply_elems (snd (bus_unit_method_get_processes u tree empty_walk))).
Proof.
  set (Q := fun v =>
              (exists p, cgroup_path u = Some p /\
                         entry_from_cgroup tree p v) \/
              entry_of_pid (unit_main_pid u) v \/
              entry_of_pid (unit_control_pid u) v).
  assert (Hall : preserves (entries_are Q)
                   (bus_unit_method_get_processes u tree)).
  { unfold bus_unit_method_get_processes.
    apply preserves_bind; [auto with preserves|]. intros _.
    apply preserves_bind; [auto with preserves|]. intros _.
    apply preserves_bind; [auto with preserves|]. intros _.
    apply preserves_bind; [auto with preserves|]. intros _.
    apply preserves_bind.
    { destruct (cgroup_path u) as [p|] eqn:Epath; [|auto with preserves].
      apply (append_cgroup_entries Q tree p).
      intros q pid Hin Hpos Hkernel. left. exists p. split; [reflexivity|].
      exists q, pid. repeat split; auto.
      eapply cgroup_entries_under, Hin. }
    intros _. apply preserves_bind.
    { cbn zeta. apply preserves_if; [|auto with preserves].
      apply append_process_entries. intros q Hpos [Hq | [_ Hq]];
        [discriminate|].
      right. left. exists q. auto. }
    intros _. apply preserves_bind.
    { cbn zeta. apply preserves_if; [|auto with preserves].
      apply append_process_entries. intros q Hpos [Hq | [_ Hq]];
        [discriminate|].
      right. right. exists q. auto. }
    intros _. apply preserves_bind; [auto with preserves|]. intros _.
    apply preserves_bind; [auto with preserves|]. intros s0. cbn zeta.
    apply preserves_bind; auto with preserves. }
  apply Hall. constructor.
Qed.

End Listing.

Section Complete.
Context `{Collaborators}.

Lemma covered_emit s q pid :
  covered s ->
  covered (mkWalk (reply_elems s ++ [process_entry q pid])
             ({[pid]} ∪ seen s)).
Proof.
  intros Hs pid' Hin. cbn [reply_elems seen] in *. rewrite map_app.
  apply elem_of_app. apply elem_of_union in Hin as [Hin | Hin].
  - apply elem_of_singleton in Hin. subst pid'. right. cbn.
    apply list_elem_of_singleton. reflexivity.
  - left. apply Hs, Hin.
Qed.

Lemma append_process_complete q pid s :
  0 < pid -> covered s ->
  exists s',
    append_process (Some q) pid s = (inr 0, s') /\ covered s' /\
    seen s ⊆ seen s' /\ pid ∈ seen s'.
Proof.
  intros Hpos Hs. unfold append_process.
  destruct (Z.gtb_spec pid 0) as [_ | Hneg]; [|lia]. cbn [negb].
  unfold bind, set_put.
  destruct (bool_decide (pid ∈ seen s)) eqn:Eseen.
  - apply bool_decide_eq_true in Eseen. exists s. cbn. auto.
  - change ((1 =? 0) || (1 =? - EEXIST)) with false.
    change (1 <? 0) with false. cbn beta iota.
    exists (mkWalk (reply_elems s ++ [process_entry q pid])
              ({[pid]} ∪ seen s)).
    split; [reflexivity|]. cbn [seen].
    split; [apply covered_emit, Hs|]. split; set_solver.
Qed.

Lemma append_cgroup_pids_complete p procs procs_end :
  forall s,
    forallb (fun pid => 0 <? pid) procs = true -> 0 <= procs_end ->
    covered s ->
    exists s',
      append_cgroup_pids p procs procs_end s = (inr 0, s') /\ covered s' /\
      seen s ⊆ seen s' /\
      forall pid, pid ∈ procs -> (is_kernel_thread pid >? 0) = false ->
                  pid ∈ seen s'.
Proof.
  induction procs as [|pid rest IH]; intros s Hpos Hend Hs;
    cbn [append_cgroup_pids forallb] in *.
  - destruct (Z.ltb_spec procs_end 0); [lia|]. exists s.
    repeat split; auto. intros pid Hin. inversion Hin.
  - apply andb_true_iff in Hpos as [Hpid Hrest]. apply Z.ltb_lt in Hpid.
    destruct (is_kernel_thread pid >? 0) eqn:Ekernel.
    + destruct (IH s Hrest Hend Hs) as (s' & Hrun & Hs' & Hsub & Hin).
      exists s'. repeat split; auto.
      intros pid' Hpid' Hk. apply elem_of_cons in Hpid' as [-> | Hpid'];
        [congruence | auto].
    + destruct (append_process_complete p pid s Hpid Hs)
        as (s1 & Hone & Hs1 & Hsub1 & Hin1).
      destruct (IH s1 Hrest Hend Hs1) as (s' & Hrun & Hs' & Hsub & Hin).
      exists s'. unfold bind. rewrite Hone.
      repeat split; auto; [set_solver|].
      intros pid' Hpid' Hk. apply elem_of_cons in Hpid' as [-> | Hpid'];
        [set_solver | auto].
Qed.

Lemma append_cgroup_complete g :
  forall p s,
    fully_listed g = true -> covered s ->
    exists s',
      append_cgroup g p s = (inr 0, s') /\ covered s' /\
      seen s ⊆ seen s' /\
      forall pid, pid ∈ cgroup_pids g -> (is_kernel_thread pid >? 0) = false ->
                  pid ∈ seen s'.
Proof.
  induction g as [procs_r procs procs_end subs_r subs subs_end IH]
    using cgroup_tree_ind.
  intros p s Hfull Hs. cbn [append_cgroup fully_listed cgroup_pids] in *.
  repeat (apply andb_true_iff in Hfull as [Hfull ?]).
  repeat match goal with
         | H : (0 <=? _) = true |- _ => apply Z.leb_le in H
         | H : negb _ = true |- _ => apply negb_true_iff in H
         end.
  match goal with H : (procs_r =? ENOENT) = false |- _ => rewrite H end.
  destruct (Z.ltb_spec procs_r 0); [lia|].
  destruct (append_cgroup_pids_complete p procs procs_end s)
    as (s1 & Hprocs & Hs1 & Hsub1 & Hin1); auto.
  unfold bind at 1. rewrite Hprocs.
  destruct (Z.eqb_spec subs_r (- ENOENT)) as [Hgone | _];
    [unfold ENOENT in Hgone; lia|].
  destruct (Z.ltb_spec subs_r 0); [lia|].
  match goal with
  | Hb : _ subs = true |- _ => rename Hb into Hbelow
  end.
  assert (Hsubs : forall s0,
            covered s0 ->
            exists s',
              (fix subgroups (l : list (string * cgroup)) : M walk Z :=
                 match l with
                 | [] => if subs_end <? 0 then fail (Errno subs_end)
                         else ret 0
                 | (name, child) :: rest =>
                     let j := p +:+ "/" +:+ name in
                     append_cgroup child j;; subgroups rest
                 end) subs s0 = (inr 0, s') /\ covered s' /\
              seen s0 ⊆ seen s' /\
              forall pid,
                pid ∈ (fix below (l : list (string * cgroup)) : list Z :=
                         match l with
                         | [] => []
                         | (_, child) :: rest => cgroup_pids child ++ below rest
                         end) subs ->
                (is_kernel_thread pid >? 0) = false -> pid ∈ seen s').
  { clear Hprocs Hin1 Hsub1 Hs1 s1 Hs s.
    induction subs as [|[name child] rest IHrest]; intros s0 Hs0.
    - destruct (Z.ltb_spec subs_end 0); [lia|]. exists s0.
      repeat split; auto. intros pid Hin. inversion Hin.
    - apply andb_true_iff in Hbelow as [Hchild Hrest].
      inversion IH as [|? ? IHchild IHothers]; subst. cbn [snd] in IHchild.
      destruct (IHchild (p +:+ "/" +:+ name) s0 Hchild Hs0)
        as (s2 & Hrun2 & Hs2 & Hsub2 & Hin2).
      destruct (IHrest IHothers Hrest s2 Hs2)
        as (s3 & Hrun3 & Hs3 & Hsub3 & Hin3).
      exists s3. cbn zeta. unfold bind. rewrite Hrun2.
      repeat split; auto; [set_solver|].
      intros pid Hin Hk. apply elem_of_app in Hin as [Hin | Hin];
        [set_solver | auto]. }
  destruct (Hsubs s1 Hs1) as (s' & Hrun & Hs' & Hsub & Hin).
  exists s'. repeat split; auto; [set_solver|].
  intros pid Hpid Hk. apply elem_of_app in Hpid as [Hpid | Hpid];
    [set_solver | auto].
Qed.

(** X9. When every listing of the unit's control group tree answers
    without an error, a reply of GetProcesses reports every process of
    the tree that is no kernel thread. *)
Theorem get_processes_lists_every_process (u : Unit) (tree : cgroup)
    (p : string) (reply : sd_bus_message) (s : walk) :
  cgroup_path u = Some p ->
  fully_listed tree = true ->
  bus_unit_method_get_processes u tree empty_walk = (inr reply, s) ->
  forall pid,
    pid ∈ cgroup_pids tree -> (is_kernel_thread pid >? 0) = false ->
    Some (uint32_of pid) ∈ reported_pids reply.
Proof.
  intros Hpath Hfull Hrun.
  pose proof (get_processes_reply u tree empty_walk s reply Hrun) as Hreply.
  destruct (append_cgroup_complete tree p empty_walk Hfull)
    as (s1 & Hwalk & Hs1 & _ & Hin1).
  { intros pid Hpid. inversion Hpid. }
  assert (Hstep : forall pid s0 r s',
            (if pid >? 0 then append_process None pid else ret 0) s0
            = (r, s') ->
            forall x, x ∈ map reported_pid (reply_elems s0) ->
                      x ∈ map reported_pid (reply_elems s')).
  { intros pid s0 r s' Hcall. destruct (Z.gtb_spec pid 0) as [Hpos | _].
    - destruct (append_process_cases None pid s0 Hpos)
        as (_ & (added & Hadded & _) & _).
      rewrite Hcall in Hadded. cbn [snd] in Hadded. rewrite Hadded.
      intros x Hx. rewrite map_app. apply elem_of_app. auto.
    - injection Hcall as _ <-. auto. }
  unfold bus_unit_method_get_processes in Hrun. rewrite Hpath in Hrun.
  apply bind_inr in Hrun as ([] & s0 & Hacc & Hrun).
  unfold lift in Hacc. injection Hacc as _ <-.
  apply bind_inr in Hrun as ([] & s0 & Hset & Hrun).
  destruct set_new; [|discriminate]. injection Hset as <-.
  apply bind_inr in Hrun as ([] & s0 & Hnew & Hrun).
  apply checked_inr in Hnew as [_ ->].
  apply bind_inr in Hrun as ([] & s0 & Hopen & Hrun).
  apply checked_inr in Hopen as [_ ->].
  apply bind_inr in Hrun as (r1 & s1' & Htree & Hrun).
  rewrite Hwalk in Htree. injection Htree as _ <-.
  apply bind_inr in Hrun as (r2 & s2 & Hmain & Hrun).
  apply bind_inr in Hrun as (r3 & s3 & Hcontrol & Hrun).
  apply bind_inr in Hrun as ([] & s4 & Hclose & Hrun).
  apply checked_inr in Hclose as [_ ->].
  apply bind_inr in Hrun as (sg & s5 & Hget & Hrun). cbn zeta in Hrun.
  injection Hget as -> ->.
  apply bind_inr in Hrun as ([] & s6 & Hsend & Hrun).
  apply checked_inr in Hsend as [_ ->]. injection Hrun as _ <-.
  intros pid Hpid Hkernel. rewrite Hreply. cbn [reported_pids].
  eapply Hstep; [exact Hcontrol|]. eapply Hstep; [exact Hmain|]. auto.
Qed.

End Complete.

Lemma get_processes_lists_every_process_witness :
  Some (uint32_of 102) ∈
  map reported_pid
    (reply_elems
       (snd (bus_unit_method_get_processes (H := sample with_main_pid)
               sample_unit listed_tree empty_walk))).
Proof.
  refine (get_processes_lists_every_process (H := sample with_main_pid)
            sample_unit listed_tree "/system.slice/demo.service"
            [BusArray "(sus)"
               (reply_elems
                  (snd (bus_unit_method_get_processes
                          (H := sample with_main_pid)
                          sample_unit listed_tree empty_walk)))]
            (snd (bus_unit_method_get_processes (H := sample with_main_pid)
                    sample_unit listed_tree empty_walk))
            eq_refl eq_refl _ 102 _ eq_refl).
  - vm_compute. reflexivity.
  - apply list_elem_of_In. cbn. auto 10.
Defined.

(** ** What AttachProcesses migrates *)

Section AttachSet.
Context `{Collaborators}.

Lemma put_known (s t : gset Z) (pid : Z) :
  pid ∈ s -> t ∪ s = ({[pid]} ∪ t) ∪ s.
Proof.
  intros Ein. apply leibniz_equiv. intros x.
  rewrite !elem_of_union, elem_of_singleton.
  split; [tauto|]. intros [[-> | Hx] | Hx]; auto.
Qed.

Lemma put_new (s t : gset Z) (pid : Z) :
  t ∪ ({[pid]} ∪ s) = ({[pid]} ∪ t) ∪ s.
Proof.
  apply leibniz_equiv. intros x.
  rewrite !elem_of_union, elem_of_singleton. tauto.
Qed.

Lemma put_known_last (s : gset Z) (pid : Z) :
  pid ∈ s -> s = list_to_set [pid] ∪ s.
Proof.
  intros Ein. cbn. rewrite <- put_known by exact Ein.
  symmetry. apply leibniz_equiv, left_id, _.
Qed.

Lemma put_new_last (s : gset Z) (pid : Z) :
  {[pid]} ∪ s = list_to_set [pid] ∪ s.
Proof.
  cbn. rewrite <- put_new. symmetry. apply leibniz_equiv, left_id, _.
Qed.

Lemma attach_loop_set u creds upids :
  forall pids pids',
    (forall pid, set_contains pids pid = true ->
                 unit_pid_attachable u pid = inr tt) ->
    attach_processes_loop u creds upids pids = (inr tt, pids') ->
    exists l,
      resolved creds upids l /\
      Forall (fun pid => unit_pid_attachable u pid = inr tt) l /\
      pids' = match upids with
              | [] => pids
              | _ => Some (list_to_set l ∪ default ∅ pids)
              end.
Proof.
  induction upids as [|upid rest IH]; intros pids pids' Hpids Hrun.
  - injection Hrun as <-. exists []. repeat split; constructor.
  - rewrite attach_processes_loop_cons in Hrun.
    destruct (requested_pid creds upid) as [e | pid] eqn:Ereq;
      [discriminate|].
    destruct (set_contains pids pid) eqn:Ein.
    + destruct (IH pids pids' Hpids Hrun) as (l & Hl & Hatt & ->).
      exists (pid :: l). split; [constructor; assumption|].
      split; [constructor; auto|].
      destruct pids as [s|]; [|discriminate]. cbn in Ein.
      apply bool_decide_eq_true in Ein. cbn [default].
      destruct rest as [|upid' rest'].
      * inversion Hl; subst. f_equal. apply put_known_last, Ein.
      * f_equal. apply put_known, Ein.
    + destruct (unit_pid_attachable u pid) as [e | []] eqn:Eatt;
        [discriminate|].
      destruct (creds_euid creds) as [e | sender_uid]; [discriminate|].
      destruct (ownership_check u sender_uid pid) as [e | []];
        [discriminate|].
      destruct (negb _) in Hrun; [discriminate|].
      destruct (set_put_new pid <? 0) in Hrun; [discriminate|].
      destruct (IH (Some ({[pid]} ∪ default ∅ pids)) pids') as (l & Hl & Hatt & ->).
      { intros q Hq. cbn in Hq. apply bool_decide_eq_true in Hq.
        apply elem_of_union in Hq as [Hq | Hq].
        - apply elem_of_singleton in Hq. subst q. exact Eatt.
        - apply Hpids. destruct pids as [s|]; cbn in *.
          + apply bool_decide_eq_true. exact Hq.
          + apply not_elem_of_empty in Hq. contradiction. }
      { exact Hrun. }
      exists (pid :: l). split; [constructor; assumption|].
      split; [constructor; auto|]. cbn [default].
      destruct rest as [|upid' rest'].
      * inversion Hl; subst. f_equal. apply put_new_last.
      * f_equal. apply put_new.
Qed.

Lemma loop_set_migrated creds upids l :
  resolved creds upids l ->
  match upids with
  | [] => None
  | _ => Some (list_to_set l ∪ default ∅ None)
  end = migrated_set l.
Proof.
  intros Hl. unfold migrated_set. destruct Hl; [reflexivity|].
  cbn [default]. f_equal. apply leibniz_equiv, right_id, _.
Qed.

(** X10. What a successful AttachProcesses has done: one migration, of
    exactly the set of processes the entries of the array stand for (0
    for the sender's own process, duplicates once), each of which the
    unit can take, to the sub-path given; the set is NULL when the array
    was empty. *)
Theorem attach_migrates_requested_set (w : World) (path : string)
    (upids : list Z) (creds : sd_bus_creds) :
  let out := bus_unit_method_attach_processes path upids (inr creds) w in
  fst out = inr tt ->
  exists l,
    resolved creds upids l /\
    Forall (fun pid => unit_pid_attachable (unit_of w) pid = inr tt) l /\
    snd out =
      with_attached
        (attached w ++ [mkMigration (migrated_set l) (empty_to_null path)]) w.
Proof.
  cbn zeta. intros Hok.
  destruct (attach_outcome w path upids creds)
    as [(e & Hout) | (pids & r & Hloop & Hsnd & _)].
  - rewrite Hout in Hok. discriminate.
  - destruct (attach_loop_set (unit_of w) creds upids None pids)
      as (l & Hl & Hatt & ->); [discriminate | exact Hloop |].
    exists l. split; [exact Hl|]. split; [exact Hatt|].
    rewrite Hsnd, (loop_set_migrated creds upids l Hl). reflexivity.
Qed.

Lemma ownership_check_privileged u euid pid :
  euid = 0 \/ euid = getuid -> ownership_check u euid pid = inr tt.
Proof.
  intros Hpriv. unfold ownership_check.
  destruct (Z.eqb_spec euid 0); [reflexivity|].
  destruct (Z.eqb_spec euid getuid); [reflexivity|].
  destruct Hpriv; contradiction.
Qed.

Lemma attach_loop_privileged u creds euid upids :
  creds_euid creds = inr euid -> euid = 0 \/ euid = getuid ->
  set_new = true ->
  Forall (pid_attachable u creds) upids ->
  forall pids, is_ok (fst (attach_processes_loop u creds upids pids)) = true.
Proof.
  intros Heuid Hpriv Hnew.
  induction 1 as [|upid rest (pid & Hreq & Hatt & Hput) _ IH];
    intros pids; [reflexivity|].
  rewrite attach_processes_loop_cons, Hreq.
  destruct (set_contains pids pid); [apply IH|].
  rewrite Hatt, Heuid, (ownership_check_privileged u euid pid Hpriv).
  assert (Hready : negb (match pids with
                         | None => set_new
                         | Some _ => true
                         end) = false)
    by (destruct pids; [reflexivity | rewrite Hnew; reflexivity]).
  rewrite Hready. destruct (Z.ltb_spec (set_put_new pid) 0); [lia|].
  apply IH.
Qed.

Lemma attach_gates_success (w : World) (path : string) (upids : list Z)
    (creds : sd_bus_creds) (pids : option (gset Z)) :
  attach_gates_pass w path ->
  attach_processes_loop (unit_of w) creds upids None = (inr tt, pids) ->
  0 <= sd_bus_message_exit_container ->
  bus_unit_method_attach_processes path upids (inr creds) w =
  (if unit_attach_pids_to_cgroup (unit_of w) pids (empty_to_null path) <? 0
   then
     inl (BusErrnoError
            (unit_attach_pids_to_cgroup (unit_of w) pids (empty_to_null path))
            "Failed to attach processes to control group: %m")
   else if sd_bus_reply_method_return <? 0 then
     inl (Errno sd_bus_reply_method_return)
   else inr tt,
   with_attached
     (attached w ++ [mkMigration pids (empty_to_null path)]) w).
Proof.
  intros (Hacc & Hpath & Hdel & Hact & Henter) Hloop Hexit.
  unfold bus_unit_method_attach_processes, checked, bind, get_unit, lift,
    fail, ret.
  rewrite Hacc, Hdel, Hact, Henter, Hloop.
  destruct (Z.ltb_spec sd_bus_message_exit_container 0); [lia|].
  destruct (empty_to_null path) as [p|]; cbn.
  - destruct Hpath as [-> ->]. cbn.
    destruct (unit_attach_pids_to_cgroup _ _ _ <? 0); [reflexivity|].
    destruct (sd_bus_reply_method_return <? 0); reflexivity.
  - destruct (unit_attach_pids_to_cgroup _ _ _ <? 0); [reflexivity|].
    destruct (sd_bus_reply_method_return <? 0); reflexivity.
Qed.

(** X11. For a sender that is root or the manager's own user the owners
    of the processes are never looked at: once the checks on the unit
    and the path pass, the array of the request is entered and left
    without an error, the unit accepts every process named and the set
    of PIDs can be built, the migration is made; the call then fails
    only when the resource controller or the sending of the reply
    fails. *)
Theorem privileged_sender_skips_ownership (w : World) (path : string)
    (upids : list Z) (creds : sd_bus_creds) (euid : Z) :
  creds_euid creds = inr euid -> euid = 0 \/ euid = getuid ->
  attach_gates_pass w path ->
  Forall (pid_attachable (unit_of w) creds) upids ->
  set_new = true -> 0 <= sd_bus_message_exit_container ->
  exists l,
    resolved creds upids l /\
    bus_unit_method_attach_processes path upids (inr creds) w =
    (if unit_attach_pids_to_cgroup (unit_of w) (migrated_set l)
          (empty_to_null path) <? 0
     then
       inl (BusErrnoError
              (unit_attach_pids_to_cgroup (unit_of w) (migrated_set l)
                 (empty_to_null path))
              "Failed to attach processes to control group: %m")
     else if sd_bus_reply_method_return <? 0 then
       inl (Errno sd_bus_reply_method_return)
     else inr tt,
     with_attached
       (attached w ++ [mkMigration (migrated_set l) (empty_to_null path)]) w).
Proof.
  intros Heuid Hpriv Hgates Hall Hnew Hexit.
  pose proof (attach_loop_privileged (unit_of w) creds euid upids Heuid Hpriv
                Hnew Hall None) as Hok.
  destruct (attach_processes_loop (unit_of w) creds upids None)
    as [[e | []] pids] eqn:Hloop; [discriminate|].
  destruct (attach_loop_set (unit_of w) creds upids None pids)
    as (l & Hl & _ & Hpids); [discriminate | exact Hloop |].
  exists l. split; [exact Hl|].
  rewrite <- (loop_set_migrated creds upids l Hl), <- Hpids.
  apply attach_gates_success; assumption.
Qed.

End AttachSet.

Lemma attach_migrates_requested_set_witness :
  exists l,
    resolved sample_creds [0; 100; 102] l /\
    Forall (fun pid =>
              unit_pid_attachable (Collaborators := sample running)
                sample_unit pid = inr tt) l /\
    snd (bus_unit_method_attach_processes (H := sample running) ""
           [0; 100; 102] (inr sample_creds) (sample_world sample_unit)) =
    with_attached [mkMigration (migrated_set l) None]
      (sample_world sample_unit).
Proof.
  apply (attach_migrates_requested_set (H := sample running)
           (sample_world sample_unit) "" [0; 100; 102] sample_creds).
  vm_compute. reflexivity.
Defined.

Lemma privileged_sender_skips_ownership_witness :
  exists l,
    resolved root_creds [101; 0] l /\
    bus_unit_method_attach_processes (H := sample running) "/sub" [101; 0]
      (inr root_creds) (sample_world sample_unit) =
    (inr tt,
     with_attached [mkMigration (migrated_set l) (Some "/sub")]
       (sample_world sample_unit)).
Proof.
  apply (privileged_sender_skips_ownership (H := sample running)
           (sample_world sample_unit) "/sub" [101; 0] root_creds 0).
  - reflexivity.
  - left. reflexivity.
  - repeat split; reflexivity.
  - constructor; [exists 101; repeat split; try reflexivity; cbn; lia|].
    constructor; [exists 100; repeat split; try reflexivity; cbn; lia|].
    constructor.
  - reflexivity.
  - cbn. lia.
Defined.

(** ** The UnitNew announcement *)

Section Announcement.
Context `{Collaborators}.

Lemma announced_once_snoc tr b :
  tr <> [] -> bc_sender b <> send_new_signal ->
  announced_once tr -> announced_once (tr ++ [b]).
Proof.
  intros Hne Hb. destruct tr as [|b0 rest]; [contradiction|].
  intros [Hfirst Hrest]. split; [exact Hfirst|].
  apply Forall_app. split; [exact Hrest|]. constructor; [exact Hb|].
  constructor.
Qed.

Lemma snoc_not_nil {A} (l : list A) (x : A) : l ++ [x] <> [].
Proof. destruct l; discriminate. Qed.

Lemma announce_inv_change w :
  announce_inv w -> announce_inv (snd (bus_unit_send_change_signal w)).
Proof.
  intros [Honce Hflag]. rewrite bus_unit_send_change_signal_world. cbn zeta.
  destruct (dequeued_unit_fields w) as (Hid & Hs & _ & Hbus).
  destruct (id (unit_of w)) eqn:Eid.
  - split; cbn; rewrite Hbus.
    + destruct (sent_dbus_new_signal (unit_of w)) eqn:Esent.
      * apply announced_once_snoc; [apply Hflag; reflexivity | discriminate
                                   | exact Honce].
      * destruct (bus w) as [|b rest]; [split; [reflexivity | constructor]|].
        destruct Hflag as [_ Hflag]. discriminate Hflag. discriminate.
    + split; [intros _; apply snoc_not_nil | reflexivity].
  - split; rewrite Hbus; [exact Honce | rewrite Hs; exact Hflag].
Qed.

Lemma announce_inv_removed w :
  announce_inv w -> announce_inv (snd (bus_unit_send_removed_signal w)).
Proof.
  intros Hinv. rewrite bus_unit_send_removed_signal_world. cbn zeta.
  assert (Hstep : forall w1,
            announce_inv w1 ->
            (id (unit_of w1) <> None ->
             sent_dbus_new_signal (unit_of w1) = true) ->
            announce_inv
              match id (unit_of w1) with
              | None => w1
              | Some _ =>
                  with_bus
                    (bus w1 ++
                     [mkBroadcast send_removed_signal
                        (run_sender send_removed_signal (unit_of w1))]) w1
              end).
  { intros w1 [Honce Hflag] Hsent. destruct (id (unit_of w1)) eqn:Eid1;
      [|split; assumption].
    assert (Hs1 : sent_dbus_new_signal (unit_of w1) = true)
      by (apply Hsent; discriminate).
    split; cbn.
    - apply announced_once_snoc; [apply Hflag, Hs1 | discriminate
                                 | exact Honce].
    - rewrite Hs1. split; [intros _; apply snoc_not_nil | reflexivity]. }
  destruct (negb (sent_dbus_new_signal (unit_of w)) || in_dbus_queue (unit_of w))
    eqn:Ecall.
  - apply Hstep; [apply announce_inv_change, Hinv|].
    rewrite bus_unit_send_change_signal_world. cbn zeta.
    destruct (dequeued_unit_fields w) as (Hid & _ & _ & _).
    destruct (id (unit_of w)) eqn:Eid; [reflexivity|].
    rewrite Hid. intros Hne. contradiction.
  - apply orb_false_iff in Ecall as [Hs _]. apply negb_false_iff in Hs.
    apply Hstep; auto.
Qed.

Lemma announce_inv_step w op :
  match op with
  | Elsewhere f => keeps_announcement f
  | _ => True
  end ->
  announce_inv w -> announce_inv (notify w op).
Proof.
  destruct op as [| |f]; cbn [notify]; intros Hop.
  - apply announce_inv_change.
  - apply announce_inv_removed.
  - intros [Honce Hflag]. destruct (Hop w) as [Hbus Hsent].
    split; rewrite Hbus; [exact Honce | rewrite Hsent; exact Hflag].
Qed.

Lemma announce_inv_all ops :
  quiet ops -> forall w, announce_inv w -> announce_inv (notify_all ops w).
Proof.
  induction 1 as [|op ops Hop _ IH]; intros w Hw; [exact Hw|].
  apply IH, announce_inv_step; assumption.
Qed.

(** What the outcome of a broadcast says about UnitNew. *)
Lemma unit_new_goes_out b :
  (exists u, bc_outcome b = run_sender (bc_sender b) u) ->
  bc_sender b = send_new_signal -> is_ok (bc_outcome b) = true ->
  delivers (signal_is "UnitNew") b = true.
Proof.
  destruct b as [send outcome]. cbn [bc_sender bc_outcome].
  intros [u ->] ->. unfold delivers, delivered, run_sender.
  cbn [bc_outcome]. destruct (unit_dbus_path u); [|discriminate].
  intros _. reflexivity.
Qed.

Lemma unit_new_sender b :
  (exists u, bc_outcome b = run_sender (bc_sender b) u) ->
  bc_sender b <> send_new_signal ->
  delivers (signal_is "UnitNew") b = false.
Proof.
  destruct b as [send outcome]. cbn [bc_sender bc_outcome].
  intros [u ->] Hsend. unfold delivers, delivered, run_sender.
  cbn [bc_outcome]. destruct (unit_dbus_path u); [|reflexivity].
  destruct send; [contradiction | reflexivity | reflexivity].
Qed.

Lemma announced_first_of_calls tr :
  announced_once tr -> sent_by_senders tr -> announced_first tr.
Proof.
  destruct tr as [|b rest]; [auto|]. intros [Hfirst Hrest] Hwf.
  inversion Hwf as [|? ? Hb Hwf_rest]; subst.
  split; [exact Hfirst|]. split.
  - apply unit_new_goes_out; assumption.
  - unfold sent_by_senders in Hwf_rest.
    rewrite Forall_forall in Hrest, Hwf_rest. apply Forall_forall.
    intros b' Hin. apply unit_new_sender; auto.
Qed.


End Announcement.


(** ** The documentation list *)

Section ReadBack.
Context `{Collaborators} `{Services}.

Lemma read_strings_strings (l : list string) :
  read_strings (map BusString l) = inr l.
Proof.
  induction l as [|s l IH]; [reflexivity|]. cbn. rewrite IH. reflexivity.
Qed.

Lemma write_each_documentation flags name l :
  forall w,
    fst (write_each flags name l w) = inr tt /\
    documentation (unit_of (snd (write_each flags name l w))) =
    documentation (unit_of w).
Proof.
  induction l as [|p rest IH]; intros w; [split; reflexivity|].
  cbn [write_each]. unfold bind, unit_write_settingf.
  destruct (UNIT_WRITE_FLAGS_NOOP flags); cbn; [apply IH|].
  match goal with
  | |- context [write_each flags name rest ?w0] =>
      destruct (IH w0) as [Hfst Hdoc]
  end.
  split; [exact Hfst | rewrite Hdoc; reflexivity].
Qed.

(** X14. Documentation accumulates: a committed list of valid URLs is
    added to the end of the list the unit has, and only the empty list
    clears it. *)
Theorem documentation_accumulates (urls : list string) (flags : Z)
    (w : World) :
  UNIT_WRITE_FLAGS_NOOP flags = false ->
  first_invalid_url urls = None ->
  let out :=
    bus_unit_set_transient_property "Documentation"
      (BusArray "s" (map BusString urls)) flags w in
  fst out = inr 1 /\
  documentation (unit_of (snd out)) =
    match urls with
    | [] => []
    | _ => documentation (unit_of w) ++ urls
    end.
Proof.
  intros Hnoop Hvalid. cbn zeta.
  assert (Hout : bus_unit_set_transient_property "Documentation"
                   (BusArray "s" (map BusString urls)) flags w =
                 match urls with
                 | [] =>
                     (inr 1,
                      snd (unit_write_settingf flags "Documentation" "%s="
                             [SetS "Documentation"]
                             (with_unit (set_documentation [] (unit_of w)) w)))
                 | _ =>
                     (inr 1,
                      snd (write_each flags "Documentation" urls
                             (with_unit
                                (set_documentation
                                   (documentation (unit_of w) ++ urls)
                                   (unit_of w)) w)))
                 end).
  { unfold bus_unit_set_transient_property. eval_streq. cbn iota.
    unfold read_strv, enter_array. eval_streq. cbn iota.
    rewrite read_strings_strings. unfold bind at 1. unfold lift at 1.
    rewrite Hvalid, Hnoop. cbn [negb].
    destruct urls as [|url rest].
    - unfold bind, update_unit, modify, unit_write_settingf, ret.
      rewrite Hnoop. reflexivity.
    - unfold bind at 1. unfold bind at 1. unfold update_unit, modify.
      cbn beta iota.
      match goal with
      | |- context [write_each ?f ?n ?l ?w0] =>
          destruct (write_each_documentation f n l w0) as [Hfst _];
          destruct (write_each f n l w0) as [r w1]
      end.
      cbn [fst] in Hfst. subst r. reflexivity. }
  rewrite Hout. destruct urls as [|url rest]; cbn [fst snd].
  - unfold unit_write_settingf, update_unit, modify. rewrite Hnoop.
    split; reflexivity.
  - split; [reflexivity|].
    match goal with
    | |- context [write_each ?f ?n ?l ?w0] =>
        destruct (write_each_documentation f n l w0) as [_ Hdoc]
    end.
    rewrite Hdoc. reflexivity.
Qed.

End ReadBack.

Lemma documentation_accumulates_witness :
  documentation
    (unit_of
       (snd (bus_unit_set_transient_property (H := sample running)
               "Documentation"
               (BusArray "s" (map BusString ["man:demo(8)"])) 1
               (sample_world
                  (set_documentation ["https://example.org"] sample_unit)))))
  = ["https://example.org"; "man:demo(8)"].
Proof.
  apply (documentation_accumulates (H := sample running) ["man:demo(8)"] 1
           (sample_world
              (set_documentation ["https://example.org"] sample_unit)));
    reflexivity.
Defined.

(** ** Validation of condition arrays *)

Section ConditionsValidated.
Context `{Collaborators}.

Variables (get_list : Unit -> list Condition)
          (set_list : list Condition -> Unit -> Unit).
Variables (name : string) (is_condition : bool) (flags : Z).
Hypothesis Hnoop : UNIT_WRITE_FLAGS_NOOP flags = true.

Lemma conditions_loop_validates entries :
  forall w,
    exists r,
      bus_set_transient_conditions_loop name get_list set_list is_condition
        flags (map encode_entry entries) w = (r, w) /\
      ((Forall (entry_valid is_condition) entries /\ r = inr tt) \/
       (~ Forall (entry_valid is_condition) entries /\
        exists format args,
          r = inl (BusError SD_BUS_ERROR_INVALID_ARGS format args))).
Proof.
  induction entries as [|e rest IH]; intros w.
  - exists (inr tt). split; [reflexivity|]. left. split; [constructor|].
    reflexivity.
  - destruct e as [[[type_name trigger] negate] param].
    cbn [map encode_entry bus_set_transient_conditions_loop].
    unfold bind at 1. cbn [lift read_sbbs].
    assert (Hinvalid : forall format args,
              ~ entry_valid is_condition (type_name, trigger, negate, param) ->
              exists r,
                (inl (BusError SD_BUS_ERROR_INVALID_ARGS format args) :
                   result unit, w) = (r, w) /\
                ((Forall (entry_valid is_condition)
                    ((type_name, trigger, negate, param) :: rest) /\
                  r = inr tt) \/
                 (~ Forall (entry_valid is_condition)
                      ((type_name, trigger, negate, param) :: rest) /\
                  exists format args,
                    r = inl (BusError SD_BUS_ERROR_INVALID_ARGS format args)))).
    { intros format args Hno. eexists. split; [reflexivity|]. right.
      split; [|eauto]. intros Hall. inversion Hall; subst. contradiction. }
    assert (Hvalid :
              entry_valid is_condition (type_name, trigger, negate, param) ->
              exists r,
                bus_set_transient_conditions_loop name get_list set_list
                  is_condition flags (map encode_entry rest) w = (r, w) /\
                ((Forall (entry_valid is_condition)
                    ((type_name, trigger, negate, param) :: rest) /\
                  r = inr tt) \/
                 (~ Forall (entry_valid is_condition)
                      ((type_name, trigger, negate, param) :: rest) /\
                  exists format args,
                    r = inl (BusError SD_BUS_ERROR_INVALID_ARGS format args)))).
    { intros Hyes. destruct (IH w) as (r & Hrun & Hr). exists r.
      split; [exact Hrun|].
      destruct Hr as [[Hall ->] | [Hnot Herr]].
      - left. split; [constructor; assumption | reflexivity].
      - right. split; [|exact Herr]. intros Hall. inversion Hall; subst.
        contradiction. }
    unfold entry_valid, entry_type in Hinvalid, Hvalid.
    set (t := if is_condition then condition_type_from_string type_name
              else assert_type_from_string type_name) in *.
    destruct (Z.ltb_spec t 0) as [Hneg | Hpos].
    { apply Hinvalid. intros [Hge _]. lia. }
    destruct (Z.eqb_spec t CONDITION_NULL) as [Hnull | Hnonnull];
      cbn [negb].
    + unfold bind at 1. cbn [ret]. rewrite Hnoop. cbn [negb].
      unfold bind at 1. cbn [ret].
      apply Hvalid. split; [exact Hpos|]. intros Hne. contradiction.
    + unfold isempty.
      destruct (bool_decide (param = "")) eqn:Eempty.
      { apply bool_decide_eq_true in Eempty. unfold bind at 1. cbn [fail].
        apply Hinvalid. intros [_ Hparam].
        destruct (Hparam Hnonnull) as [Hne _]. contradiction. }
      apply bool_decide_eq_false in Eempty.
      destruct (condition_takes_path t) eqn:Etakes; cbn [andb].
      * destruct (path_is_absolute param) eqn:Eabs; cbn [negb].
        -- unfold bind at 1. cbn [ret]. rewrite Hnoop. cbn [negb].
           unfold bind at 1. cbn [ret].
           apply Hvalid. split; [exact Hpos|]. intros _. auto.
        -- unfold bind at 1. cbn [fail].
           apply Hinvalid. intros [_ Hparam].
           destruct (Hparam Hnonnull) as [_ Habs].
           specialize (Habs eq_refl). discriminate.
      * unfold bind at 1. cbn [ret]. rewrite Hnoop. cbn [negb].
        unfold bind at 1. cbn [ret].
        apply Hvalid. split; [exact Hpos|]. intros _.
        split; [exact Eempty | discriminate].
Qed.

(** X15. In the validating run an array of Conditions (of Asserts) is
    accepted exactly when every entry is valid: its type is known and, if
    the type is not the null one, its parameter is not empty and is an
    absolute path where the type takes a path. Otherwise the call fails
    with an invalid-arguments error. Either way nothing is changed. *)
Theorem conditions_accepted_iff_valid (entries : list condition_entry)
    (w : World) :
  let out :=
    bus_set_transient_conditions name get_list set_list is_condition
      (encode_conditions entries) flags w in
  snd out = w /\
  (fst out = inr 1 <-> Forall (entry_valid is_condition) entries) /\
  (is_ok (fst out) = false ->
   exists format args,
     fst out = inl (BusError SD_BUS_ERROR_INVALID_ARGS format args)).
Proof.
  cbn zeta.
  assert (Hout : exists r,
            bus_set_transient_conditions name get_list set_list is_condition
              (encode_conditions entries) flags w = (r, w) /\
            ((Forall (entry_valid is_condition) entries /\ r = inr 1) \/
             (~ Forall (entry_valid is_condition) entries /\
              exists format args,
                r = inl (BusError SD_BUS_ERROR_INVALID_ARGS format args)))).
  { unfold bus_set_transient_conditions, encode_conditions.
    unfold bind at 1. cbn [lift enter_array].
    unfold streq. rewrite bool_decide_eq_true_2 by reflexivity.
    destruct (conditions_loop_validates entries w) as (r & Hrun & Hr).
    unfold bind at 1. rewrite Hrun.
    destruct Hr as [[Hall ->] | [Hnot (format & args & ->)]].
    - rewrite Hnoop. cbn [negb andb]. unfold bind, ret.
      eexists. split; [reflexivity|]. left. auto.
    - eexists. split; [reflexivity|]. right. eauto. }
  destruct Hout as (r & -> & Hr). cbn [fst snd]. split; [reflexivity|].
  destruct Hr as [[Hall ->] | [Hnot (format & args & ->)]].
  - split; [tauto | discriminate].
  - split; [|eauto]. split; [discriminate | contradiction].
Qed.

End ConditionsValidated.

Lemma conditions_accepted_iff_valid_witness :
  snd (bus_set_transient_conditions (H := sample running) "Conditions"
         conditions set_conditions true (encode_conditions [host_a; host_b])
         0 (sample_world sample_unit)) = sample_world sample_unit.
Proof.
  apply (conditions_accepted_iff_valid (H := sample running) conditions
           set_conditions "Conditions" true 0 eq_refl [host_a; host_b]
           (sample_world sample_unit)).
Defined.

(** ** Method handlers *)

Section Handlers.
Context `{Collaborators} `{Services}.

(** X16. Start and its siblings and Kill check their arguments after
    the access check and before the authorization backend is asked: with
    an unknown job mode, an unknown target of the signal or a signal
    number out of range the call ends with the refusal of the access
    check or, when that check passes, with an invalid-arguments error,
    and in both cases with the world as it was; and a Kill that was
    carried out had a signal number in range and a known target. *)
Theorem arguments_checked_before_polkit (w : World) :
  (forall job_type reload_if_possible smode,
     job_mode_from_string smode < 0 ->
     bus_unit_method_start_generic job_type reload_if_possible smode w =
     (match mac_selinux_unit_access_check (unit_of w)
              (job_type_to_access_method job_type) with
      | inl e => inl e
      | inr _ =>
          inl (BusError SD_BUS_ERROR_INVALID_ARGS "Job mode %s invalid"
                 [ArgString smode])
      end, w)) /\
  (forall swho signo,
     (swho <> "" /\ kill_who_from_string swho < 0) \/
     ~ (0 < signo < NSIG) ->
     exists format args,
       bus_unit_method_kill swho signo w =
       (match mac_selinux_unit_access_check (unit_of w) "stop" with
        | inl e => inl e
        | inr _ => inl (BusError SD_BUS_ERROR_INVALID_ARGS format args)
        end, w)) /\
  (forall swho signo,
     fst (bus_unit_method_kill swho signo w) = inr true ->
     0 < signo < NSIG /\ (swho = "" \/ 0 <= kill_who_from_string swho)).
Proof.
  split; [|split].
  - intros job_type reload_if_possible smode Hmode.
    unfold bus_unit_method_start_generic, bind, get_unit, lift.
    destruct (mac_selinux_unit_access_check (unit_of w)
                (job_type_to_access_method job_type)) as [e | []];
      [reflexivity|]. cbn zeta.
    destruct (Z.ltb_spec (job_mode_from_string smode) 0); [reflexivity|lia].
  - intros swho signo Hbad.
    unfold bus_unit_method_kill, bind, get_unit, lift, fail, ret.
    destruct (mac_selinux_unit_access_check (unit_of w) "stop") as [e | []];
      [exists "", []; reflexivity|].
    unfold isempty, SIGNAL_VALID.
    destruct (bool_decide (swho = "")) eqn:Ewho.
    + apply bool_decide_eq_true in Ewho.
      destruct Hbad as [[Hne _] | Hsig]; [contradiction|].
      destruct (Z.gtb_spec signo 0), (Z.ltb_spec signo NSIG); cbn [andb negb];
        try (eexists _, _; reflexivity); lia.
    + destruct (Z.ltb_spec (kill_who_from_string swho) 0) as [Hneg | Hpos];
        [eexists _, _; reflexivity|].
      destruct Hbad as [[_ Hlt] | Hsig]; [lia|].
      destruct (Z.gtb_spec signo 0), (Z.ltb_spec signo NSIG); cbn [andb negb];
        try (eexists _, _; reflexivity); lia.
  - intros swho signo Hdone.
    unfold bus_unit_method_kill, bind, get_unit, lift, fail, ret in Hdone.
    destruct (mac_selinux_unit_access_check (unit_of w) "stop") as [e | []];
      [discriminate|].
    unfold isempty, SIGNAL_VALID in Hdone.
    destruct (bool_decide (swho = "")) eqn:Ewho.
    + apply bool_decide_eq_true in Ewho.
      destruct (Z.gtb_spec signo 0), (Z.ltb_spec signo NSIG);
        cbn [andb negb] in Hdone; try discriminate.
      split; [lia | auto].
    + destruct (Z.ltb_spec (kill_who_from_string swho) 0) as [Hneg | Hpos];
        [discriminate|].
      destruct (Z.gtb_spec signo 0), (Z.ltb_spec signo NSIG);
        cbn [andb negb] in Hdone; try discriminate.
      split; [lia | auto].
Qed.

Lemma allocate_bus_track_some (t : Tracking) :
  is_ok (fst (bus_unit_allocate_bus_track t)) = true ->
  bus_track (snd (bus_unit_allocate_bus_track t)) <> None.
Proof.
  unfold bus_unit_allocate_bus_track, bind, get, lift, modify, fail, ret.
  destruct (bus_track t) eqn:Etrack.
  - cbn. rewrite Etrack. discriminate.
  - destruct sd_bus_track_new as [e | track]; [discriminate|].
    cbn. destruct (sd_bus_track_set_recursive track true); cbn;
      discriminate.
Qed.

Lemma on_track_some call (t : Tracking) :
  bus_track t <> None -> bus_track (snd (on_track call t)) <> None.
Proof.
  unfold on_track, bind, get, lift, modify, fail, ret.
  destruct (bus_track t) as [track|] eqn:Etrack; [|contradiction].
  intros _. destruct (call track); cbn; [rewrite Etrack|]; discriminate.
Qed.

Lemma track_add_sender_some (m : string) (t : Tracking) :
  is_ok (fst (bus_unit_track_add_sender m t)) = true ->
  bus_track (snd (bus_unit_track_add_sender m t)) <> None.
Proof.
  unfold bus_unit_track_add_sender. unfold bind at 1 2.
  pose proof (allocate_bus_track_some t) as Halloc.
  destruct (bus_unit_allocate_bus_track t) as [[e | r] t1];
    [discriminate|].
  intros _. apply on_track_some, Halloc. reflexivity.
Qed.

Lemma unref_without_track (m : string) (t : Tracking) :
  bus_track t = None ->
  bus_unit_method_unref m t =
  (inl (NotReferencedError "Unit has not been referenced yet."), t).
Proof.
  intros Hnone.
  unfold bus_unit_method_unref, bus_unit_track_remove_sender, bind, get, fail.
  rewrite Hnone. cbn. rewrite Z.eqb_refl. reflexivity.
Qed.

(** X17. The life of a unit's peer references: a Ref that was answered
    leaves a watch object behind, so that an Unref is handed to it; an
    Unref on a unit that has no watch object is refused as not
    referenced, with nothing changed; and once the watch object reported
    that the last peer is gone, the object is dropped, the unit is handed
    to the garbage collector once, and a further Unref is refused as not
    referenced. *)
Theorem peer_reference_lifecycle (m : string) :
  (forall s,
     fst (bus_unit_method_ref m s) = inr true ->
     exists track,
       bus_track (snd (snd (bus_unit_method_ref m s))) = Some track /\
       forall m',
         bus_unit_track_remove_sender m'
           (snd (snd (bus_unit_method_ref m s))) =
         on_track (fun track => sd_bus_track_remove_sender track m')
           (snd (snd (bus_unit_method_ref m s)))) /\
  (forall t,
     bus_track t = None ->
     bus_unit_method_unref m t =
     (inl (NotReferencedError "Unit has not been referenced yet."), t)) /\
  (forall t,
     let t' := snd (bus_unit_track_handler t) in
     bus_track t' = None /\ gc_requests t' = S (gc_requests t) /\
     bus_unit_method_unref m t' =
     (inl (NotReferencedError "Unit has not been referenced yet."), t')).
Proof.
  split; [|split].
  - intros [w t] Hdone.
    assert (Hsome : bus_track (snd (snd (bus_unit_method_ref m (w, t))))
                    <> None).
    { revert Hdone.
      unfold bus_unit_method_ref, bind, on_world, on_tracking, get_unit, lift,
        fail, ret. cbn [fst snd].
      destruct (mac_selinux_unit_access_check (unit_of w) "start")
        as [e | []]; [discriminate|].
      destruct (bus_verify_manage_units_async_full (unit_of w) "ref"
                  CAP_SYS_ADMIN None false w) as [[e | r] w1];
        [discriminate|]. cbn [fst snd].
      destruct (r <? 0); [discriminate|].
      destruct (r =? 0); [discriminate|]. cbn [fst snd].
      pose proof (track_add_sender_some m t) as Hadd.
      destruct (bus_unit_track_add_sender m t) as [[e | r'] t1];
        cbn [fst snd] in *; [discriminate|].
      destruct (r' <? 0); cbn [fst snd]; [discriminate|].
      unfold checked, fail, ret.
      destruct (sd_bus_reply_method_return <? 0); cbn [fst snd];
        [discriminate|].
      intros _. apply Hadd. reflexivity. }
    destruct (bus_track (snd (snd (bus_unit_method_ref m (w, t)))))
      as [track|] eqn:Etrack; [|contradiction].
    exists track. split; [reflexivity|]. intros m'.
    unfold bus_unit_track_remove_sender, bind, get. cbn [fst snd].
    rewrite Etrack. reflexivity.
  - intros t. apply unref_without_track.
  - intros t. cbn zeta.
    assert (Ht : snd (bus_unit_track_handler t) =
                 mkTracking None (S (gc_requests t))) by reflexivity.
    rewrite Ht. split; [reflexivity|]. split; [reflexivity|].
    apply unref_without_track. reflexivity.
Qed.

End Handlers.

Lemma arguments_checked_before_polkit_witness :
  bus_unit_method_start_generic (H := sample running) (H0 := sample_services)
    JOB_START false "sideways" (sample_world sample_unit) =
  (inl (BusError SD_BUS_ERROR_INVALID_ARGS "Job mode %s invalid"
          [ArgString "sideways"]), sample_world sample_unit) /\
  exists format args,
    bus_unit_method_kill (H := sample running) (H0 := sample_services)
      "main" 65 (sample_world sample_unit) =
    (inl (BusError SD_BUS_ERROR_INVALID_ARGS format args),
     sample_world sample_unit).
Proof.
  destruct (arguments_checked_before_polkit (H := sample running)
              (H0 := sample_services) (sample_world sample_unit))
    as (Hstart & Hkill & _).
  split.
  - apply Hstart. vm_compute. reflexivity.
  - apply Hkill. right. cbn. lia.
Defined.

Lemma peer_reference_lifecycle_witness :
  bus_unit_method_unref (H := sample running) (H0 := sample_services)
    "peer" untracked =
  (inl (NotReferencedError "Unit has not been referenced yet."), untracked).
Proof.
  apply (proj1 (proj2 (peer_reference_lifecycle (H := sample running)
                         (H0 := sample_services) "peer"))).
  reflexivity.
Defined.

(** ** Validation of dependency lists *)

Section DependenciesValidated.
Context `{Collaborators}.

Lemma dependencies_loop_validates name d flags names :
  UNIT_WRITE_FLAGS_NOOP flags = true ->
  forall w,
    transient_dependencies_loop name d flags (map BusString names) w =
    (match first_invalid_name names with
     | Some other =>
         inl (BusError SD_BUS_ERROR_INVALID_ARGS "Invalid unit name %s"
                [ArgString other])
     | None => inr tt
     end, w).
Proof.
  intros Hnoop. induction names as [|other rest IH]; intros w;
    [reflexivity|].
  cbn [map transient_dependencies_loop]. unfold bind at 1.
  cbn [lift read_s]. unfold first_invalid_name. cbn [List.find].
  destruct (unit_name_is_valid other (Z.lor UNIT_NAME_PLAIN UNIT_NAME_INSTANCE));
    cbn [negb]; [|reflexivity].
  rewrite Hnoop. cbn [negb]. unfold bind at 1. cbn [ret]. apply IH.
Qed.

(** X18. In the validating run a list of unit names given for a
    dependency kind (the two obsolete names RequiresOverridable and
    RequisiteOverridable count as Requires and Requisite) is accepted
    exactly when every name is a valid plain or instance unit name;
    otherwise the call fails with an invalid-arguments error that names
    the first invalid one. Either way nothing is changed. *)
Theorem dependency_names_validated (name : string) (names : list string)
    (flags : Z) (w : World) :
  UNIT_WRITE_FLAGS_NOOP flags = true ->
  0 <= dependency_kind name ->
  transient_dependency_or_ref name
    (Some (BusArray "s" (map BusString names))) flags w =
  (match first_invalid_name names with
   | Some other =>
       inl (BusError SD_BUS_ERROR_INVALID_ARGS "Invalid unit name %s"
              [ArgString other])
   | None => inr 1
   end, w).
Proof.
  intros Hnoop Hkind. unfold transient_dependency_or_ref.
  fold (dependency_kind name).
  destruct (Z.geb_spec (dependency_kind name) 0) as [_ | Hneg]; [|lia].
  unfold bind at 1. cbn [lift enter_array].
  unfold streq at 1. rewrite bool_decide_eq_true_2 by reflexivity.
  unfold bind at 1.
  rewrite (dependencies_loop_validates name (dependency_kind name) flags
             names Hnoop w).
  destruct (first_invalid_name names); reflexivity.
Qed.

End DependenciesValidated.

Lemma dependency_names_validated_witness :
  transient_dependency_or_ref (H := sample running) "RequiresOverridable"
    (Some (BusArray "s" (map BusString ["a.service"; "b"; "c"]))) 0
    (sample_world sample_unit) =
  (inl (BusError SD_BUS_ERROR_INVALID_ARGS "Invalid unit name %s"
          [ArgString "b"]), sample_world sample_unit).
Proof.
  apply (dependency_names_validated (H := sample running)
           "RequiresOverridable" ["a.service"; "b"; "c"] 0
           (sample_world sample_unit)).
  - reflexivity.
  - vm_compute. discriminate.
Defined.

(** ** The SetProperties method *)

Section SetPropertiesMethod.
Context `{Collaborators} `{Services}.

(** The authorization backend does not touch the unit. *)
Hypothesis polkit_keeps_unit :
  forall capability action details interactive w,
    unit_of (snd (bus_verify_polkit_async capability action details
                    interactive w)) = unit_of w.

(** X19. The SetProperties method is all-or-nothing on a rejected batch:
    when the batch holds an entry validation rejects, the method never
    reports success and the unit is afterwards what it was before,
    whether the call was refused, is waiting for authorization, or was
    authorized and ran. *)
Theorem set_properties_method_rejects_whole_batch (runtime : bool)
    (entries : list (string * bus_value)) (w : World) :
  subtype_handlers_dry ->
  Exists
    (entry_invalid (unit_of w) (if runtime then UNIT_RUNTIME else UNIT_PERSISTENT))
    entries ->
  fst (bus_unit_method_set_properties runtime entries w) <> inr true /\
  unit_of (snd (bus_unit_method_set_properties runtime entries w)) = unit_of w.
Proof.
  intros Hdry Hex.
  set (flags := if runtime then UNIT_RUNTIME else UNIT_PERSISTENT) in *.
  unfold bus_unit_method_set_properties, bind, get_unit, lift, fail, ret.
  destruct (mac_selinux_unit_access_check (unit_of w) "start") as [e | []];
    [split; [discriminate | reflexivity]|].
  unfold bus_verify_manage_units_async_full.
  match goal with
  | |- context [bus_verify_polkit_async ?c ?a ?d ?i w] =>
      pose proof (polkit_keeps_unit c a d i w) as Hkeep;
      destruct (bus_verify_polkit_async c a d i w) as [[e | r] w1]
  end; cbn [fst snd] in *; [split; [discriminate | exact Hkeep]|].
  destruct (r <? 0); [split; [discriminate | exact Hkeep]|].
  destruct (r =? 0); [split; [discriminate | exact Hkeep]|].
  fold flags. rewrite <- Hkeep in Hex.
  pose proof (first_pass_rejects Hdry flags entries 0 w1 Hex) as Hfail.
  pose proof (first_pass_dry Hdry (unit_of w1) flags entries 0 w1 eq_refl)
    as Hsame.
  destruct (set_properties_pass false flags entries 0 w1) as [[e | n] w2]
    eqn:Hrun; [|discriminate].
  assert (Hout : bus_unit_set_properties entries flags true w1 = (inl e, w2)).
  { unfold bus_unit_set_properties. unfold bind at 1. rewrite Hrun.
    reflexivity. }
  rewrite Hout. cbn [fst snd]. split; [discriminate|].
  unfold same_unit in Hsame. cbn [snd] in Hsame. congruence.
Qed.

End SetPropertiesMethod.

Lemma set_properties_method_rejects_whole_batch_witness :
  fst (bus_unit_method_set_properties (H := sample running)
         (H0 := sample_services) true sample_batch
         (sample_world sample_unit)) <> inr true /\
  unit_of (snd (bus_unit_method_set_properties (H := sample running)
                  (H0 := sample_services) true sample_batch
                  (sample_world sample_unit))) = sample_unit.
Proof.
  apply (set_properties_method_rejects_whole_batch (H := sample running)
           (H0 := sample_services)).
  - reflexivity.
  - intros t handler name message f w Hhandler _.
    destruct t; cbn in Hhandler; try discriminate;
      injection Hhandler as <-; reflexivity.
  - apply Exists_cons_tl, Exists_cons_hd.
    intros [s u m b a] Hu. cbn [unit_of sample_world] in Hu. subst u.
    vm_compute. reflexivity.
Defined.
